(** * embrelpredict.learn: a shallow embedding and its verified properties

    The module [embrelpredict/learn.py] drives repeated training runs of
    binary classifiers over word-relation datasets and stores / reloads the
    results in a directory tree.  This development embeds

    - the Python primitives the module relies on ([round], [str.find],
      slicing, [int()], the [%d] and [%02d] formats),
    - the epoch heuristic [_epochs_from_trainset_size],
    - the model factory [_build_model],
    - the filename scanner [load_rels_meta],
    - the orchestration loop [learn_rel], over abstract collaborators
      (data loaders and trainer) that act on an explicit world state and
      leave a trace of every call,
    - the result store and loader over an explicit filesystem state,

    and proves the properties stated about them. *)

From Stdlib Require Import ZArith QArith Qround String Ascii List Lia.
From Stdlib Require Import DecimalString DecimalZ Permutation Qpower Lqa.
From Stdlib Require Import Sorted.
From stdpp Require Import base tactics option list strings.
Import ListNotations.

Local Open Scope string_scope.
Local Open Scope list_scope.
Local Open Scope Z_scope.

(* ===================================================================== *)
(** * Python primitives *)
(* ===================================================================== *)

Module Py.

(** An exception: the name of its class and its message. *)
Record exn : Type := PyExc { exc_class : string; exc_msg : string }.

(** The outcome of a call: a value, or a raised exception. *)
Inductive result (A : Type) : Type :=
| Ok (a : A)
| Raise (e : exn).
Arguments Ok {A} a.
Arguments Raise {A} e.

Definition bind {A B : Type} (r : result A) (k : A -> result B) : result B :=
  match r with
  | Ok a => k a
  | Raise e => Raise e
  end.

Definition is_ok {A : Type} (r : result A) : bool :=
  match r with Ok _ => true | Raise _ => false end.

Declare Scope result_scope.
Delimit Scope result_scope with res.
Notation "x <- e ;; k" := (bind e (fun x => k))
  (at level 100, e at next level, right associativity) : result_scope.
Local Open Scope result_scope.

(** A [for] loop that threads an accumulator and stops at the first
    exception. *)
Fixpoint for_each {A S : Type} (body : S -> A -> result S) (l : list A) (s : S)
  : result S :=
  match l with
  | [] => Ok s
  | x :: l' => s' <- body s x ;; for_each body l' s'
  end.

(** A list comprehension whose element expression may raise. *)
Fixpoint map_result {A B : Type} (f : A -> result B) (l : list A)
  : result (list B) :=
  match l with
  | [] => Ok []
  | x :: l' => y <- f x ;; ys <- map_result f l' ;; Ok (y :: ys)
  end.

(** [round(x)] of Python 3: the nearest integer, a tie going to the even
    neighbour. *)
Definition py_round (x : Q) : Z :=
  let f := Qfloor x in
  match Qcompare (x - inject_Z f) (1 # 2) with
  | Lt => f
  | Gt => f + 1
  | Eq => if Z.even f then f else f + 1
  end.

(** ['%d' % z]: the decimal numeral, with a minus sign when negative. *)
Definition fmt_d (z : Z) : string := NilZero.string_of_int (Z.to_int z).

(** ['%02d' % z]: the numeral padded with zeros to two characters (only a
    single digit is shorter than that). *)
Definition fmt_02d (z : Z) : string :=
  let s := fmt_d z in
  if (String.length s <? 2)%nat then "0" +:+ s else s.

(** [s.find(sub)]: the index of the first occurrence, or -1. *)
Definition py_find (sub s : string) : Z :=
  match String.index 0 sub s with
  | Some i => Z.of_nat i
  | None => -1
  end.

(** A slice bound as Python normalises it: a negative bound counts from
    the end, and the bound is clamped to [0, len]. *)
Definition clamp_index (len i : Z) : Z :=
  let j := if i <? 0 then i + len else i in
  Z.max 0 (Z.min len j).

(** [s[a:b]]. *)
Definition py_slice (s : string) (a b : Z) : string :=
  let len := Z.of_nat (String.length s) in
  let a' := clamp_index len a in
  let b' := clamp_index len b in
  String.substring (Z.to_nat a') (Z.to_nat (b' - a')) s.

(** Whitespace that [int()] strips from both ends (the ASCII part of
    Python's whitespace: tab, newline, vertical tab, form feed, carriage
    return, the four separators 28-31 and the space). *)
Definition is_space (c : ascii) : bool :=
  let n := Z.of_nat (nat_of_ascii c) in
  ((9 <=? n) && (n <=? 13)) || ((28 <=? n) && (n <=? 32)).

Fixpoint lstrip (s : string) : string :=
  match s with
  | String c s' => if is_space c then lstrip s' else s
  | EmptyString => EmptyString
  end.

Fixpoint rstrip (s : string) : string :=
  match s with
  | String c s' =>
      match rstrip s' with
      | EmptyString => if is_space c then EmptyString else String c EmptyString
      | t => String c t
      end
  | EmptyString => EmptyString
  end.

Definition digit_val (c : ascii) : option Z :=
  let n := Z.of_nat (nat_of_ascii c) in
  if (48 <=? n) && (n <=? 57) then Some (n - 48) else None.

(** The digits of an integer literal: decimal digits, where single
    underscores may stand between two digits.  [after_digit] tells whether
    the previous character was a digit. *)
Fixpoint parse_digits (s : string) (acc : Z) (after_digit : bool) : option Z :=
  match s with
  | EmptyString => if after_digit then Some acc else None
  | String c s' =>
      match digit_val c with
      | Some d => parse_digits s' (10 * acc + d) true
      | None =>
          if Ascii.eqb c "_" && after_digit
          then parse_digits s' acc false
          else None
      end
  end.

(** [int(s)] on a string: surrounding whitespace is dropped, a sign may
    lead, the rest must be digits.  (Python also reads the decimal digits of
    other scripts; characters outside ASCII are no digits here.) *)
Definition py_int (s : string) : result Z :=
  let t := rstrip (lstrip s) in
  let body :=
    match t with
    | String "+" t' => parse_digits t' 0 false
    | String "-" t' => option_map Z.opp (parse_digits t' 0 false)
    | _ => parse_digits t 0 false
    end in
  match body with
  | Some z => Ok z
  | None => Raise (PyExc "ValueError" "invalid literal for int() with base 10")
  end.

(** [range(n)]. *)
Definition py_range (n : Z) : list Z := map Z.of_nat (seq 0 (Z.to_nat n)).

(** [itertools.product(xs, ys, zs)]: the rightmost list runs fastest. *)
Definition product3 {A B C : Type} (xs : list A) (ys : list B) (zs : list C)
  : list (A * B * C) :=
  flat_map (fun x => flat_map (fun y => map (fun z => (x, y, z)) zs) ys) xs.

(** A [dict] with string keys, kept in insertion order. *)
Definition dict (V : Type) : Type := list (string * V).

Fixpoint dict_get {V : Type} (d : dict V) (k : string) : option V :=
  match d with
  | [] => None
  | (k', v) :: d' => if String.eqb k' k then Some v else dict_get d' k
  end.

(** [d[k] = v]: an existing key keeps its place, a new one goes last. *)
Fixpoint dict_set {V : Type} (d : dict V) (k : string) (v : V) : dict V :=
  match d with
  | [] => [(k, v)]
  | (k', v') :: d' =>
      if String.eqb k' k then (k', v) :: d' else (k', v') :: dict_set d' k v
  end.

Definition dict_keys {V : Type} (d : dict V) : list string := map fst d.

End Py.
Export Py.
Local Open Scope result_scope.

(* ===================================================================== *)
(** * The epoch heuristic *)
(* ===================================================================== *)

Module Epochs.

(** [math.log10(trainset_size/2)] is irrational unless [trainset_size] is
    [2 * 10^j]; the code only uses its rounding
    [order = round(log10 - 1)].  Over the reals [order] is the integer [k]
    with [k - 1/2 < log10(n/2) - 1 < k + 1/2], that is
    [4 * 10^(2k+1) < n^2 < 4 * 10^(2k+3)]; a tie would make an odd power of
    ten a square, so the rounding mode never matters.  For [n >= 1] the
    least value is [k = -1], and [k + 1] counts the bounds
    [40, 4000, 400000, ...] that lie below [n^2]. *)
Fixpoint bounds_below (fuel : nat) (bound m : Z) : Z :=
  match fuel with
  | O => 0
  | S fuel' =>
      if bound <? m then 1 + bounds_below fuel' (100 * bound) m else 0
  end.

(** [round(math.log10(n / 2) - 1)] for [n >= 1]. *)
Definition round_log10_half_minus1 (n : Z) : Z :=
  bounds_below (S (Z.to_nat (Z.log2 n))) 40 (n * n) - 1.

(** [trainset_size/2] divides two integers into a float: the quotient is
    rounded to the nearest double, and the division raises when that lies
    beyond the largest double, which is the case from [2^1025 - 2^971] on
    in absolute value.  Below that bound the logarithm is taken; it
    raises for an argument that is not positive. *)
Definition float_overflow_bound : Z := 2 ^ 1025 - 2 ^ 971.

Definition overflow_error : exn :=
  PyExc "OverflowError" "integer division result too large for a float".

Definition _epochs_from_trainset_size (trainset_size : Z) : result Z :=
  if float_overflow_bound <=? Z.abs trainset_size
  then Raise overflow_error
  else if trainset_size <=? 0
  then Raise (PyExc "ValueError" "math domain error")
  else
    let order := round_log10_half_minus1 trainset_size in
    let inv_order := 5 - order in
    let factor := Qpower 2 inv_order in
    let base := 3 in
    Ok (py_round (factor * inject_Z base)).

(** The number of epochs as a function of [order]. *)
Definition epochs_of_order (order : Z) : Z :=
  py_round (Qpower 2 (5 - order) * inject_Z 3).

(** The half-decade that holds [n]: with [k] the rounded logarithm,
    [4 * 10^(2k+1) < n^2 <= 4 * 10^(2k+3)], written for [c = k + 1]. *)
Definition in_half_decade (n c : Z) : Prop :=
  0 <= c /\ n * n <= 40 * 100 ^ c /\ (0 < c -> 40 * 100 ^ (c - 1) < n * n).

End Epochs.

(* ===================================================================== *)
(** * Paths and the filesystem *)
(* ===================================================================== *)

Module FS.

(** A path is the list of its components below the base directory all
    paths are relative to. *)
Definition path : Type := list string.

(** A name split at every ["/"]. *)
Fixpoint split_sep (s : string) : list string :=
  match s with
  | EmptyString => [EmptyString]
  | String c s' =>
      if Ascii.eqb c "/" then EmptyString :: split_sep s'
      else match split_sep s' with
           | x :: xs => String c x :: xs
           | [] => [String c EmptyString]
           end
  end.

Definition keeps_component (x : string) : bool :=
  negb (String.eqb x "") && negb (String.eqb x ".").

(** The components a name contributes: empty ones and ["."] name the
    directory itself.  ([".."] is not resolved.) *)
Definition components (s : string) : list string :=
  List.filter keeps_component (split_sep s).

(** [os.path.join(p, s)]: a name that starts with ["/"] restarts from the
    root, which the model identifies with the base directory. *)
Definition osp_join (p : path) (s : string) : path :=
  match s with
  | String "/" _ => components s
  | _ => p ++ components s
  end.

(** A name that is one component: what a directory listing returns. *)
Definition plain_name (s : string) : Prop :=
  s <> "" /\ s <> "." /\ s <> ".." /\
  forall c, In c (list_ascii_of_string s) -> c <> "/"%char.

(** A name the operating system takes for one directory entry, and reaches
    by that name: a plain name without the NUL character.  The properties
    of the store and the loader that compare a tree with what is read from
    it are stated for paths made of such names, since the model keeps a
    component [".."] as a name of its own where the operating system goes
    to the parent directory. *)
Definition entry_name (s : string) : Prop :=
  plain_name s /\
  forall c, In c (list_ascii_of_string s) -> c <> "000"%char.

Inductive node (D : Type) : Type :=
| Dir
| File (d : D).
Arguments Dir {D}.
Arguments File {D} d.

(** The filesystem: its nodes in the order they were created, and the
    order in which [os.listdir] reports the entries of a directory (which
    Python leaves unspecified). *)
Record t (D : Type) : Type := mk {
  nodes : list (path * node D);
  order : list string -> list string
}.
Arguments mk {D} nodes order.
Arguments nodes {D} _.
Arguments order {D} _.

Definition path_eqb (p q : path) : bool := bool_decide (p = q).

Fixpoint assoc {D : Type} (l : list (path * node D)) (p : path)
  : option (node D) :=
  match l with
  | [] => None
  | (q, n) :: l' => if path_eqb q p then Some n else assoc l' p
  end.

(** The node at a path; the base directory always exists. *)
Definition lookup {D : Type} (fs : t D) (p : path) : option (node D) :=
  match p with
  | [] => Some Dir
  | _ => assoc (nodes fs) p
  end.

Definition exists_ {D : Type} (fs : t D) (p : path) : bool :=
  match lookup fs p with Some _ => true | None => false end.

Definition isdir {D : Type} (fs : t D) (p : path) : bool :=
  match lookup fs p with Some Dir => true | _ => false end.

Definition isfile {D : Type} (fs : t D) (p : path) : bool :=
  match lookup fs p with Some (File _) => true | _ => false end.

(** [Some n] when [q] is the entry [n] of directory [p]. *)
Fixpoint child_of (p q : path) : option string :=
  match p, q with
  | [], [n] => Some n
  | x :: p', y :: q' => if String.eqb x y then child_of p' q' else None
  | _, _ => None
  end.

Definition children {D : Type} (fs : t D) (p : path) : list string :=
  omap (fun e => child_of p (fst e)) (nodes fs).

Definition listdir {D : Type} (fs : t D) (p : path) : result (list string) :=
  match lookup fs p with
  | Some Dir => Ok (order fs (children fs p))
  | Some (File _) => Raise (PyExc "NotADirectoryError" "")
  | None => Raise (PyExc "FileNotFoundError" "")
  end.

Definition add_node {D : Type} (fs : t D) (p : path) (n : node D) : t D :=
  mk (nodes fs ++ [(p, n)]) (order fs).

(** The directories [pre ++ [c1]], [pre ++ [c1; c2]], ... in turn: one
    that is missing is created, one that is a file stops the walk. *)
Fixpoint ensure_dirs {D : Type} (fs : t D) (pre : path) (rest : list string)
  : result (t D) :=
  match rest with
  | [] => Ok fs
  | c :: rest' =>
      let q := pre ++ [c] in
      match lookup fs q with
      | Some Dir => ensure_dirs fs q rest'
      | Some (File _) => Raise (PyExc "NotADirectoryError" "")
      | None => ensure_dirs (add_node fs q Dir) q rest'
      end
  end.

(** [os.makedirs(p)]: every missing ancestor is created; the leaf itself
    must not exist yet. *)
Definition makedirs {D : Type} (fs : t D) (p : path) : result (t D) :=
  if exists_ fs p then Raise (PyExc "FileExistsError" "")
  else ensure_dirs fs [] p.

Fixpoint replace {D : Type} (l : list (path * node D)) (p : path) (n : node D)
  : list (path * node D) :=
  match l with
  | [] => []
  | (q, m) :: l' =>
      if path_eqb q p then (q, n) :: l' else (q, m) :: replace l' p n
  end.

(** [open(p, 'w')] followed by writing [d]: the parent must be a
    directory; an existing file is overwritten in place. *)
Definition write {D : Type} (fs : t D) (p : path) (d : D) : result (t D) :=
  match lookup fs (removelast p) with
  | Some Dir =>
      match lookup fs p with
      | Some Dir => Raise (PyExc "IsADirectoryError" "")
      | Some (File _) => Ok (mk (replace (nodes fs) p (File d)) (order fs))
      | None => Ok (add_node fs p (File d))
      end
  | Some (File _) => Raise (PyExc "NotADirectoryError" "")
  | None => Raise (PyExc "FileNotFoundError" "")
  end.

(** [open(p)] followed by reading the whole file. *)
Definition read {D : Type} (fs : t D) (p : path) : result D :=
  match lookup fs p with
  | Some (File d) => Ok d
  | Some Dir => Raise (PyExc "IsADirectoryError" "")
  | None => Raise (PyExc "FileNotFoundError" "")
  end.

Definition empty {D : Type} (ord : list string -> list string) : t D :=
  mk [] ord.

(** The listing order is an order: it reports every entry once. *)
Definition lists_all {D : Type} (fs : t D) : Prop :=
  forall l, Permutation (order fs l) l.

(** [has fs p n]: the node at [p] is [n]. *)
Definition has {D : Type} (fs : t D) (p : path) (n : node D) : Prop :=
  In (p, n) (nodes fs).

(** A well-formed filesystem holds one node per path, and none for the
    base directory. *)
Definition wf {D : Type} (fs : t D) : Prop :=
  List.NoDup (map fst (nodes fs)) /\ ~ In [] (map fst (nodes fs)).

End FS.

(* ===================================================================== *)
(** * The model factory *)
(* ===================================================================== *)

Module Models.

(** The classifiers of [embrelpredict.model], as the constructor call that
    builds them. *)
Inductive Model : Type :=
| LogisticRegression (indim : Z)
| NNBiClassifier (indim : Z) (layer_dims : list Z) (dropouts : list Q)
| DummyBiClassifier (indim : Z) (predef : list Q).

Definition unexpected_input_dimension (indim : Z) : exn :=
  PyExc "Exception" ("Unexpected input dimension " +:+ fmt_d indim).

(** The last branch evaluates ['Unknown model name %d' % name] on a string:
    the format itself raises, before [Exception] is built. *)
Definition unknown_model_name : exn :=
  PyExc "TypeError" "%d format: a real number is required, not str".

Definition _build_model (name : string) (indim : Z) : result Model :=
  if String.eqb name "logreg" then
    Ok (LogisticRegression indim)
  else if String.eqb name "nn1" then
    Ok (NNBiClassifier indim [indim] [1 # 2]%Q)
  else if String.eqb name "nn2" then
    if indim =? 600 then
      Ok (NNBiClassifier indim [750; 400] [1 # 2; 1 # 2]%Q)
    else if indim =? 300 then
      Ok (NNBiClassifier indim [400; 150] [1 # 2; 1 # 2]%Q)
    else Raise (unexpected_input_dimension indim)
  else if String.eqb name "nn3" then
    if indim =? 600 then
      Ok (NNBiClassifier indim [750; 500; 250] [1 # 2; 1 # 2; 1 # 2]%Q)
    else if indim =? 300 then
      Ok (NNBiClassifier indim [400; 200; 100] [1 # 2; 1 # 2; 1 # 2]%Q)
    else Raise (unexpected_input_dimension indim)
  else if String.eqb name "alwaysT" then
    Ok (DummyBiClassifier indim [1 # 100; 99 # 100]%Q)
  else if String.eqb name "alwaysF" then
    Ok (DummyBiClassifier indim [99 # 100; 1 # 100]%Q)
  else Raise unknown_model_name.

Definition model_names : list string :=
  ["logreg"; "nn1"; "nn2"; "nn3"; "alwaysT"; "alwaysF"].

End Models.
Export Models.

(* ===================================================================== *)
(** * The relation metadata scanner *)
(* ===================================================================== *)

Module RelsMeta.

(** One row of the metadata table: the keys ['type'], ['name'], ['cnt'] and
    ['file']. *)
Record RelMeta : Type := mkRelMeta {
  rm_type : string;
  rm_name : string;
  rm_cnt : Z;
  rm_file : string
}.

(** The text [int()] is applied to. *)
Definition count_text (f : string) : string :=
  let rel_end := py_find "__" f in
  let ext_start := py_find ".txt" f in
  py_slice f (rel_end + 2) ext_start.

(** The body of the loop of [load_rels_meta]. *)
Definition parse_rel_filename (f : string) : result RelMeta :=
  let prefix_end := py_find "_" f in
  let rel_end := py_find "__" f in
  let ext_start := py_find ".txt" f in
  let rel_type := py_slice f 0 prefix_end in
  let rel_name := py_slice f (prefix_end + 1) rel_end in
  rel_ex_cnt <- py_int (py_slice f (rel_end + 2) ext_start) ;;
  Ok {| rm_type := rel_type; rm_name := rel_name;
        rm_cnt := rel_ex_cnt; rm_file := f |}.

Definition all_digits (s : string) : bool :=
  negb (String.eqb s "") &&
  forallb (fun c => match digit_val c with Some _ => true | None => false end)
    (list_ascii_of_string s).

(** The naming convention in the words of the specification:
    [TYPE_NAME__COUNT.txt], with [TYPE] the text before the first ["_"],
    [NAME] the text between it and the first ["__"], [COUNT] the digits
    between ["__"] and the closing [".txt"].  The scanner does not call
    this; it is what its results are compared against. *)
Definition conventional (f : string) : bool :=
  let len := Z.of_nat (String.length f) in
  let prefix_end := py_find "_" f in
  let rel_end := py_find "__" f in
  let ext_start := py_find ".txt" f in
  (0 <? prefix_end) && (prefix_end <? rel_end) && (ext_start + 4 =? len) &&
  all_digits (py_slice f (rel_end + 2) ext_start).

Definition load_rels_meta {D : Type} (fs : FS.t D) (relpath : FS.path)
  : result (list RelMeta) :=
  names <- FS.listdir fs relpath ;;
  map_result parse_rel_filename
    (List.filter (fun f => FS.isfile fs (FS.osp_join relpath f)) names).

End RelsMeta.
Export RelsMeta.

(* ===================================================================== *)
(** * The experiment orchestrator *)
(* ===================================================================== *)

(** The payloads of a run: the tables ([pandas.DataFrame]) and the metric
    mappings the trainer hands back. *)
Class Payloads : Type := {
  Frame : Type;
  Metrics : Type
}.

(** One trained-model evaluation: the twelve keys of [model_result]. *)
Record RunResult `{Payloads} : Type := mkRunResult {
  r_model : string;
  r_i : Z;
  r_emb : string;
  r_epochs : Z;
  r_pos_exs : Z;
  r_dataset_size : Z;
  r_dataset_tok_cnt : Z;
  r_dataset_tok_found : Z;
  r_trainer_df : Frame;
  r_pretrain_test_result : Metrics;
  r_test_df : Frame;
  r_test_random_result : Metrics
}.

(** The result for one relation.  [pos_exs] is [None] only in a result
    loaded from a directory without runs. *)
Record LearnResult `{Payloads} : Type := mkLearnResult {
  rel_name : string;
  rel_type : string;
  pos_exs : option Z;
  emb_model_results : dict (list RunResult)
}.

(** What identifies a run: model name, embedding source, run index. *)
Definition run_ident `{Payloads} (r : RunResult) : string * string * Z :=
  (r_model r, r_emb r, r_i r).

(** The trainer of [embrelpredict.evalclass] and the tensors it works on.
    Every call acts on the state of the outside world (random generators,
    devices, the trainer's own records) and may raise. *)
Class Collaborators `{Payloads} : Type := {
  World : Type;
  Features : Type;
  shape : Features -> Z * Z;
  Partition : Type;
  Trainer : Type;
  Disturber : Type;
  ModelTrainer : Model -> bool -> World -> result Trainer * World;
  trainer_test : Trainer -> Partition -> World -> result Metrics * World;
  trainer_train : Trainer -> Partition -> Partition -> Z ->
                  option Disturber -> World -> result unit * World;
  trainer_test_df : Trainer -> Partition -> bool -> World ->
                    result Frame * World;
  trainer_test_random : Trainer -> Partition -> World ->
                        result Metrics * World;
  trainer_df : Trainer -> World -> Frame
}.

(** What a loading method returns: [X, Y, ds_n, ds_tc, ds_tf].  The labels
    [Y] are an integer tensor, given by its entries. *)
Definition Dataset `{Collaborators} : Type :=
  (Features * list Z * Z * Z * Z)%type.

(** A data loader object: its four methods. *)
Record DataLoader `{Collaborators} : Type := mkDataLoader {
  generate_random_pair_data : Z -> World -> result Dataset * World;
  load_single_data : FS.path -> World -> result Dataset * World;
  load_pair_data : FS.path -> World -> result Dataset * World;
  split_data : Features -> list Z -> Z -> World ->
               result (Partition * Partition * Partition) * World
}.

(** The calls [learn_rel] makes on its collaborators. *)
Inductive event : Type :=
| EvGenerateRandomPairData (loader_name : string) (target_size : Z)
| EvLoadSingleData (loader_name : string) (fpath : FS.path)
| EvLoadPairData (loader_name : string) (fpath : FS.path)
| EvSplitData (loader_name : string) (seed : Z)
| EvBuildModel (name : string) (indim : Z)
| EvModelTrainer (cuda : bool)
| EvTest
| EvTrain (epochs : Z)
| EvTestDf (debug : bool)
| EvTestRandom.

Definition is_load_event (e : event) : bool :=
  match e with
  | EvGenerateRandomPairData _ _ | EvLoadSingleData _ _ | EvLoadPairData _ _ =>
      true
  | _ => false
  end.

Definition is_build_event (e : event) : bool :=
  match e with EvBuildModel _ _ => true | _ => false end.

(** The loader a loading call was made on, and the model name a factory
    call was made with. *)
Definition ev_loader (e : event) : option string :=
  match e with
  | EvGenerateRandomPairData n _ | EvLoadSingleData n _ | EvLoadPairData n _ =>
      Some n
  | _ => None
  end.

Definition ev_model (e : event) : option string :=
  match e with EvBuildModel n _ => Some n | _ => None end.

Module Run.
Section Monad.
Context `{Collaborators}.

(** The state [learn_rel] runs in: the world, and the trace of the calls
    made so far. *)
Definition state : Type := (World * list event)%type.

Definition M (A : Type) : Type := state -> result A * state.

Definition ret {A : Type} (a : A) : M A := fun s => (Ok a, s).

Definition throw {A : Type} (e : exn) : M A := fun s => (Raise e, s).

Definition mbind {A B : Type} (m : M A) (k : A -> M B) : M B :=
  fun s =>
    match m s with
    | (Ok a, s') => k a s'
    | (Raise e, s') => (Raise e, s')
    end.

(** A call on a collaborator: it is recorded, then acts on the world. *)
Definition call {A : Type} (ev : event) (op : World -> result A * World)
  : M A :=
  fun s =>
    let (r, w') := op (fst s) in (r, (w', snd s ++ [ev])).

(** An internal computation that may raise. *)
Definition lift {A : Type} (r : result A) : M A := fun s => (r, s).

Fixpoint for_each_M {A S : Type} (body : S -> A -> M S) (l : list A) (s : S)
  : M S :=
  match l with
  | [] => ret s
  | x :: l' => mbind (body s x) (for_each_M body l')
  end.

End Monad.
End Run.

Declare Scope run_scope.
Delimit Scope run_scope with run.
Notation "x <~ e ;; k" := (Run.mbind e (fun x => k))
  (at level 100, e at next level, right associativity) : run_scope.

Section LearnRel.
Context `{Collaborators}.
Import Run.
Local Open Scope run_scope.

(** [torch.max(Y)] and [torch.min(Y)]: an empty tensor has neither. *)
Definition torch_max (Y : list Z) : result Z :=
  match Y with
  | [] => Raise (PyExc "RuntimeError" "max(): input tensor is empty")
  | y :: Y' => Ok (fold_left Z.max Y' y)
  end.

Definition torch_min (Y : list Z) : result Z :=
  match Y with
  | [] => Raise (PyExc "RuntimeError" "min(): input tensor is empty")
  | y :: Y' => Ok (fold_left Z.min Y' y)
  end.

Definition binary_msg (mx mn : Z) : string :=
  "Expecting binary classifier but found max " +:+ fmt_d mx +:+
  " min " +:+ fmt_d mn.

(** The [assert] on the labels. *)
Definition assert_binary (mx mn : Z) : result unit :=
  if (mx =? 1) && (mn =? 0) then Ok tt
  else Raise (PyExc "AssertionError" (binary_msg mx mn)).

(** The loading strategy, chosen by the relation type. *)
Definition load_dataset (relpath : FS.path) (rel_meta : RelMeta)
    (single_rel_types : list string)
    (loader_name : string) (data_loader : DataLoader) : M Dataset :=
  let cnt := rm_cnt rel_meta in
  let rel_type := rm_type rel_meta in
  let fpath := FS.osp_join relpath (rm_file rel_meta) in
  if String.eqb rel_type "rnd2rnd" then
    call (EvGenerateRandomPairData loader_name (cnt * 2))
         (generate_random_pair_data data_loader (cnt * 2))
  else if existsb (String.eqb rel_type) single_rel_types then
    call (EvLoadSingleData loader_name fpath)
         (load_single_data data_loader fpath)
  else
    call (EvLoadPairData loader_name fpath)
         (load_pair_data data_loader fpath).

(** [data_loaders[loader_name]]. *)
Definition get_loader (data_loaders : dict DataLoader) (loader_name : string)
  : result DataLoader :=
  match dict_get data_loaders loader_name with
  | Some l => Ok l
  | None => Raise (PyExc "KeyError" loader_name)
  end.

(** The body of the training loop, for one (model, loader, run). *)
Definition learn_run (relpath : FS.path) (rel_meta : RelMeta)
    (data_loaders : dict DataLoader) (single_rel_types : list string)
    (epochs_from_trainset_size_fn : Z -> result Z)
    (train_input_disturber : option Disturber)
    (debug_test_df cuda : bool)
    (emb_model_results : dict (list RunResult))
    (combo : string * string * Z) : M (dict (list RunResult)) :=
  let '(model, loader_name, run) := combo in
  let cnt := rm_cnt rel_meta in
  data_loader <~ lift (get_loader data_loaders loader_name) ;;
  ds <~ load_dataset relpath rel_meta single_rel_types loader_name
          data_loader ;;
  let '(X, Y, ds_n, ds_tc, ds_tf) := ds in
  let indim := snd (shape X) in
  mx <~ lift (torch_max Y) ;;
  mn <~ lift (torch_min Y) ;;
  _ <~ lift (assert_binary mx mn) ;;
  epochs <~ lift (epochs_from_trainset_size_fn (fst (shape X))) ;;
  parts <~ call (EvSplitData loader_name 41) (split_data data_loader X Y 41) ;;
  let '(trainloader, validloader, testloader) := parts in
  my_model <~ call (EvBuildModel model indim)
                (fun w => (_build_model model indim, w)) ;;
  trainer <~ call (EvModelTrainer cuda) (ModelTrainer my_model cuda) ;;
  pretrain_test_result <~ call EvTest (trainer_test trainer testloader) ;;
  _ <~ call (EvTrain epochs)
         (trainer_train trainer trainloader validloader epochs
            train_input_disturber) ;;
  test_df <~ call (EvTestDf debug_test_df)
               (trainer_test_df trainer testloader debug_test_df) ;;
  test_random_result <~ call EvTestRandom
                          (trainer_test_random trainer testloader) ;;
  fun s =>
    let model_result :=
      {| r_model := model; r_i := run; r_emb := loader_name;
         r_epochs := epochs; r_pos_exs := cnt;
         r_dataset_size := ds_n;
         r_dataset_tok_cnt := ds_tc;
         r_dataset_tok_found := ds_tf;
         r_trainer_df := trainer_df trainer (fst s);
         r_pretrain_test_result := pretrain_test_result;
         r_test_df := test_df;
         r_test_random_result := test_random_result |} in
    let model_results := default [] (dict_get emb_model_results loader_name) in
    ret (dict_set emb_model_results loader_name
           (model_results ++ [model_result])) s.

Definition empty_result (rel_meta : RelMeta) : LearnResult :=
  {| rel_name := rm_name rel_meta; rel_type := rm_type rel_meta;
     pos_exs := Some (rm_cnt rel_meta);
     emb_model_results := [] |}.

(** [rel_filter and not rel_filter(rel_meta)]. *)
Definition filtered_out (rel_filter : option (RelMeta -> bool))
    (rel_meta : RelMeta) : bool :=
  match rel_filter with
  | Some f => negb (f rel_meta)
  | None => false
  end.

Definition learn_rel (relpath : FS.path) (rel_meta : RelMeta)
    (data_loaders : dict DataLoader) (single_rel_types : list string)
    (epochs_from_trainset_size_fn : Z -> result Z)
    (rel_filter : option (RelMeta -> bool))
    (models : list string) (n_runs : Z)
    (train_input_disturber : option Disturber)
    (debug_test_df cuda : bool) : M LearnResult :=
  let cnt := rm_cnt rel_meta in
  let rel_name := rm_name rel_meta in
  let rel_type := rm_type rel_meta in
  if cnt <? 75 then ret (empty_result rel_meta)
  else if filtered_out rel_filter rel_meta then ret (empty_result rel_meta)
  else
    emb_model_results <~
      for_each_M
        (learn_run relpath rel_meta data_loaders single_rel_types
           epochs_from_trainset_size_fn train_input_disturber
           debug_test_df cuda)
        (product3 models (dict_keys data_loaders) (py_range n_runs)) [] ;;
    ret {| rel_name := rel_name; rel_type := rel_type;
           pos_exs := Some cnt;
           emb_model_results := emb_model_results |}.

End LearnRel.

(* ===================================================================== *)
(** * The result store and loader *)
(* ===================================================================== *)

(** The scalar keys written to [meta.json]. *)
Record Meta : Type := mkMeta {
  m_model : string;
  m_i : Z;
  m_emb : string;
  m_epochs : Z;
  m_pos_exs : Z;
  m_dataset_size : Z;
  m_dataset_tok_cnt : Z;
  m_dataset_tok_found : Z
}.

(** The file formats, over file contents [D]: [json.dump] / [json.load] on
    the scalars and on a metric mapping, and [DataFrame.to_csv] /
    [pandas.read_csv] with a tab separator and no index column. *)
Class Codec `{Payloads} (D : Type) : Type := {
  json_dump_meta : Meta -> D;
  json_load_meta : D -> result Meta;
  to_csv : Frame -> D;
  read_csv : D -> result Frame;
  json_dump : Metrics -> D;
  json_load : D -> result Metrics
}.

(** What is written is read back unchanged. *)
Class CodecRoundTrip `{Payloads} (D : Type) `{!Codec D} : Prop := {
  meta_round_trip : forall m, json_load_meta (json_dump_meta m) = Ok m;
  csv_round_trip : forall f, read_csv (to_csv f) = Ok f;
  json_round_trip : forall m, json_load (json_dump m) = Ok m
}.

Section Store.
Context `{Payloads} {D : Type} `{!Codec D}.

Definition meta_of (emb_result : RunResult) : Meta :=
  {| m_model := r_model emb_result; m_i := r_i emb_result;
     m_emb := r_emb emb_result; m_epochs := r_epochs emb_result;
     m_pos_exs := r_pos_exs emb_result;
     m_dataset_size := r_dataset_size emb_result;
     m_dataset_tok_cnt := r_dataset_tok_cnt emb_result;
     m_dataset_tok_found := r_dataset_tok_found emb_result |}.

(** ['run_%02d' % i]. *)
Definition run_dir_name (i : Z) : string := "run_" +:+ fmt_02d i.

Definition _store_embrun_result (fs : FS.t D) (emb_dir : FS.path)
    (emb_result : RunResult) : result (FS.t D) :=
  let odir := FS.osp_join (FS.osp_join emb_dir (r_model emb_result))
                (run_dir_name (r_i emb_result)) in
  fs <- (if FS.exists_ fs odir then Ok fs else FS.makedirs fs odir) ;;
  let meta := meta_of emb_result in
  fs <- FS.write fs (FS.osp_join odir "meta.json") (json_dump_meta meta) ;;
  fs <- FS.write fs (FS.osp_join odir "train.tsv")
          (to_csv (r_trainer_df emb_result)) ;;
  fs <- FS.write fs (FS.osp_join odir "test.tsv")
          (to_csv (r_test_df emb_result)) ;;
  fs <- FS.write fs (FS.osp_join odir "pretrain-test.json")
          (json_dump (r_pretrain_test_result emb_result)) ;;
  FS.write fs (FS.osp_join odir "randomvec-test.json")
    (json_dump (r_test_random_result emb_result)).

Definition store_learn_result (fs : FS.t D) (dir_path : FS.path)
    (learn_result : LearnResult) : result (FS.t D) :=
  let rel_path := FS.osp_join (FS.osp_join dir_path (rel_type learn_result))
                    (rel_name learn_result) in
  for_each
    (fun fs emb =>
       let emb_path := FS.osp_join rel_path emb in
       for_each (fun fs emb_result =>
                   _store_embrun_result fs emb_path emb_result)
         (default [] (dict_get (emb_model_results learn_result) emb)) fs)
    (dict_keys (emb_model_results learn_result)) fs.

Definition _load_embrun_result (fs : FS.t D) (emb_dir : FS.path)
  : result RunResult :=
  meta <- (d <- FS.read fs (FS.osp_join emb_dir "meta.json") ;;
           json_load_meta d) ;;
  trainer_df <- (d <- FS.read fs (FS.osp_join emb_dir "train.tsv") ;;
                 read_csv d) ;;
  test_df <- (d <- FS.read fs (FS.osp_join emb_dir "test.tsv") ;;
              read_csv d) ;;
  pretrain <- (d <- FS.read fs (FS.osp_join emb_dir "pretrain-test.json") ;;
               json_load d) ;;
  random <- (d <- FS.read fs (FS.osp_join emb_dir "randomvec-test.json") ;;
             json_load d) ;;
  Ok {| r_model := m_model meta; r_i := m_i meta; r_emb := m_emb meta;
        r_epochs := m_epochs meta; r_pos_exs := m_pos_exs meta;
        r_dataset_size := m_dataset_size meta;
        r_dataset_tok_cnt := m_dataset_tok_cnt meta;
        r_dataset_tok_found := m_dataset_tok_found meta;
        r_trainer_df := trainer_df;
        r_pretrain_test_result := pretrain;
        r_test_df := test_df;
        r_test_random_result := random |}.

(** [os.listdir(d)] restricted to the sub-directories. *)
Definition list_subdirs (fs : FS.t D) (d : FS.path) : result (list string) :=
  names <- FS.listdir fs d ;;
  Ok (List.filter (fun n => FS.isdir fs (FS.osp_join d n)) names).

(** [not pos_exs]: true for [None] and for the integer 0. *)
Definition not_ (pos_exs : option Z) : bool :=
  match pos_exs with
  | None => true
  | Some z => z =? 0
  end.

(** The loop over the run directories of one model directory; the state is
    [emb_model_res] and [pos_exs]. *)
Definition load_runs (fs : FS.t D) (embmodel_dir : FS.path)
    (runs : list string) (st : list RunResult * option Z)
  : result (list RunResult * option Z) :=
  for_each
    (fun st run =>
       embrun_res <- _load_embrun_result fs (FS.osp_join embmodel_dir run) ;;
       let emb_model_res := fst st ++ [embrun_res] in
       let pos_exs :=
         if not_ (snd st) then Some (r_pos_exs embrun_res) else snd st in
       Ok (emb_model_res, pos_exs))
    runs st.

(** The loop over the model directories of one embedding directory. *)
Definition load_models (fs : FS.t D) (emb_dir : FS.path)
    (models : list string) (st : list RunResult * option Z)
  : result (list RunResult * option Z) :=
  for_each
    (fun st model =>
       let embmodel_dir := FS.osp_join emb_dir model in
       runs <- list_subdirs fs embmodel_dir ;;
       load_runs fs embmodel_dir runs st)
    models st.

Definition load_learn_result (fs : FS.t D) (dir_path : FS.path)
    (rel_type rel_name : string) : result LearnResult :=
  let rel_dir := FS.osp_join (FS.osp_join dir_path rel_type) rel_name in
  embs <- list_subdirs fs rel_dir ;;
  st <- for_each
          (fun st emb =>
             let emb_dir := FS.osp_join rel_dir emb in
             models <- list_subdirs fs emb_dir ;;
             st' <- load_models fs emb_dir models ([], snd st) ;;
             Ok (dict_set (fst st) emb (fst st'), snd st'))
          embs ([], None) ;;
  Ok {| rel_name := rel_name; rel_type := rel_type;
        pos_exs := snd st; emb_model_results := fst st |}.


End Store.

(* ===================================================================== *)
(** * The stored directory tree, described *)
(* ===================================================================== *)

Section StoreSpec.
Context `{Payloads} {D : Type} `{!Codec D}.

(** A run directory is named by embedding source, model and run folder. *)
Definition slot : Type := (string * string * string)%type.

Definition slot_of (emb : string) (r : RunResult) : slot :=
  (emb, r_model r, run_dir_name (r_i r)).

Definition path_of (rel : FS.path) (sl : slot) : FS.path :=
  rel ++ [fst (fst sl); snd (fst sl); snd sl].

(** The five files of a run directory. *)
Definition files_of (r : RunResult) : list (string * D) :=
  [("meta.json", json_dump_meta (meta_of r));
   ("train.tsv", to_csv (r_trainer_df r));
   ("test.tsv", to_csv (r_test_df r));
   ("pretrain-test.json", json_dump (r_pretrain_test_result r));
   ("randomvec-test.json", json_dump (r_test_random_result r))].

(** What a relation directory holds: the run last stored in each slot. *)
Definition content : Type := slot -> option RunResult.

Definition no_content : content := fun _ => None.

Definition upd (c : content) (sl : slot) (r : RunResult) : content :=
  fun sl' => if decide (sl' = sl) then Some r else c sl'.

(** The content after storing the runs [runs] under [emb], and after
    storing a whole mapping. *)
Definition store_runs (c : content) (emb : string) (runs : list RunResult)
  : content :=
  fold_left (fun c r => upd c (slot_of emb r) r) runs c.

Definition store_all (c : content) (emr : dict (list RunResult)) : content :=
  fold_left (fun c emb => store_runs c emb (default [] (dict_get emr emb)))
    (dict_keys emr) c.

(** Every stored run sits in its own slot, under plain names. *)
Definition good_content (c : content) : Prop :=
  forall sl r, c sl = Some r ->
    exists emb, sl = slot_of emb r /\ FS.plain_name emb /\
                FS.plain_name (r_model r).

(** The nodes a content stands for: the directories down to each run
    directory, and the five files in it. *)
Definition described (rel : FS.path) (c : content) (q : FS.path)
    (m : FS.node D) : Prop :=
  (m = FS.Dir /\ q <> [] /\
   exists sl r, c sl = Some r /\ exists t, path_of rel sl = q ++ t) \/
  (exists sl r f d, c sl = Some r /\ In (f, d) (files_of r) /\
                    q = path_of rel sl ++ [f] /\ m = FS.File d).

(** The filesystem holds exactly the tree of the content. *)
Definition Rep (rel : FS.path) (fs : FS.t D) (c : content) : Prop :=
  FS.wf fs /\ good_content c /\
  forall q m, FS.has fs q m <-> described rel c q m.

(** The five writes of [_store_embrun_result], as a loop. *)
Definition write_files (fs : FS.t D) (dir : FS.path)
    (files : list (string * D)) : result (FS.t D) :=
  for_each (fun fs fd => FS.write fs (dir ++ [fst fd]) (snd fd)) files fs.

(** [pos_exs] after the runs with counts [l], starting from [pos]. *)
Definition first_pos (pos : option Z) (l : list Z) : option Z :=
  fold_left (fun pos z => if not_ pos then Some z else pos) l pos.

(** The invariant of a result: every run sits under its own embedding
    source. *)
Definition keyed (emr : dict (list RunResult)) : Prop :=
  forall emb runs r, dict_get emr emb = Some runs -> In r runs ->
                     r_emb r = emb.

(** Two mappings hold the same runs under the same keys, up to the order
    of the runs. *)
Definition same_runs (emr emr' : dict (list RunResult)) : Prop :=
  forall emb,
    match dict_get emr emb, dict_get emr' emb with
    | Some l, Some l' => Permutation l l'
    | None, None => True
    | _, _ => False
    end.

Definition stored_keys (emr : dict (list RunResult)) (keys : list string)
    (c : content) : content :=
  fold_left (fun c emb => store_runs c emb (default [] (dict_get emr emb)))
    keys c.

Definition comps (sl : slot) : list string :=
  [fst (fst sl); snd (fst sl); snd sl].

(** What is loaded for one embedding directory. *)
Definition emb_loaded (fs : FS.t D) (rel_dir : FS.path) (emb : string)
    (rs : list RunResult) : Prop :=
  exists models rss,
    list_subdirs fs (FS.osp_join rel_dir emb) = Ok models /\
    Forall2
      (fun m rs => exists runs,
         list_subdirs fs (FS.osp_join (FS.osp_join rel_dir emb) m) = Ok runs /\
         Forall2 (fun d r =>
                    _load_embrun_result fs
                      (FS.osp_join (FS.osp_join (FS.osp_join rel_dir emb) m) d)
                    = Ok r) runs rs)
      models rss /\
    rs = concat rss.

(** The folder names a run is stored under, below its embedding. *)
Definition folders (r : RunResult) : string * string :=
  (r_model r, run_dir_name (r_i r)).

(** The runs stored under one embedding, in terms of the content. *)
Definition emb_stored (c : content) (emb : string) (rs : list RunResult)
  : Prop :=
  List.NoDup rs /\
  forall r, In r rs <-> exists m d, c (emb, m, d) = Some r.

(** Storing a result into an empty filesystem and loading it again. *)
Definition reloads (ord : list string -> list string) (dir_path : FS.path)
    (res res' : LearnResult) : Prop :=
  exists fs',
    store_learn_result (FS.empty ord) dir_path res = Ok fs' /\
    load_learn_result fs' dir_path (rel_type res) (rel_name res) = Ok res'.

End StoreSpec.

(** ** What [learn_rel] records *)

Definition combo_loader (c : string * string * Z) : string := snd (fst c).
Definition combo_model (c : string * string * Z) : string := fst (fst c).

Section LearnRelSpec.
Context `{Collaborators}.
Variables (rel_meta : RelMeta) (data_loaders : dict DataLoader).

(** What it means that every combination was visited in the nested order
    and recorded once: the calls on loaders and on the model factory follow
    the product of models, loaders and run indices (model outermost, run
    innermost), and the list under each loader holds one run per model and
    run index, in that order. *)
Definition every_combination_recorded (models : list string) (n_runs : Z)
    (trace_before trace_after : list event) (res : LearnResult) : Prop :=
  let combos := product3 models (dict_keys data_loaders) (py_range n_runs) in
  (exists tr, trace_after = trace_before ++ tr /\
              omap ev_model tr = map combo_model combos /\
              omap ev_loader tr = map combo_loader combos) /\
  (forall ln, In ln (dict_keys data_loaders) ->
     map run_ident (default [] (dict_get (emb_model_results res) ln)) =
     flat_map (fun m => map (fun i => (m, ln, i)) (py_range n_runs)) models) /\
  (forall ln, ~ In ln (dict_keys data_loaders) ->
     dict_get (emb_model_results res) ln = None) /\
  (dict_keys data_loaders = ["glove"] -> models = ["logreg"] -> n_runs = 2 ->
   exists r0 r1,
     dict_get (emb_model_results res) "glove" = Some [r0; r1] /\
     run_ident r0 = ("logreg", "glove", 0) /\
     run_ident r1 = ("logreg", "glove", 1)).

(** What every result of [learn_rel] looks like. *)
Definition well_shaped (models : list string) (n_runs : Z)
    (res : LearnResult) : Prop :=
  rel_name res = rm_name rel_meta /\ rel_type res = rm_type rel_meta /\
  pos_exs res = Some (rm_cnt rel_meta) /\
  List.NoDup (dict_keys (emb_model_results res)) /\
  forall emb runs, dict_get (emb_model_results res) emb = Some runs ->
    runs <> [] /\ In emb (dict_keys data_loaders) /\
    (List.NoDup (dict_keys data_loaders) -> List.NoDup models ->
     List.NoDup (map run_ident runs)) /\
    forall r, In r runs ->
      r_emb r = emb /\ In (r_model r) model_names /\
      r_pos_exs r = rm_cnt rel_meta.

End LearnRelSpec.

(** ** The calls of one iteration *)

Section LearnRelProtocol.
Context `{Collaborators}.
Variables (relpath : FS.path) (rel_meta : RelMeta).
Variable single_rel_types : list string.
Variable epochs_fn : Z -> result Z.
Variables debug_test_df cuda : bool.

(** The loading call the relation type selects on the loader
    [loader_name]: random pairs of twice the count for [rnd2rnd], whatever
    [single_rel_types] says; the single-word reader for the types listed
    there; the pair reader for every other type. *)
Definition load_call_of (loader_name : string) (ev : event) : Prop :=
  (rm_type rel_meta = "rnd2rnd" /\
   ev = EvGenerateRandomPairData loader_name (rm_cnt rel_meta * 2)) \/
  (rm_type rel_meta <> "rnd2rnd" /\
   In (rm_type rel_meta) single_rel_types /\
   ev = EvLoadSingleData loader_name
          (FS.osp_join relpath (rm_file rel_meta))) \/
  (rm_type rel_meta <> "rnd2rnd" /\
   ~ In (rm_type rel_meta) single_rel_types /\
   ev = EvLoadPairData loader_name
          (FS.osp_join relpath (rm_file rel_meta))).

(** One iteration that ends normally: the run it records and the calls
    it makes, in order. *)
Definition iteration (combo : string * string * Z)
    (it : RunResult * list event) : Prop :=
  let r := fst it in
  exists load indim rows epochs,
    load_call_of (combo_loader combo) load /\
    epochs_fn rows = Ok epochs /\
    is_ok (_build_model (combo_model combo) indim) = true /\
    snd it = [load; EvSplitData (combo_loader combo) 41;
              EvBuildModel (combo_model combo) indim; EvModelTrainer cuda;
              EvTest; EvTrain epochs; EvTestDf debug_test_df;
              EvTestRandom] /\
    run_ident r = combo /\ r_epochs r = epochs /\
    r_pos_exs r = rm_cnt rel_meta.

End LearnRelProtocol.

(** The naming convention of the relation files, as the documentation of
    [load_rels_meta] gives it: [reltype_relname__excnt.txt]. *)
Module RelsNames.

Definition rel_file_name (rel_type rel_name : string) (cnt : Z) : string :=
  rel_type +:+ "_" +:+ rel_name +:+ "__" +:+ fmt_d cnt +:+ ".txt".

(** Text without the separators of the convention. *)
Definition separator_free (s : string) : Prop :=
  forall c, In c (list_ascii_of_string s) -> c <> "_"%char /\ c <> "."%char.

Definition conventional_row (r : RelMeta) : Prop :=
  separator_free (rm_type r) /\ separator_free (rm_name r) /\
  rm_name r <> "" /\ 0 <= rm_cnt r /\
  rm_file r = rel_file_name (rm_type r) (rm_name r) (rm_cnt r).

(** The characters of a decimal numeral. *)
Definition digit_chars : list ascii :=
  ["0"; "1"; "2"; "3"; "4"; "5"; "6"; "7"; "8"; "9"]%char.

End RelsNames.

(* ===================================================================== *)
(** * A concrete setting: one loader, toy payloads *)
(* ===================================================================== *)

Module Demo.

Definition payloads : Payloads :=
  {| Frame := list (list Z); Metrics := list (string * Z) |}.

(** The world is a counter, so that two evaluations never report the same
    numbers. *)
Definition collaborators : @Collaborators payloads :=
  {| World := nat;
     Features := Z * Z;
     shape := fun X => X;
     Partition := unit;
     Trainer := Model;
     Disturber := unit;
     ModelTrainer := fun m _ w => (Ok m, w);
     trainer_test := fun _ _ w =>
       (Ok ([("acc", Z.of_nat w)] : @Metrics payloads), S w);
     trainer_train := fun _ _ _ _ _ w => (Ok tt, S w);
     trainer_test_df := fun _ _ _ w =>
       (Ok ([[0; 1]; [1; 1]] : @Frame payloads), w);
     trainer_test_random := fun _ _ w =>
       (Ok ([("acc", Z.of_nat w)] : @Metrics payloads), S w);
     trainer_df := fun _ w => ([[Z.of_nat w]] : @Frame payloads) |}.

Definition dataset_of (X : Z * Z) (labels : list Z) (n tc tf : Z)
  : @Dataset payloads collaborators := (X, labels, n, tc, tf).

Definition loader_with (labels : list Z) : @DataLoader payloads collaborators :=
  @mkDataLoader payloads collaborators
    (fun n w => (Ok (dataset_of (n, 300) labels n (2 * n) (2 * n)), w))
    (fun _ w => (Ok (dataset_of (100, 300) labels 100 100 90), w))
    (fun _ w => (Ok (dataset_of (200, 600) labels 200 400 390), w))
    (fun _ _ _ w => (Ok (tt, tt, tt), w)).

Definition glove : @DataLoader payloads collaborators :=
  loader_with [0; 1; 1; 0].

Definition mislabelled : @DataLoader payloads collaborators :=
  loader_with [0; 1; 2].

Definition rel (cnt : Z) : RelMeta :=
  {| rm_type := "noun"; rm_name := "plural"; rm_cnt := cnt;
     rm_file := "noun_plural__" +:+ fmt_d cnt +:+ ".txt" |}.

(** [learn_rel] with the default heuristic and no filter, disturber,
    debugging or GPU. *)
Definition learn (rel_meta : RelMeta)
    (data_loaders : dict (@DataLoader payloads collaborators))
    (models : list string) (n_runs : Z)
  : result (@LearnResult payloads) * (nat * list event) :=
  @learn_rel payloads collaborators ["rels"] rel_meta data_loaders []
    Epochs._epochs_from_trainset_size None models n_runs None false false
    (0%nat, []).

(** File contents that are the written value itself. *)
Definition data : Type :=
  (Meta + (@Frame payloads + @Metrics payloads))%type.

Definition wrong_format {A : Type} : result A :=
  Raise (PyExc "ValueError" "unexpected file format").

Definition codec : @Codec payloads data :=
  {| json_dump_meta := fun m => inl m;
     json_load_meta := fun d =>
       match d with inl m => Ok m | _ => wrong_format end;
     to_csv := fun f => inr (inl f);
     read_csv := fun d =>
       match d with inr (inl f) => Ok f | _ => wrong_format end;
     json_dump := fun m => inr (inr m);
     json_load := fun d =>
       match d with inr (inr m) => Ok m | _ => wrong_format end |}.

Definition listing_order : list string -> list string := fun l => l.

(** A hand-made result whose first run records no positive example. *)
Definition run_with (i pos : Z) : @RunResult payloads :=
  @mkRunResult payloads "logreg" i "glove" 3 pos 200 400 390
    [[1; 2]] [("acc", 1)] [[0; 1]] [("acc", 0)].

Definition zero_then_five : @LearnResult payloads :=
  @mkLearnResult payloads "plural" "noun" (Some 0)
    [("glove", [run_with 0 0; run_with 1 5])].

(** A folder of relation files with a stray [readme.md]. *)
Definition rels_with_readme : FS.t unit :=
  FS.mk [(["rels"], FS.Dir);
         (["rels"; "noun_plural__120.txt"], FS.File tt);
         (["rels"; "readme.md"], FS.File tt);
         (["rels"; "old"], FS.Dir)] listing_order.

(** A folder whose one file lost its extension. *)
Definition rels_without_extension : FS.t unit :=
  FS.mk [(["rels"], FS.Dir);
         (["rels"; "noun_plural__120"], FS.File tt)] listing_order.

End Demo.

(** A second stored result for the relation of [Demo.zero_then_five]. *)
Module DemoStore.

Definition later_run : @LearnResult Demo.payloads :=
  @mkLearnResult Demo.payloads "plural" "noun" (Some 5)
    [("glove", [Demo.run_with 2 5])].

(** A folder of relation files that follow the convention, with a
    sub-directory. *)
Definition rels_clean : FS.t unit :=
  FS.mk [(["rels"], FS.Dir);
         (["rels"; "noun_plural__120.txt"], FS.File tt);
         (["rels"; "old"], FS.Dir);
         (["rels"; "verb_past__80.txt"], FS.File tt)] Demo.listing_order.

End DemoStore.

(** A directory that already holds another relation's folder. *)
Module DemoTree.

Definition other_relation : FS.t Demo.data :=
  FS.mk [(["out"], FS.Dir); (["out"; "verb"], FS.Dir);
         (["out"; "verb"; "past"], FS.Dir)] Demo.listing_order.

End DemoTree.

(* ===================================================================== *)
(** * Properties of the model factory *)
(* ===================================================================== *)

Module ModelsFacts.

Lemma build_model_unknown (name : string) (indim : Z) :
  ~ In name model_names ->
  _build_model name indim = Raise unknown_model_name.
Proof.
  intros Hn. unfold _build_model.
  repeat match goal with
  | |- context [String.eqb name ?s] =>
      destruct (String.eqb_spec name s) as [->|_];
      [exfalso; apply Hn; unfold model_names; simpl; tauto|]
  end.
  reflexivity.
Qed.

Lemma build_model_bad_dim (name : string) (indim : Z) :
  name = "nn2" \/ name = "nn3" -> indim <> 300 -> indim <> 600 ->
  _build_model name indim = Raise (unexpected_input_dimension indim).
Proof.
  intros Hn H3 H6. unfold _build_model.
  destruct (Z.eqb_spec indim 600) as [|_]; [contradiction|].
  destruct (Z.eqb_spec indim 300) as [|_]; [contradiction|].
  destruct Hn as [-> | ->]; reflexivity.
Qed.

Lemma build_model_ok_inv (name : string) (indim : Z) (m : Model) :
  _build_model name indim = Ok m ->
  In name model_names /\
  (name = "nn2" \/ name = "nn3" -> indim = 300 \/ indim = 600).
Proof.
  intros Hok. split.
  - destruct (In_dec string_dec name model_names) as [|Hn]; [assumption|].
    rewrite (build_model_unknown name indim Hn) in Hok. discriminate.
  - intros Hn.
    destruct (Z.eq_dec indim 300) as [|H3]; [tauto|].
    destruct (Z.eq_dec indim 600) as [|H6]; [tauto|].
    rewrite (build_model_bad_dim name indim Hn H3 H6) in Hok. discriminate.
Qed.

(** C9.  A model name outside the six known ones, or [nn2] / [nn3] with an
    input dimension other than 300 and 600, makes [_build_model] raise: the
    unknown name ends in the [TypeError] of its own message format, the bad
    dimension in [Exception('Unexpected input dimension ...')].  A model is
    returned only for a known name with a supported dimension, so nothing
    is ever defaulted. *)
Theorem build_model_fails_loudly (name : string) (indim : Z) :
  ~ In name model_names \/
  ((name = "nn2" \/ name = "nn3") /\ indim <> 300 /\ indim <> 600) ->
  (exists e, _build_model name indim = Raise e /\
     (~ In name model_names -> e = unknown_model_name) /\
     (In name model_names -> e = unexpected_input_dimension indim)) /\
  (forall m, _build_model name indim <> Ok m).
Proof.
  intros Hbad.
  assert (Hr : exists e, _build_model name indim = Raise e /\
     (~ In name model_names -> e = unknown_model_name) /\
     (In name model_names -> e = unexpected_input_dimension indim)).
  { destruct (In_dec string_dec name model_names) as [Hin|Hn].
    - destruct Hbad as [Hn | (Hnn & H3 & H6)]; [contradiction|].
      exists (unexpected_input_dimension indim). split; [|split].
      + apply build_model_bad_dim; assumption.
      + intros Hn; contradiction.
      + reflexivity.
    - exists unknown_model_name. split; [|split].
      + apply build_model_unknown; assumption.
      + reflexivity.
      + intros Hin; contradiction. }
  split; [exact Hr|].
  intros m Hm. destruct Hr as (e & He & _). congruence.
Qed.

Lemma build_model_fails_loudly_witness :
  (exists e, _build_model "resnet" 300 = Raise e /\
     (~ In "resnet" model_names -> e = unknown_model_name) /\
     (In "resnet" model_names -> e = unexpected_input_dimension 300)) /\
  (forall m, _build_model "resnet" 300 <> Ok m).
Proof.
  apply (build_model_fails_loudly "resnet" 300).
  left. unfold model_names. simpl. intros H.
  repeat (destruct H as [H|H]; [discriminate H|]). exact H.
Defined.

End ModelsFacts.

(* ===================================================================== *)
(** * Properties of the epoch heuristic *)
(* ===================================================================== *)

Module EpochsFacts.
Import Epochs.

Lemma py_round_bounds (x : Q) :
  Qfloor x <= py_round x <= Qfloor x + 1.
Proof.
  unfold py_round.
  destruct (Qcompare _ _); [destruct (Z.even _)| |]; lia.
Qed.

(** Rounding is monotone. *)
Lemma py_round_mono (x y : Q) : (x <= y)%Q -> py_round x <= py_round y.
Proof.
  intros Hxy.
  pose proof (Qfloor_resp_le x y Hxy) as Hf.
  destruct (Z.eq_dec (Qfloor x) (Qfloor y)) as [Heq|Hne].
  - unfold py_round. rewrite <- Heq.
    destruct (Qcompare (x - inject_Z (Qfloor x)) (1 # 2)) eqn:Cx;
      destruct (Qcompare (y - inject_Z (Qfloor x)) (1 # 2)) eqn:Cy;
      try (destruct (Z.even (Qfloor x)); lia); try lia; exfalso.
    + apply Qeq_alt in Cx. apply Qlt_alt in Cy. lra.
    + apply Qgt_alt in Cx. apply Qeq_alt in Cy. lra.
    + apply Qgt_alt in Cx. apply Qlt_alt in Cy. lra.
  - pose proof (py_round_bounds x). pose proof (py_round_bounds y). lia.
Qed.

Lemma epochs_of_order_mono (k k' : Z) :
  k <= k' -> epochs_of_order k' <= epochs_of_order k.
Proof.
  intros Hk. unfold epochs_of_order. apply py_round_mono.
  apply Qmult_le_compat_r; [|discriminate].
  apply Qpower_le_compat_l; [lia|discriminate].
Qed.

Lemma epochs_of_order_nonneg (k : Z) : 0 <= epochs_of_order k.
Proof.
  unfold epochs_of_order.
  change 0 with (py_round 0). apply py_round_mono.
  apply Qmult_le_0_compat; [|discriminate].
  apply Qpower_0_le. discriminate.
Qed.

Lemma epochs_of_order_pos (k : Z) : k <= 7 -> 0 < epochs_of_order k.
Proof.
  intros Hk. pose proof (epochs_of_order_mono k 7 Hk) as H.
  change (epochs_of_order 7) with 1 in H. lia.
Qed.

Lemma epochs_of_order_zero (k : Z) : 8 <= k -> epochs_of_order k = 0.
Proof.
  intros Hk. pose proof (epochs_of_order_mono 8 k Hk) as H.
  change (epochs_of_order 8) with 0 in H.
  pose proof (epochs_of_order_nonneg k). lia.
Qed.

(** What [bounds_below] counts, once the fuel reaches past [m]. *)
Lemma bounds_below_spec (fuel : nat) :
  forall b m, 0 < b -> m <= b * 100 ^ Z.of_nat fuel ->
  let c := bounds_below fuel b m in
  0 <= c /\ m <= b * 100 ^ c /\ (0 < c -> b * 100 ^ (c - 1) < m).
Proof.
  induction fuel as [|fuel IH]; intros b m Hb Hm; simpl bounds_below.
  - simpl in Hm. cbv zeta. split; [lia|]. split; [simpl; lia | lia].
  - destruct (Z.ltb_spec b m) as [Hlt|Hge].
    + assert (Hm' : m <= 100 * b * 100 ^ Z.of_nat fuel).
      { rewrite Nat2Z.inj_succ, Z.pow_succ_r in Hm by lia. lia. }
      specialize (IH (100 * b) m ltac:(lia) Hm').
      cbv zeta in IH. destruct IH as (Hc & Hup & Hlo).
      set (c := bounds_below fuel (100 * b) m) in *.
      cbv zeta. split; [lia|]. split.
      * replace (1 + c) with (Z.succ c) by lia.
        rewrite Z.pow_succ_r by lia. lia.
      * intros _. replace (1 + c - 1) with c by lia.
        destruct (Z.eq_dec c 0) as [->|Hc0]; [simpl; lia|].
        specialize (Hlo ltac:(lia)).
        replace c with (Z.succ (c - 1)) by lia.
        rewrite Z.pow_succ_r by lia. lia.
    + cbv zeta. split; [lia|]. split; [simpl; lia | lia].
Qed.

Lemma fuel_suffices (n : Z) :
  0 < n -> n * n <= 40 * 100 ^ Z.of_nat (S (Z.to_nat (Z.log2 n))).
Proof.
  intros Hn.
  pose proof (Z.log2_nonneg n) as Hl.
  pose proof (Z.log2_spec n Hn) as [_ Hhi].
  rewrite Nat2Z.inj_succ, Z2Nat.id by lia.
  set (l := Z.succ (Z.log2 n)) in *.
  assert (H2 : 2 ^ l * 2 ^ l <= 100 ^ l).
  { rewrite <- Z.pow_mul_l. apply Z.pow_le_mono_l. lia. }
  assert (0 < 2 ^ l) by (apply Z.pow_pos_nonneg; lia).
  nia.
Qed.

Lemma round_log10_spec (n : Z) :
  0 < n -> in_half_decade n (round_log10_half_minus1 n + 1).
Proof.
  intros Hn. unfold round_log10_half_minus1, in_half_decade.
  replace (bounds_below (S (Z.to_nat (Z.log2 n))) 40 (n * n) - 1 + 1)
    with (bounds_below (S (Z.to_nat (Z.log2 n))) 40 (n * n)) by lia.
  apply (bounds_below_spec _ 40 (n * n)); [lia|].
  apply fuel_suffices; assumption.
Qed.

Lemma in_half_decade_unique (n c c' : Z) :
  in_half_decade n c -> in_half_decade n c' -> c = c'.
Proof.
  assert (Hlt : forall a b, in_half_decade n a -> in_half_decade n b ->
                            ~ a < b).
  { intros a b (Ha & Haup & _) (Hb & _ & Hblo) Hab.
    specialize (Hblo ltac:(lia)).
    assert (100 ^ a <= 100 ^ (b - 1)) by (apply Z.pow_le_mono_r; lia).
    lia. }
  intros H1 H2.
  pose proof (Hlt c c' H1 H2). pose proof (Hlt c' c H2 H1). lia.
Qed.

(** Ten times the size is one order more. *)
Lemma round_log10_times_ten (n : Z) :
  0 < n ->
  round_log10_half_minus1 (10 * n) = round_log10_half_minus1 n + 1.
Proof.
  intros Hn.
  pose proof (round_log10_spec n Hn) as (Hc & Hup & Hlo).
  pose proof (round_log10_spec (10 * n) ltac:(lia)) as H10.
  set (c := round_log10_half_minus1 n + 1) in *.
  assert (H : in_half_decade (10 * n) (c + 1)).
  { unfold in_half_decade. split; [lia|]. split.
    - replace (c + 1) with (Z.succ c) by lia.
      rewrite Z.pow_succ_r by lia. lia.
    - intros _. replace (c + 1 - 1) with c by lia.
      destruct (Z.eq_dec c 0) as [->|Hc0]; [simpl; nia|].
      specialize (Hlo ltac:(lia)).
      replace c with (Z.succ (c - 1)) by lia.
      rewrite Z.pow_succ_r by lia. lia. }
  pose proof (in_half_decade_unique _ _ _ H10 H). lia.
Qed.

(** The order stays at 7 or below exactly up to 632455532 examples. *)
Lemma round_log10_le_7 (n : Z) :
  0 < n -> (round_log10_half_minus1 n <= 7 <-> n <= 632455532).
Proof.
  intros Hn.
  pose proof (round_log10_spec n Hn) as (Hc & Hup & Hlo).
  set (c := round_log10_half_minus1 n + 1) in *.
  replace (round_log10_half_minus1 n) with (c - 1) by (unfold c; lia).
  split.
  - intros Hle.
    assert (100 ^ c <= 100 ^ 8) by (apply Z.pow_le_mono_r; lia).
    change (100 ^ 8) with 10000000000000000 in *. nia.
  - intros Hle.
    destruct (Z_le_gt_dec c 8) as [|Hgt]; [lia|].
    specialize (Hlo ltac:(lia)).
    assert (100 ^ 8 <= 100 ^ (c - 1)) by (apply Z.pow_le_mono_r; lia).
    change (100 ^ 8) with 10000000000000000 in *. nia.
Qed.

Lemma pow_1024_below_bound : 2 ^ 1024 < float_overflow_bound.
Proof. vm_compute. reflexivity. Qed.

Lemma epochs_unfold (n : Z) :
  0 < n -> n < float_overflow_bound ->
  _epochs_from_trainset_size n =
  Ok (epochs_of_order (round_log10_half_minus1 n)).
Proof.
  intros Hn Hb. unfold _epochs_from_trainset_size.
  rewrite (Z.abs_eq n) by lia.
  destruct (Z.leb_spec float_overflow_bound n); [lia|].
  destruct (Z.leb_spec n 0); [lia|]. reflexivity.
Qed.

Lemma epochs_overflow (n : Z) :
  float_overflow_bound <= Z.abs n ->
  _epochs_from_trainset_size n = Raise overflow_error.
Proof.
  intros Hb. unfold _epochs_from_trainset_size.
  destruct (Z.leb_spec float_overflow_bound (Z.abs n)); [reflexivity | lia].
Qed.

(** C3, as the code has it.  A size [n > 0] from [2^1025 - 2^971] on
    cannot be halved into a float and the call raises [OverflowError].
    Below that bound the heuristic returns a non-negative integer; the
    result is positive exactly up to [n = 632455532] and is 0 from there
    on; and ten times the size, when it is below the bound too, never
    gets a larger result than the size itself (beyond the bound it
    raises). *)
Theorem epochs_nonneg_and_decaying (n : Z) :
  0 < n ->
  (float_overflow_bound <= n ->
   _epochs_from_trainset_size n = Raise overflow_error) /\
  (n < float_overflow_bound ->
   exists e,
     _epochs_from_trainset_size n = Ok e /\
     0 <= e /\ (0 < e <-> n <= 632455532) /\
     (10 * n < float_overflow_bound ->
      exists e10, _epochs_from_trainset_size (10 * n) = Ok e10 /\ e10 <= e) /\
     (float_overflow_bound <= 10 * n ->
      _epochs_from_trainset_size (10 * n) = Raise overflow_error)).
Proof.
  intros Hn. split.
  { intros Hb. apply epochs_overflow. rewrite Z.abs_eq; lia. }
  intros Hb.
  exists (epochs_of_order (round_log10_half_minus1 n)).
  split; [apply epochs_unfold; assumption|].
  split; [apply epochs_of_order_nonneg|].
  split; [|split].
  - rewrite <- (round_log10_le_7 n Hn). split.
    + intros Hpos.
      destruct (Z_le_gt_dec (round_log10_half_minus1 n) 7) as [|Hgt];
        [assumption|].
      rewrite epochs_of_order_zero in Hpos by lia. lia.
    + apply epochs_of_order_pos.
  - intros Hb10.
    exists (epochs_of_order (round_log10_half_minus1 (10 * n))).
    split; [apply epochs_unfold; [lia | exact Hb10]|].
    rewrite round_log10_times_ten by assumption.
    apply epochs_of_order_mono. lia.
  - intros Hb10. apply epochs_overflow. rewrite Z.abs_eq; lia.
Qed.

Lemma epochs_nonneg_and_decaying_witness :
  exists e e10,
    _epochs_from_trainset_size 1000 = Ok e /\
    _epochs_from_trainset_size (10 * 1000) = Ok e10 /\
    0 <= e /\ (0 < e <-> 1000 <= 632455532) /\ e10 <= e.
Proof.
  destruct (epochs_nonneg_and_decaying 1000 ltac:(lia)) as [_ Hbelow].
  destruct Hbelow as (e & He & Hnn & Hpos & Hten & _);
    [vm_compute; reflexivity|].
  destruct Hten as (e10 & He10 & Hle); [vm_compute; reflexivity|].
  exists e, e10. repeat split; try assumption; apply Hpos.
Defined.

(** C3 as stated fails: a training set of a billion examples gets no
    epoch at all. *)
Lemma epochs_zero_for_a_billion :
  _epochs_from_trainset_size 1000000000 = Ok 0 /\
  ~ (exists e, _epochs_from_trainset_size 1000000000 = Ok e /\ 0 < e).
Proof.
  assert (H : _epochs_from_trainset_size 1000000000 = Ok 0)
    by (vm_compute; reflexivity).
  split; [exact H|].
  intros (e & He & Hpos). rewrite H in He. injection He as <-. lia.
Qed.

End EpochsFacts.

(* ===================================================================== *)
(** * Properties of the orchestrator *)
(* ===================================================================== *)

(** The toy serialisers give back what was written, and the toy listing
    lists every entry. *)
Lemma demo_codec_round_trip :
  @CodecRoundTrip Demo.payloads Demo.data Demo.codec.
Proof. split; reflexivity. Qed.

Lemma demo_listing_order_lists_all (l : list string) :
  Permutation (Demo.listing_order l) l.
Proof. apply Permutation_refl. Qed.

Lemma flat_map_all_nil {A B : Type} (f : A -> list B) (l : list A) :
  (forall x, f x = []) -> flat_map f l = [].
Proof.
  intros Hf. induction l as [|x l IH]; simpl; [reflexivity|].
  rewrite Hf, IH. reflexivity.
Qed.

Lemma dict_get_set_eq {V : Type} (d : dict V) (k : string) (v : V) :
  dict_get (dict_set d k v) k = Some v.
Proof.
  induction d as [|[k' v'] d IH]; simpl.
  - rewrite String.eqb_refl. reflexivity.
  - destruct (String.eqb k' k) eqn:E; simpl; rewrite E; [reflexivity | exact IH].
Qed.

Lemma dict_get_set_ne {V : Type} (d : dict V) (k k' : string) (v : V) :
  k <> k' -> dict_get (dict_set d k v) k' = dict_get d k'.
Proof.
  intros Hne. induction d as [|[k0 v0] d IH]; simpl.
  - destruct (String.eqb_spec k k'); [contradiction | reflexivity].
  - destruct (String.eqb_spec k0 k) as [->|Hk]; simpl.
    + destruct (String.eqb_spec k k'); [contradiction | reflexivity].
    + destruct (String.eqb k0 k'); [reflexivity | exact IH].
Qed.

Lemma dict_get_none {V : Type} (d : dict V) (k : string) :
  dict_get d k = None <-> ~ In k (dict_keys d).
Proof.
  induction d as [|[k' v'] d IH]; simpl.
  - split; [intros _ [] | reflexivity].
  - destruct (String.eqb_spec k' k) as [->|Hk].
    + split; [discriminate | intros Hn; exfalso; apply Hn; left; reflexivity].
    + rewrite IH. split; [intros Hn [Heq|Hin]; [congruence | tauto] | tauto].
Qed.

Lemma dict_keys_set {V : Type} (d : dict V) (k : string) (v : V) :
  dict_keys (dict_set d k v) =
  match dict_get d k with
  | Some _ => dict_keys d
  | None => dict_keys d ++ [k]
  end.
Proof.
  induction d as [|[k' v'] d IH]; simpl; [reflexivity|].
  destruct (String.eqb k' k); simpl; [reflexivity|].
  rewrite IH. destruct (dict_get d k); reflexivity.
Qed.

Lemma dict_set_keys_nodup {V : Type} (d : dict V) (k : string) (v : V) :
  List.NoDup (dict_keys d) -> List.NoDup (dict_keys (dict_set d k v)).
Proof.
  intros Hnd. rewrite dict_keys_set.
  destruct (dict_get d k) eqn:E; [exact Hnd|].
  apply dict_get_none in E.
  apply List.NoDup_app; [exact Hnd | repeat constructor; intros [] |].
  intros a Ha [<-|[]]. contradiction.
Qed.

Lemma filter_row {A C : Type} (x : A) (y ln : string) (zs : list C) :
  List.filter (fun c : A * string * C => String.eqb (snd (fst c)) ln)
    (map (fun z => (x, y, z)) zs) =
  if String.eqb y ln then map (fun z => (x, y, z)) zs else [].
Proof.
  induction zs as [|z zs IH]; simpl.
  - destruct (String.eqb y ln); reflexivity.
  - rewrite IH. destruct (String.eqb y ln); reflexivity.
Qed.

Lemma filter_product3 {A C : Type} (xs : list A) (ys : list string)
    (zs : list C) (ln : string) :
  List.filter (fun c : A * string * C => String.eqb (snd (fst c)) ln)
    (product3 xs ys zs) =
  product3 xs (List.filter (fun y => String.eqb y ln) ys) zs.
Proof.
  unfold product3. induction xs as [|x xs IHx]; simpl; [reflexivity|].
  rewrite List.filter_app, IHx. f_equal. clear IHx.
  induction ys as [|y ys IHy]; simpl; [reflexivity|].
  rewrite List.filter_app, IHy, filter_row.
  destruct (String.eqb y ln); reflexivity.
Qed.

Lemma filter_eqb_absent (ys : list string) (ln : string) :
  ~ In ln ys -> List.filter (fun y => String.eqb y ln) ys = [].
Proof.
  induction ys as [|y ys IH]; simpl; intros Hn; [reflexivity|].
  destruct (String.eqb_spec y ln) as [->|_]; [exfalso; apply Hn; left; reflexivity|].
  apply IH. tauto.
Qed.

Lemma filter_eqb_nodup (ys : list string) (ln : string) :
  List.NoDup ys -> In ln ys ->
  List.filter (fun y => String.eqb y ln) ys = [ln].
Proof.
  induction 1 as [|y ys Hy Hnd IH]; simpl; intros Hin; [destruct Hin|].
  destruct (String.eqb_spec y ln) as [->|Hne].
  - rewrite filter_eqb_absent by exact Hy. reflexivity.
  - apply IH. destruct Hin; [contradiction | assumption].
Qed.

Lemma product3_single {A C : Type} (xs : list A) (ln : string) (zs : list C) :
  product3 xs [ln] zs = flat_map (fun m => map (fun i => (m, ln, i)) zs) xs.
Proof.
  unfold product3. apply flat_map_ext. intros x. simpl. apply app_nil_r.
Qed.

Lemma product3_nil_m {A B C : Type} (xs : list A) (zs : list C) :
  product3 xs (@nil B) zs = [].
Proof. unfold product3. apply flat_map_all_nil. reflexivity. Qed.

Lemma product3_nil_r {A B C : Type} (xs : list A) (ys : list B) :
  product3 xs ys (@nil C) = [].
Proof.
  unfold product3. apply flat_map_all_nil. intros x.
  apply flat_map_all_nil. reflexivity.
Qed.

Section LearnRelFacts.
Context `{Collaborators}.
Import Run.

Variables (relpath : FS.path) (rel_meta : RelMeta).
Variables (data_loaders : dict DataLoader) (single_rel_types : list string).
Variable epochs_fn : Z -> result Z.
Variable train_input_disturber : option Disturber.
Variables debug_test_df cuda : bool.

(** C2.  A relation with fewer than 75 positive examples, and a relation
    the filter rejects, gets the empty result that echoes its name, type
    and count; the world and the trace of calls are left as they were: no
    data loader was invoked and no model was built. *)
Theorem learn_rel_short_circuit
    (rel_filter : option (RelMeta -> bool)) (models : list string)
    (n_runs : Z) (s : state) :
  rm_cnt rel_meta < 75 \/
  (exists f, rel_filter = Some f /\ f rel_meta = false) ->
  learn_rel relpath rel_meta data_loaders single_rel_types epochs_fn
    rel_filter models n_runs train_input_disturber debug_test_df cuda s =
  (Ok {| rel_name := rm_name rel_meta; rel_type := rm_type rel_meta;
         pos_exs := Some (rm_cnt rel_meta); emb_model_results := [] |}, s).
Proof.
  intros Hskip. unfold learn_rel.
  destruct (Z.ltb_spec (rm_cnt rel_meta) 75) as [|Hge]; [reflexivity|].
  destruct Hskip as [Hlt | (f & -> & Hf)]; [lia|].
  unfold filtered_out. rewrite Hf. reflexivity.
Qed.

(** C10.  When the relation passes both checks but the product of models,
    loaders and runs is empty, the loop body never runs: the result has no
    per-embedding entry, and the world and the trace are untouched. *)
Theorem learn_rel_empty_product
    (rel_filter : option (RelMeta -> bool)) (models : list string)
    (n_runs : Z) (s : state) :
  75 <= rm_cnt rel_meta ->
  filtered_out rel_filter rel_meta = false ->
  models = [] \/ data_loaders = [] \/ n_runs <= 0 ->
  learn_rel relpath rel_meta data_loaders single_rel_types epochs_fn
    rel_filter models n_runs train_input_disturber debug_test_df cuda s =
  (Ok {| rel_name := rm_name rel_meta; rel_type := rm_type rel_meta;
         pos_exs := Some (rm_cnt rel_meta); emb_model_results := [] |}, s).
Proof.
  intros Hcnt Hfilter Hempty. unfold learn_rel.
  destruct (Z.ltb_spec (rm_cnt rel_meta) 75) as [|_]; [lia|].
  rewrite Hfilter.
  assert (Hprod : product3 models (dict_keys data_loaders) (py_range n_runs)
                  = []).
  { destruct Hempty as [-> | [-> | Hn]].
    - reflexivity.
    - apply product3_nil_m.
    - unfold py_range. replace (Z.to_nat n_runs) with 0%nat by lia.
      apply product3_nil_r. }
  rewrite Hprod. reflexivity.
Qed.

Lemma fold_max_spec (Y : list Z) (y : Z) :
  let m := fold_left Z.max Y y in
  y <= m /\ (forall v, In v Y -> v <= m).
Proof.
  revert y. induction Y as [|a Y IH]; intros y; simpl.
  - split; [lia | intros v []].
  - destruct (IH (Z.max y a)) as (H1 & H2). split; [lia|].
    intros v [->|Hv]; [lia | apply H2, Hv].
Qed.

Lemma fold_min_spec (Y : list Z) (y : Z) :
  let m := fold_left Z.min Y y in
  m <= y /\ (forall v, In v Y -> m <= v).
Proof.
  revert y. induction Y as [|a Y IH]; intros y; simpl.
  - split; [lia | intros v []].
  - destruct (IH (Z.min y a)) as (H1 & H2). split; [lia|].
    intros v [->|Hv]; [lia | apply H2, Hv].
Qed.

(** Integer labels with an entry other than 0 and 1 have a maximum other
    than 1 or a minimum other than 0. *)
Lemma non_binary_extremes (Y : list Z) (v : Z) :
  In v Y -> v <> 0 -> v <> 1 ->
  exists mx mn, torch_max Y = Ok mx /\ torch_min Y = Ok mn /\
                (mx <> 1 \/ mn <> 0).
Proof.
  intros Hin H0' H1'. destruct Y as [|y Y]; [destruct Hin|].
  exists (fold_left Z.max Y y), (fold_left Z.min Y y).
  split; [reflexivity|]. split; [reflexivity|].
  destruct (fold_max_spec Y y) as (Hy & Hall).
  destruct (fold_min_spec Y y) as (Hy' & Hall').
  assert (v <= fold_left Z.max Y y /\ fold_left Z.min Y y <= v) as [? ?].
  { destruct Hin as [<-|Hin]; [lia|].
    split; [apply Hall, Hin | apply Hall', Hin]. }
  lia.
Qed.

Lemma for_each_M_app {A S : Type} (body : S -> A -> M S) (l1 l2 : list A)
    (a : S) (s : state) :
  for_each_M body (l1 ++ l2) a s =
  mbind (for_each_M body l1 a) (for_each_M body l2) s.
Proof.
  revert a s. induction l1 as [|x l1 IH]; intros a s; simpl.
  - reflexivity.
  - unfold mbind in *. destruct (body a x s) as [[a'|e] s']; [|reflexivity].
    apply IH.
Qed.

Lemma load_dataset_trace (loader_name : string) (dl : DataLoader)
    (s s' : state) (r : result Dataset) :
  load_dataset relpath rel_meta single_rel_types loader_name dl s = (r, s') ->
  exists ev, is_load_event ev = true /\ is_build_event ev = false /\
             snd s' = snd s ++ [ev].
Proof.
  unfold load_dataset, call.
  destruct (String.eqb _ _); [|destruct (existsb _ _)];
    match goal with
    | |- (let (_, _) := ?op (fst s) in _) = _ -> _ =>
        destruct (op (fst s)) as [r0 w0]
    end; intros Heq; injection Heq as <- <-; eexists;
    (refine (conj _ (conj _ _)); [ | | simpl; reflexivity]); reflexivity.
Qed.

Lemma mbind_ok_inv {A B : Type} (m : M A) (k : A -> M B) (s s' : state)
    (b : B) :
  mbind m k s = (Ok b, s') ->
  exists a s1, m s = (Ok a, s1) /\ k a s1 = (Ok b, s').
Proof.
  unfold mbind. destruct (m s) as [[a|e] s1]; intros Heq.
  - exists a, s1. split; [reflexivity | exact Heq].
  - discriminate Heq.
Qed.

Lemma call_ok_inv {A : Type} (ev : event) (op : World -> result A * World)
    (s s' : state) (a : A) :
  call ev op s = (Ok a, s') -> snd s' = snd s ++ [ev].
Proof.
  unfold call. destruct (op (fst s)) as [r w]. intros Heq.
  injection Heq as _ <-. reflexivity.
Qed.

Lemma lift_ok_inv {A : Type} (r : result A) (s s' : state) (a : A) :
  lift r s = (Ok a, s') -> r = Ok a /\ s' = s.
Proof. unfold lift. intros Heq. injection Heq as -> ->. split; reflexivity. Qed.

Lemma load_dataset_loader (loader_name : string) (dl : DataLoader)
    (s s' : state) (r : result Dataset) :
  load_dataset relpath rel_meta single_rel_types loader_name dl s = (r, s') ->
  exists ev, ev_loader ev = Some loader_name /\ ev_model ev = None /\
             snd s' = snd s ++ [ev].
Proof.
  unfold load_dataset, call.
  destruct (String.eqb _ _); [|destruct (existsb _ _)];
    match goal with
    | |- (let (_, _) := ?op (fst s) in _) = _ -> _ =>
        destruct (op (fst s)) as [r0 w0]
    end; intros Heq; injection Heq as <- <-; eexists;
    (refine (conj _ (conj _ _)); [ | | simpl; reflexivity]); reflexivity.
Qed.

(** One pass through the loop body that ends normally: one run is
    appended under the loader's key, and the trace grows by one loading
    call on that loader and one factory call for that model. *)
Lemma learn_run_ok (emr emr' : dict (list RunResult))
    (model loader_name : string) (run : Z) (s s' : state) :
  learn_run relpath rel_meta data_loaders single_rel_types epochs_fn
    train_input_disturber debug_test_df cuda emr (model, loader_name, run) s
  = (Ok emr', s') ->
  exists r tr,
    emr' = dict_set emr loader_name
             (default [] (dict_get emr loader_name) ++ [r]) /\
    run_ident r = (model, loader_name, run) /\
    r_pos_exs r = rm_cnt rel_meta /\
    In model model_names /\
    snd s' = snd s ++ tr /\
    omap ev_loader tr = [loader_name] /\
    omap ev_model tr = [model].
Proof.
  unfold learn_run. intros Hrun.
  apply mbind_ok_inv in Hrun as (dl & s1 & Hdl & Hrun).
  apply lift_ok_inv in Hdl as [_ ->].
  apply mbind_ok_inv in Hrun as (ds & s2 & Hload & Hrun).
  destruct (load_dataset_loader _ _ _ _ _ Hload) as (ev & Hev1 & Hev2 & Htr2).
  destruct ds as [[[[X Y] ds_n] ds_tc] ds_tf].
  apply mbind_ok_inv in Hrun as (mx & s3 & Hmx & Hrun).
  apply lift_ok_inv in Hmx as [_ ->].
  apply mbind_ok_inv in Hrun as (mn & s3 & Hmn & Hrun).
  apply lift_ok_inv in Hmn as [_ ->].
  apply mbind_ok_inv in Hrun as (u & s3 & Hassert & Hrun).
  apply lift_ok_inv in Hassert as [_ ->].
  apply mbind_ok_inv in Hrun as (epochs & s3 & Hep & Hrun).
  apply lift_ok_inv in Hep as [_ ->].
  apply mbind_ok_inv in Hrun as (parts & s3 & Hsplit & Hrun).
  apply call_ok_inv in Hsplit as Htr3.
  destruct parts as [[trainloader validloader] testloader].
  apply mbind_ok_inv in Hrun as (my_model & s4 & Hbuild & Hrun).
  pose proof (call_ok_inv _ _ _ _ _ Hbuild) as Htr4.
  assert (Hname : In model model_names).
  { unfold call in Hbuild. simpl in Hbuild.
    destruct (_build_model model (snd (shape X))) as [m|e] eqn:Hb;
      [|discriminate Hbuild].
    apply (ModelsFacts.build_model_ok_inv _ _ _ Hb). }
  apply mbind_ok_inv in Hrun as (trainer & s5 & Htrainer & Hrun).
  apply call_ok_inv in Htrainer as Htr5.
  apply mbind_ok_inv in Hrun as (pretrain & s6 & Htest & Hrun).
  apply call_ok_inv in Htest as Htr6.
  apply mbind_ok_inv in Hrun as (u' & s7 & Htrain & Hrun).
  apply call_ok_inv in Htrain as Htr7.
  apply mbind_ok_inv in Hrun as (test_df & s8 & Htestdf & Hrun).
  apply call_ok_inv in Htestdf as Htr8.
  apply mbind_ok_inv in Hrun as (test_random & s9 & Hrandom & Hrun).
  apply call_ok_inv in Hrandom as Htr9.
  unfold ret in Hrun. injection Hrun as <- <-.
  eexists. eexists.
  split; [reflexivity|]. split; [reflexivity|]. split; [reflexivity|].
  split; [exact Hname|]. split.
  - rewrite Htr9, Htr8, Htr7, Htr6, Htr5, Htr4, Htr3, Htr2.
    rewrite <- !app_assoc. reflexivity.
  - simpl. rewrite Hev1, Hev2. split; reflexivity.
Qed.

(** The loop, run to its normal end over [combos]. *)
Lemma learn_loop_ok (combos : list (string * string * Z)) :
  forall (emr emr' : dict (list RunResult)) (s s' : state),
  for_each_M
    (learn_run relpath rel_meta data_loaders single_rel_types epochs_fn
       train_input_disturber debug_test_df cuda) combos emr s = (Ok emr', s') ->
  (exists tr, snd s' = snd s ++ tr /\
              omap ev_loader tr = map combo_loader combos /\
              omap ev_model tr = map combo_model combos) /\
  (forall ln, exists new,
      default [] (dict_get emr' ln) = default [] (dict_get emr ln) ++ new /\
      map run_ident new =
        List.filter (fun c => String.eqb (combo_loader c) ln) combos /\
      Forall (fun r => r_pos_exs r = rm_cnt rel_meta) new) /\
  (forall ln, dict_get emr' ln = None <->
              dict_get emr ln = None /\ ~ In ln (map combo_loader combos)) /\
  Forall (fun c => In (combo_model c) model_names) combos /\
  (List.NoDup (dict_keys emr) -> List.NoDup (dict_keys emr')).
Proof.
  induction combos as [|[[m ln0] i] rest IH]; intros emr emr' s s' Hloop.
  - simpl in Hloop. unfold ret in Hloop. injection Hloop as <- <-.
    split; [exists []; rewrite app_nil_r; repeat split|].
    split; [intros ln; exists []; rewrite app_nil_r; repeat split; constructor|].
    split; [intros ln; simpl; tauto|].
    split; [constructor | tauto].
  - simpl in Hloop.
    apply mbind_ok_inv in Hloop as (emr1 & s1 & Hrun & Hloop).
    apply learn_run_ok in Hrun
      as (r & tr1 & -> & Hid & Hpos & Hname & Htr1 & Hl1 & Hm1).
    specialize (IH _ _ _ _ Hloop)
      as ((tr & Htr & Hl & Hm) & Hruns & Hnone & Hnames & Hnd).
    split; [|split; [|split; [|split]]].
    + exists (tr1 ++ tr). rewrite Htr, Htr1, <- app_assoc.
      split; [reflexivity|]. rewrite !omap_app, Hl1, Hm1, Hl, Hm.
      split; reflexivity.
    + intros ln. destruct (Hruns ln) as (new & Hnew & Hids & Hall).
      simpl. unfold combo_loader at 1. simpl.
      destruct (String.eqb_spec ln0 ln) as [->|Hne].
      * rewrite dict_get_set_eq in Hnew. simpl in Hnew.
        exists (r :: new). rewrite Hnew, <- app_assoc. split; [reflexivity|].
        split; [simpl; rewrite Hid, Hids; reflexivity|].
        constructor; assumption.
      * rewrite dict_get_set_ne in Hnew by exact Hne.
        exists new. split; [exact Hnew|]. split; assumption.
    + intros ln. rewrite Hnone. simpl. unfold combo_loader at 2. simpl.
      destruct (string_dec ln0 ln) as [->|Hne].
      * rewrite dict_get_set_eq. split; [intros [Hd _]; discriminate Hd|].
        intros [_ Hn]. exfalso. apply Hn. left. reflexivity.
      * rewrite dict_get_set_ne by exact Hne. tauto.
    + constructor; assumption.
    + intros Hnd0. apply Hnd, dict_set_keys_nodup, Hnd0.
Qed.

(** C4.  Whatever iteration of the training loop is reached: when the
    labels it loads hold a value other than 0 and 1 (so that their maximum
    is not 1 or their minimum is not 0), [learn_rel] ends there with the
    [AssertionError] of the label check.  The trace grew by the one loading
    call and nothing else: no model was built in this iteration, and the
    labels were neither changed nor passed on. *)
Theorem learn_rel_rejects_non_binary_labels
    (rel_filter : option (RelMeta -> bool)) (models : list string)
    (n_runs : Z)
    (pre post : list (string * string * Z))
    (model loader_name : string) (run : Z)
    (s0 s1 s2 : state) (emr : dict (list RunResult)) (dl : DataLoader)
    (X : Features) (Y : list Z) (ds_n ds_tc ds_tf : Z) :
  75 <= rm_cnt rel_meta ->
  filtered_out rel_filter rel_meta = false ->
  product3 models (dict_keys data_loaders) (py_range n_runs) =
    pre ++ (model, loader_name, run) :: post ->
  for_each_M
    (learn_run relpath rel_meta data_loaders single_rel_types epochs_fn
       train_input_disturber debug_test_df cuda) pre [] s0 = (Ok emr, s1) ->
  dict_get data_loaders loader_name = Some dl ->
  load_dataset relpath rel_meta single_rel_types loader_name dl s1 =
    (Ok (X, Y, ds_n, ds_tc, ds_tf), s2) ->
  (exists v, In v Y /\ v <> 0 /\ v <> 1) \/
  (exists mx mn, torch_max Y = Ok mx /\ torch_min Y = Ok mn /\
                 (mx <> 1 \/ mn <> 0)) ->
  exists mx mn ev,
    torch_max Y = Ok mx /\ torch_min Y = Ok mn /\
    learn_rel relpath rel_meta data_loaders single_rel_types epochs_fn
      rel_filter models n_runs train_input_disturber debug_test_df cuda s0 =
    (Raise (PyExc "AssertionError" (binary_msg mx mn)), s2) /\
    snd s2 = snd s1 ++ [ev] /\ is_load_event ev = true /\
    List.filter is_build_event (snd s2) = List.filter is_build_event (snd s1).
Proof.
  intros Hcnt Hfilter Hprod Hpre Hdl Hload Hbad.
  assert (Hext : exists mx mn, torch_max Y = Ok mx /\ torch_min Y = Ok mn /\
                               (mx <> 1 \/ mn <> 0)).
  { destruct Hbad as [(v & Hin & Hv0 & Hv1)|Hbad]; [|exact Hbad].
    apply (non_binary_extremes Y v Hin Hv0 Hv1). }
  destruct Hext as (mx & mn & Hmx & Hmn & Hne).
  destruct (load_dataset_trace _ _ _ _ _ Hload) as (ev & Hev & Hnb & Htr).
  exists mx, mn, ev.
  split; [exact Hmx|]. split; [exact Hmn|]. split; [|split; [exact Htr|split]].
  - unfold learn_rel.
    destruct (Z.ltb_spec (rm_cnt rel_meta) 75) as [|_]; [lia|].
    rewrite Hfilter, Hprod. unfold mbind at 1.
    rewrite for_each_M_app. unfold mbind at 1. rewrite Hpre.
    simpl for_each_M. unfold mbind at 1.
    unfold learn_run at 1. unfold get_loader. rewrite Hdl.
    unfold mbind at 1. unfold lift at 1.
    unfold mbind at 1. rewrite Hload.
    unfold mbind at 1. unfold lift at 1. rewrite Hmx.
    unfold mbind at 1. unfold lift at 1. rewrite Hmn.
    unfold mbind at 1. unfold lift at 1. unfold assert_binary.
    destruct (Z.eqb_spec mx 1) as [->|_];
      [destruct (Z.eqb_spec mn 0) as [->|_]; [lia|]|]; reflexivity.
  - exact Hev.
  - rewrite Htr, List.filter_app. simpl. rewrite Hnb. apply app_nil_r.
Qed.

Lemma in_product3_loader {A C : Type} (xs : list A) (ys : list string)
    (zs : list C) (c : A * string * C) :
  In c (product3 xs ys zs) -> In (snd (fst c)) ys.
Proof.
  unfold product3. intros Hin.
  apply in_flat_map in Hin as (x & _ & Hin).
  apply in_flat_map in Hin as (y & Hy & Hin).
  apply in_map_iff in Hin as (z & <- & _). exact Hy.
Qed.

Lemma learn_rel_ok_inv
    (rel_filter : option (RelMeta -> bool)) (models : list string)
    (n_runs : Z) (s s' : state) (res : LearnResult) :
  75 <= rm_cnt rel_meta ->
  filtered_out rel_filter rel_meta = false ->
  learn_rel relpath rel_meta data_loaders single_rel_types epochs_fn
    rel_filter models n_runs train_input_disturber debug_test_df cuda s =
  (Ok res, s') ->
  exists emr,
    for_each_M
      (learn_run relpath rel_meta data_loaders single_rel_types epochs_fn
         train_input_disturber debug_test_df cuda)
      (product3 models (dict_keys data_loaders) (py_range n_runs)) [] s =
    (Ok emr, s') /\
    res = {| rel_name := rm_name rel_meta; rel_type := rm_type rel_meta;
             pos_exs := Some (rm_cnt rel_meta);
             emb_model_results := emr |}.
Proof.
  intros Hcnt Hfilter. unfold learn_rel.
  destruct (Z.ltb_spec (rm_cnt rel_meta) 75) as [|_]; [lia|].
  rewrite Hfilter. intros Hrun.
  apply mbind_ok_inv in Hrun as (emr & s1 & Hloop & Hret).
  unfold ret in Hret. injection Hret as <- <-.
  exists emr. split; [exact Hloop | reflexivity].
Qed.

(** C5.  For a relation that passes both checks, a call of [learn_rel]
    that returns has visited every (model, loader, run index) combination
    in the nested order and recorded exactly one run for it under the
    loader's name; with the one loader ["glove"], the one model ["logreg"]
    and two runs, the entry ["glove"] holds exactly the runs 0 and 1 of
    ["logreg"] on ["glove"]. *)
Theorem learn_rel_records_every_combination
    (rel_filter : option (RelMeta -> bool)) (models : list string)
    (n_runs : Z) (s s' : state) (res : LearnResult) :
  75 <= rm_cnt rel_meta ->
  filtered_out rel_filter rel_meta = false ->
  List.NoDup (dict_keys data_loaders) ->
  learn_rel relpath rel_meta data_loaders single_rel_types epochs_fn
    rel_filter models n_runs train_input_disturber debug_test_df cuda s =
  (Ok res, s') ->
  every_combination_recorded data_loaders models n_runs (snd s) (snd s') res.
Proof.
  intros Hcnt Hfilter Hnd Hrun.
  destruct (learn_rel_ok_inv _ _ _ _ _ _ Hcnt Hfilter Hrun)
    as (emr & Hloop & ->).
  apply learn_loop_ok in Hloop
    as ((tr & Htr & Hl & Hm) & Hruns & Hnone & _ & _).
  assert (Hkeyed : forall ln, In ln (dict_keys data_loaders) ->
     map run_ident (default [] (dict_get emr ln)) =
     flat_map (fun m => map (fun i => (m, ln, i)) (py_range n_runs)) models).
  { intros ln Hin. destruct (Hruns ln) as (new & Hnew & Hids & _).
    simpl in Hnew. rewrite Hnew, Hids. unfold combo_loader.
    rewrite filter_product3, (filter_eqb_nodup _ _ Hnd Hin).
    apply product3_single. }
  unfold every_combination_recorded. simpl emb_model_results.
  split; [exists tr; repeat split; assumption|].
  split; [exact Hkeyed|]. split.
  - intros ln Hout. apply Hnone. split; [reflexivity|].
    intros Hin. apply Hout. apply in_map_iff in Hin as (c & <- & Hc).
    apply (in_product3_loader _ _ _ _ Hc).
  - intros Hkeys -> ->.
    specialize (Hkeyed "glove"). rewrite Hkeys in Hkeyed.
    specialize (Hkeyed (or_introl eq_refl)). simpl in Hkeyed.
    destruct (dict_get emr "glove") as [runs|]; [|discriminate Hkeyed].
    simpl in Hkeyed.
    destruct runs as [|r0 [|r1 [|r2 runs]]]; try discriminate Hkeyed.
    exists r0, r1. split; [reflexivity|].
    change (Z.of_nat 0) with 0 in Hkeyed. change (Z.of_nat 1) with 1 in Hkeyed.
    unfold run_ident. injection Hkeyed; intros; split; congruence.
Qed.

Lemma nodup_py_range (n : Z) : List.NoDup (py_range n).
Proof.
  unfold py_range. generalize 0%nat.
  induction (Z.to_nat n) as [|k IH]; intros a; simpl; constructor.
  - intros Hin. apply in_map_iff in Hin as (b & Heq & Hin).
    apply Nat2Z.inj in Heq. subst b. apply in_seq in Hin. lia.
  - apply IH.
Qed.

Lemma nodup_row {A C : Type} (m : A) (ln : string) (zs : list C) :
  List.NoDup zs -> List.NoDup (map (fun i => (m, ln, i)) zs).
Proof.
  induction 1 as [|z zs Hz _ IH]; simpl; constructor; [|exact IH].
  intros Hin. apply in_map_iff in Hin as (z' & Heq & Hin).
  injection Heq as ->. contradiction.
Qed.

Lemma nodup_rows {A C : Type} (xs : list A) (ln : string) (zs : list C) :
  List.NoDup xs -> List.NoDup zs ->
  List.NoDup (flat_map (fun m => map (fun i => (m, ln, i)) zs) xs).
Proof.
  intros Hxs Hzs. induction Hxs as [|x xs Hx _ IH]; simpl; [constructor|].
  apply List.NoDup_app; [apply nodup_row, Hzs | exact IH|].
  intros c Hc Hc'. apply in_map_iff in Hc as (z & <- & _).
  apply in_flat_map in Hc' as (x' & Hx' & Hc').
  apply in_map_iff in Hc' as (z' & Heq & _). injection Heq as -> _.
  contradiction.
Qed.

Lemma filter_loader_nonempty (combos : list (string * string * Z))
    (ln : string) :
  In ln (map combo_loader combos) ->
  List.filter (fun c => String.eqb (combo_loader c) ln) combos <> [].
Proof.
  intros Hin. apply in_map_iff in Hin as (c & Hc & Hin).
  intros Hnil.
  assert (Hf : In c (List.filter (fun c => String.eqb (combo_loader c) ln)
                       combos)).
  { apply filter_In. split; [exact Hin|]. rewrite Hc. apply String.eqb_refl. }
  rewrite Hnil in Hf. destruct Hf.
Qed.

Lemma learn_rel_well_shaped
    (rel_filter : option (RelMeta -> bool)) (models : list string)
    (n_runs : Z) (s s' : state) (res : LearnResult) :
  learn_rel relpath rel_meta data_loaders single_rel_types epochs_fn
    rel_filter models n_runs train_input_disturber debug_test_df cuda s =
  (Ok res, s') ->
  well_shaped rel_meta data_loaders models n_runs res.
Proof.
  intros Hrun.
  assert (Hempty : well_shaped rel_meta data_loaders models n_runs
                     (empty_result rel_meta)).
  { unfold well_shaped, empty_result. simpl.
    repeat (split; [reflexivity|]). split; [constructor|].
    intros emb runs Hget. discriminate Hget. }
  destruct (Z.ltb_spec (rm_cnt rel_meta) 75) as [Hlt|Hcnt].
  { unfold learn_rel in Hrun.
    destruct (Z.ltb_spec (rm_cnt rel_meta) 75) as [_|Hge]; [|lia].
    injection Hrun as <- _. exact Hempty. }
  destruct (filtered_out rel_filter rel_meta) eqn:Hfilter.
  { unfold learn_rel in Hrun. rewrite Hfilter in Hrun.
    destruct (rm_cnt rel_meta <? 75); injection Hrun as <- _; exact Hempty. }
  destruct (learn_rel_ok_inv _ _ _ _ _ _ Hcnt Hfilter Hrun)
    as (emr & Hloop & ->).
  apply learn_loop_ok in Hloop as (_ & Hruns & Hnone & Hnames & Hnd).
  unfold well_shaped. simpl.
  repeat (split; [reflexivity|]). split; [apply Hnd; constructor|].
  intros emb runs Hget.
  destruct (Hruns emb) as (new & Hnew & Hids & Hpos).
  rewrite Hget in Hnew. simpl in Hnew. subst new.
  assert (Hin : In emb (map combo_loader
             (product3 models (dict_keys data_loaders) (py_range n_runs)))).
  { destruct (in_dec string_dec emb (map combo_loader
             (product3 models (dict_keys data_loaders) (py_range n_runs))))
      as [Hin|Hout]; [exact Hin|].
    assert (Hn : dict_get emr emb = None) by (apply Hnone; split; [reflexivity | exact Hout]).
    rewrite Hn in Hget. discriminate Hget. }
  assert (Hkey : In emb (dict_keys data_loaders)).
  { apply in_map_iff in Hin as (c & <- & Hc).
    apply (in_product3_loader _ _ _ _ Hc). }
  split; [|split; [exact Hkey|split]].
  - intros ->. simpl in Hids. symmetry in Hids.
    apply (filter_loader_nonempty _ _ Hin Hids).
  - intros Hnd_keys Hnd_models. rewrite Hids. unfold combo_loader.
    rewrite filter_product3, (filter_eqb_nodup _ _ Hnd_keys Hkey).
    rewrite product3_single.
    apply nodup_rows; [exact Hnd_models | apply nodup_py_range].
  - intros r Hr.
    assert (Hc : In (run_ident r)
                   (List.filter (fun c => String.eqb (combo_loader c) emb)
                      (product3 models (dict_keys data_loaders)
                         (py_range n_runs)))).
    { rewrite <- Hids. apply in_map. exact Hr. }
    apply filter_In in Hc as [Hc Hl].
    apply String.eqb_eq in Hl. split; [exact Hl|]. split.
    + rewrite List.Forall_forall in Hnames. apply (Hnames _ Hc).
    + rewrite List.Forall_forall in Hpos. apply Hpos, Hr.
Qed.

End LearnRelFacts.

Lemma learn_rel_short_circuit_witness :
  Demo.learn (Demo.rel 10) [("glove", Demo.glove)] ["logreg"] 2 =
  (Ok (@mkLearnResult Demo.payloads "plural" "noun" (Some 10) []),
   (0%nat, [])).
Proof.
  apply (@learn_rel_short_circuit Demo.payloads Demo.collaborators).
  left. simpl. lia.
Defined.

Lemma learn_rel_empty_product_witness :
  Demo.learn (Demo.rel 100) [("glove", Demo.glove)] ["logreg"] 0 =
  (Ok (@mkLearnResult Demo.payloads "plural" "noun" (Some 100) []),
   (0%nat, [])).
Proof.
  apply (@learn_rel_empty_product Demo.payloads Demo.collaborators).
  - simpl. lia.
  - reflexivity.
  - right. right. lia.
Defined.

(* ===================================================================== *)
(** * Properties of the relation metadata scanner *)
(* ===================================================================== *)

Module RelsMetaFacts.

Lemma map_result_ok {A B : Type} (f : A -> result B) (l : list A) :
  (forall x, In x l -> is_ok (f x) = true) ->
  exists ys, map_result f l = Ok ys /\ Forall2 (fun x y => f x = Ok y) l ys.
Proof.
  induction l as [|x l IH]; intros Hall; simpl.
  - exists []. split; [reflexivity | constructor].
  - pose proof (Hall x (or_introl eq_refl)) as Hx.
    destruct (f x) as [y|e] eqn:Efx; [|discriminate Hx].
    destruct IH as (ys & -> & Hys); [intros z Hz; apply Hall; right; exact Hz|].
    exists (y :: ys). split; [reflexivity|]. constructor; assumption.
Qed.

Lemma map_result_raises {A B : Type} (f : A -> result B) (l : list A) (x : A) :
  In x l -> is_ok (f x) = false ->
  exists x' e, In x' l /\ f x' = Raise e /\ map_result f l = Raise e.
Proof.
  induction l as [|a l IH]; intros Hin Hx; [destruct Hin|].
  simpl. destruct (f a) as [y|e] eqn:Efa.
  - destruct Hin as [->|Hin]; [rewrite Efa in Hx; discriminate Hx|].
    destruct (IH Hin Hx) as (x' & e & Hin' & He & ->).
    exists x', e. split; [right; exact Hin' | split; [exact He | reflexivity]].
  - exists a, e. split; [left; reflexivity | split; [exact Efa | reflexivity]].
Qed.

(** The only exception the loop body raises is the one of [int()]. *)
Lemma parse_rel_filename_raises (f : string) (e : exn) :
  parse_rel_filename f = Raise e -> exc_class e = "ValueError".
Proof.
  unfold parse_rel_filename, py_int.
  destruct (match rstrip (lstrip _) with
            | String "+" t' => parse_digits t' 0 false
            | String "-" t' => option_map Z.opp (parse_digits t' 0 false)
            | _ => parse_digits (rstrip (lstrip _)) 0 false
            end); simpl; intros Heq; [discriminate Heq|].
  injection Heq as <-. reflexivity.
Qed.

Lemma parse_rel_filename_is_ok (f : string) :
  is_ok (parse_rel_filename f) = is_ok (py_int (count_text f)).
Proof.
  unfold parse_rel_filename, count_text.
  destruct (py_int _); reflexivity.
Qed.

Lemma parse_rel_filename_file (f : string) (r : RelMeta) :
  parse_rel_filename f = Ok r -> rm_file r = f.
Proof.
  unfold parse_rel_filename. destruct (py_int _); simpl; intros Heq;
    [injection Heq as <-; reflexivity | discriminate Heq].
Qed.

(** C6, as the code has it.  The scanner validates one thing only: the
    text it slices out between the first ["__"] and the first [".txt"]
    must read as an integer.  A regular file for which it does not makes
    the whole scan fail with [ValueError]; when every regular file passes,
    the scan returns one record per regular file, in listing order, none
    skipped. *)
Theorem load_rels_meta_strictness {D : Type} (fs : FS.t D)
    (relpath : FS.path) (names : list string) :
  FS.listdir fs relpath = Ok names ->
  let files :=
    List.filter (fun f => FS.isfile fs (FS.osp_join relpath f)) names in
  ((exists f, In f files /\ is_ok (py_int (count_text f)) = false) ->
   exists e, load_rels_meta fs relpath = Raise e /\
             exc_class e = "ValueError") /\
  ((forall f, In f files -> is_ok (py_int (count_text f)) = true) ->
   exists rows, load_rels_meta fs relpath = Ok rows /\
                map rm_file rows = files /\
                Forall (fun r => parse_rel_filename (rm_file r) = Ok r) rows).
Proof.
  intros Hls files. unfold load_rels_meta. rewrite Hls. simpl bind.
  fold files. split.
  - intros (f & Hin & Hbad).
    rewrite <- parse_rel_filename_is_ok in Hbad.
    destruct (map_result_raises parse_rel_filename files f Hin Hbad)
      as (f' & e & _ & He & Hmap).
    exists e. split; [exact Hmap|].
    apply (parse_rel_filename_raises f' e He).
  - intros Hall.
    destruct (map_result_ok parse_rel_filename files) as (rows & Hmap & Hrows).
    { intros f Hin. rewrite parse_rel_filename_is_ok. apply Hall, Hin. }
    exists rows. split; [exact Hmap|].
    clear Hmap Hall. induction Hrows as [|f r fs' rows' Hfr _ IH].
    + split; [reflexivity | constructor].
    + destruct IH as (IHfiles & IHrows).
      pose proof (parse_rel_filename_file f r Hfr) as Hfile.
      split.
      * simpl. rewrite Hfile, IHfiles. reflexivity.
      * constructor; [rewrite Hfile; exact Hfr | exact IHrows].
Qed.

Lemma load_rels_meta_strictness_witness :
  ((exists f,
      In f ["noun_plural__120.txt"; "readme.md"] /\
      is_ok (py_int (count_text f)) = false) ->
   exists e, load_rels_meta Demo.rels_with_readme ["rels"] = Raise e /\
             exc_class e = "ValueError") /\
  ((forall f, In f ["noun_plural__120.txt"; "readme.md"] ->
              is_ok (py_int (count_text f)) = true) ->
   exists rows, load_rels_meta Demo.rels_with_readme ["rels"] = Ok rows /\
                map rm_file rows = ["noun_plural__120.txt"; "readme.md"] /\
                Forall (fun r => parse_rel_filename (rm_file r) = Ok r) rows).
Proof.
  apply (load_rels_meta_strictness Demo.rels_with_readme ["rels"]
           ["noun_plural__120.txt"; "readme.md"; "old"]).
  reflexivity.
Defined.

(** C6 as stated fails: a file that lost its [.txt] is neither refused nor
    skipped; the slice then ends one character early and the record says
    12 examples instead of 120. *)
Lemma load_rels_meta_accepts_malformed_name :
  conventional "noun_plural__120" = false /\
  load_rels_meta Demo.rels_without_extension ["rels"] =
  Ok [ {| rm_type := "noun"; rm_name := "plural"; rm_cnt := 12;
          rm_file := "noun_plural__120" |} ].
Proof. split; reflexivity. Qed.

End RelsMetaFacts.

Lemma learn_rel_rejects_non_binary_labels_witness :
  exists mx mn ev,
    torch_max [0; 1; 2] = Ok mx /\ torch_min [0; 1; 2] = Ok mn /\
    Demo.learn (Demo.rel 100) [("glove", Demo.mislabelled)] ["logreg"] 2 =
    (Raise (PyExc "AssertionError" (binary_msg mx mn)),
     (0%nat, [EvLoadPairData "glove" ["rels"; "noun_plural__100.txt"]])) /\
    [EvLoadPairData "glove" ["rels"; "noun_plural__100.txt"]] = [] ++ [ev] /\
    is_load_event ev = true /\
    List.filter is_build_event
      [EvLoadPairData "glove" ["rels"; "noun_plural__100.txt"]] =
    List.filter is_build_event [].
Proof.
  apply (@learn_rel_rejects_non_binary_labels Demo.payloads Demo.collaborators
           ["rels"] (Demo.rel 100) [("glove", Demo.mislabelled)] []
           Epochs._epochs_from_trainset_size None false false
           None ["logreg"] 2 [] [("logreg", "glove", 1)] "logreg" "glove" 0
           (0%nat, []) (0%nat, [])
           (0%nat, [EvLoadPairData "glove" ["rels"; "noun_plural__100.txt"]])
           [] Demo.mislabelled (200, 600) [0; 1; 2] 200 400 390).
  - simpl. lia.
  - reflexivity.
  - reflexivity.
  - reflexivity.
  - reflexivity.
  - reflexivity.
  - left. exists 2. split; [simpl; tauto | split; lia].
Defined.

Lemma learn_rel_records_every_combination_witness :
  exists res s',
    Demo.learn (Demo.rel 100) [("glove", Demo.glove)] ["logreg"] 2 =
      (Ok res, s') /\
    @every_combination_recorded Demo.payloads Demo.collaborators
      [("glove", Demo.glove)] ["logreg"] 2 [] (snd s') res.
Proof.
  eexists. eexists. split; [vm_compute; reflexivity|].
  apply (@learn_rel_records_every_combination Demo.payloads
           Demo.collaborators ["rels"] (Demo.rel 100) [("glove", Demo.glove)]
           [] Epochs._epochs_from_trainset_size None false false
           None ["logreg"] 2 (0%nat, [])).
  - simpl. lia.
  - reflexivity.
  - repeat constructor. intros [].
  - vm_compute. reflexivity.
Defined.

(* ===================================================================== *)
(** * Properties of the number formats and of path names *)
(* ===================================================================== *)

Module PyFacts.

Lemma to_int_nonnil (z : Z) :
  Z.to_int z <> Decimal.Pos Decimal.Nil /\
  Z.to_int z <> Decimal.Neg Decimal.Nil.
Proof.
  destruct z as [|p|p]; simpl; split; try discriminate;
    intros Heq; injection Heq as Heq;
    exact (DecimalPos.Unsigned.to_uint_nonnil p Heq).
Qed.

(** ['%d'] is injective. *)
Lemma fmt_d_inj (z z' : Z) : fmt_d z = fmt_d z' -> z = z'.
Proof.
  unfold fmt_d. intros Heq. apply DecimalZ.to_int_inj.
  destruct (to_int_nonnil z) as [Hp Hn].
  destruct (to_int_nonnil z') as [Hp' Hn'].
  pose proof (NilZero.isi (Z.to_int z) Hp Hn) as H1.
  pose proof (NilZero.isi (Z.to_int z') Hp' Hn') as H2.
  rewrite Heq in H1. rewrite H1 in H2. injection H2 as H2. exact H2.
Qed.

Lemma nzhead_not_D0 (u v : Decimal.uint) : Decimal.nzhead u <> Decimal.D0 v.
Proof. induction u; simpl; try discriminate; assumption. Qed.

Lemma to_int_norm (z : Z) : Decimal.norm (Z.to_int z) = Z.to_int z.
Proof.
  rewrite <- DecimalZ.to_of, DecimalZ.of_to. reflexivity.
Qed.

Lemma string_of_uint_head (u : Decimal.uint) (s : string) :
  NilEmpty.string_of_uint u = String "0" s ->
  exists u', u = Decimal.D0 u' /\ s = NilEmpty.string_of_uint u'.
Proof.
  destruct u; simpl; intros Heq; try discriminate Heq.
  injection Heq as <-. eexists. split; reflexivity.
Qed.

Lemma string_of_uint_nil (u : Decimal.uint) :
  NilEmpty.string_of_uint u = EmptyString -> u = Decimal.Nil.
Proof. destruct u; simpl; intros Heq; try discriminate Heq; reflexivity. Qed.

(** A numeral has no leading zero: one that starts with ["0"] is ["0"]. *)
Lemma fmt_d_leading_zero (z : Z) (s : string) :
  fmt_d z = String "0" s -> s = EmptyString.
Proof.
  unfold fmt_d. pose proof (to_int_norm z) as Hnorm.
  destruct z as [|p|p]; simpl in *.
  - intros Heq. injection Heq as <-. reflexivity.
  - pose proof (DecimalPos.Unsigned.to_uint_nonnil p) as Hnil.
    destruct (Pos.to_uint p) as [|u|u|u|u|u|u|u|u|u|u] eqn:E;
      simpl; intros Heq; try discriminate Heq; [contradiction|].
    injection Heq as <-.
    injection Hnorm as Hnorm. rewrite DecimalFacts.unorm_D0 in Hnorm.
    unfold Decimal.unorm in Hnorm.
    destruct (Decimal.nzhead u) eqn:En; try discriminate Hnorm.
    + injection Hnorm as <-. reflexivity.
    + exfalso. exact (nzhead_not_D0 u _ En).
  - intros Heq. discriminate Heq.
Qed.

Lemma fmt_d_nonempty (z : Z) : fmt_d z <> EmptyString.
Proof.
  unfold fmt_d. destruct z as [|p|p]; simpl; try discriminate.
  pose proof (DecimalPos.Unsigned.to_uint_nonnil p) as Hnil.
  unfold NilZero.string_of_uint.
  destruct (Pos.to_uint p); simpl; discriminate.
Qed.

(** ['%02d'] is injective. *)
Lemma fmt_02d_inj (z z' : Z) : fmt_02d z = fmt_02d z' -> z = z'.
Proof.
  unfold fmt_02d.
  destruct (Nat.ltb_spec (String.length (fmt_d z)) 2) as [Hz|Hz];
    destruct (Nat.ltb_spec (String.length (fmt_d z')) 2) as [Hz'|Hz'];
    intros Heq.
  - apply fmt_d_inj. injection Heq as Heq. exact Heq.
  - exfalso. symmetry in Heq. apply fmt_d_leading_zero in Heq.
    exact (fmt_d_nonempty z Heq).
  - exfalso. apply fmt_d_leading_zero in Heq.
    exact (fmt_d_nonempty z' Heq).
  - apply fmt_d_inj. exact Heq.
Qed.

Lemma string_of_uint_no_slash (u : Decimal.uint) (c : ascii) :
  In c (list_ascii_of_string (NilEmpty.string_of_uint u)) -> c <> "/"%char.
Proof.
  induction u; simpl; intros Hin; try (destruct Hin as [<-|Hin];
    [discriminate | exact (IHu Hin)]).
  destruct Hin.
Qed.

Lemma fmt_d_no_slash (z : Z) (c : ascii) :
  In c (list_ascii_of_string (fmt_d z)) -> c <> "/"%char.
Proof.
  unfold fmt_d.
  assert (Hu : forall u, In c (list_ascii_of_string (NilZero.string_of_uint u))
                         -> c <> "/"%char).
  { intros u. unfold NilZero.string_of_uint.
    destruct u; simpl; intros [<-|Hin]; try discriminate;
      try exact (string_of_uint_no_slash u c Hin).
    destruct Hin. }
  destruct (Z.to_int z) as [u|u]; simpl.
  - exact (Hu u).
  - intros [<-|Hin]; [discriminate | exact (Hu u Hin)].
Qed.

Lemma fmt_02d_no_slash (z : Z) (c : ascii) :
  In c (list_ascii_of_string (fmt_02d z)) -> c <> "/"%char.
Proof.
  unfold fmt_02d. destruct (_ <? _)%nat; simpl.
  - intros [<-|Hin]; [discriminate | exact (fmt_d_no_slash z c Hin)].
  - exact (fmt_d_no_slash z c).
Qed.

Lemma split_sep_plain (s : string) :
  (forall c, In c (list_ascii_of_string s) -> c <> "/"%char) ->
  FS.split_sep s = [s].
Proof.
  induction s as [|c s IH]; simpl; intros Hc; [reflexivity|].
  destruct (Ascii.eqb_spec c "/") as [->|_].
  - exfalso. apply (Hc "/"%char); [left; reflexivity | reflexivity].
  - rewrite IH; [reflexivity|]. intros c' Hin. apply Hc. right. exact Hin.
Qed.

(** Joining a plain name adds exactly that component. *)
Lemma osp_join_plain (p : FS.path) (s : string) :
  FS.plain_name s -> FS.osp_join p s = p ++ [s].
Proof.
  intros (Hne & Hdot & _ & Hslash). unfold FS.osp_join.
  assert (Hc : FS.components s = [s]).
  { unfold FS.components. rewrite (split_sep_plain s Hslash). simpl.
    unfold FS.keeps_component.
    destruct (String.eqb_spec s ""); [contradiction|].
    destruct (String.eqb_spec s "."); [contradiction|]. reflexivity. }
  rewrite Hc. destruct s as [|c s]; [contradiction|].
  destruct (Ascii.eqb_spec c "/") as [->|Hc'].
  - exfalso. apply (Hslash "/"%char); [left; reflexivity | reflexivity].
  - destruct c as [[|] [|] [|] [|] [|] [|] [|] [|]]; try reflexivity.
    exfalso. apply Hc'. reflexivity.
Qed.

Lemma model_names_plain (m : string) : In m model_names -> FS.plain_name m.
Proof.
  unfold model_names. simpl. intros Hin.
  repeat (destruct Hin as [<-|Hin];
    [repeat split; try discriminate;
     simpl; intros c Hc;
     repeat (destruct Hc as [<-|Hc]; [discriminate|]); destruct Hc |]).
  destruct Hin.
Qed.

End PyFacts.

(* ===================================================================== *)
(** * Properties of the filesystem operations *)
(* ===================================================================== *)

Module FSFacts.
Import FS.

Section WithData.
Context {D : Type}.
Implicit Types (fs : FS.t D) (p q : path) (n m : node D).

Lemma path_eqb_true p q : path_eqb p q = true <-> p = q.
Proof. unfold path_eqb. apply bool_decide_eq_true. Qed.

Lemma path_eqb_false p q : path_eqb p q = false <-> p <> q.
Proof. unfold path_eqb. apply bool_decide_eq_false. Qed.

Lemma assoc_Some_in (l : list (path * node D)) p n :
  assoc l p = Some n -> In (p, n) l.
Proof.
  induction l as [|[q m] l IH]; simpl; [discriminate|].
  destruct (path_eqb q p) eqn:E.
  - apply path_eqb_true in E as ->. intros Heq. injection Heq as ->.
    left. reflexivity.
  - intros Heq. right. apply IH, Heq.
Qed.

Lemma assoc_in (l : list (path * node D)) p n :
  List.NoDup (map fst l) -> In (p, n) l -> assoc l p = Some n.
Proof.
  induction l as [|[q m] l IH]; simpl; intros Hnd Hin; [destruct Hin|].
  apply List.NoDup_cons_iff in Hnd as [Hq Hnd].
  destruct (path_eqb q p) eqn:E.
  - apply path_eqb_true in E as ->.
    destruct Hin as [Heq|Hin]; [injection Heq as ->; reflexivity|].
    exfalso. apply Hq. apply in_map_iff. exists (p, n). split; [reflexivity|].
    exact Hin.
  - apply path_eqb_false in E.
    destruct Hin as [Heq|Hin]; [injection Heq as -> _; contradiction|].
    apply IH; assumption.
Qed.

Lemma assoc_None (l : list (path * node D)) p :
  assoc l p = None <-> ~ In p (map fst l).
Proof.
  induction l as [|[q m] l IH]; simpl; [tauto|].
  destruct (path_eqb q p) eqn:E.
  - apply path_eqb_true in E as ->. split; [discriminate | tauto].
  - apply path_eqb_false in E. rewrite IH. tauto.
Qed.

Lemma lookup_has fs p n :
  wf fs -> p <> [] -> (lookup fs p = Some n <-> has fs p n).
Proof.
  intros [Hnd _] Hp. unfold lookup, has.
  destruct p as [|c p]; [contradiction|].
  split; [apply assoc_Some_in | apply assoc_in, Hnd].
Qed.

Lemma lookup_None fs p :
  p <> [] -> (lookup fs p = None <-> ~ In p (map fst (nodes fs))).
Proof.
  intros Hp. unfold lookup. destruct p as [|c p]; [contradiction|].
  apply assoc_None.
Qed.

Lemma has_in_paths fs p n : has fs p n -> In p (map fst (nodes fs)).
Proof.
  intros Hin. apply in_map_iff. exists (p, n). split; [reflexivity | exact Hin].
Qed.

Lemma has_functional fs p n m : wf fs -> has fs p n -> has fs p m -> n = m.
Proof.
  intros [Hnd _] Hn Hm.
  apply (assoc_in _ _ _ Hnd) in Hn. apply (assoc_in _ _ _ Hnd) in Hm.
  congruence.
Qed.

Lemma has_nonempty fs p n : wf fs -> has fs p n -> p <> [].
Proof.
  intros [_ Hroot] Hin ->. apply Hroot. apply (has_in_paths _ _ _ Hin).
Qed.

Lemma add_node_has fs p n q m :
  has (add_node fs p n) q m <-> has fs q m \/ (q = p /\ m = n).
Proof.
  unfold has, add_node. simpl. rewrite in_app_iff. simpl.
  split; intros [H|H]; try tauto.
  - destruct H as [H|[]]. injection H as -> ->. tauto.
  - destruct H as [-> ->]. tauto.
Qed.

Lemma add_node_wf fs p n :
  wf fs -> p <> [] -> lookup fs p = None -> wf (add_node fs p n).
Proof.
  intros [Hnd Hroot] Hp Hnone. apply (lookup_None _ _ Hp) in Hnone.
  unfold wf, add_node. simpl. rewrite map_app. simpl. split.
  - apply List.NoDup_app; [exact Hnd | repeat constructor; intros [] |].
    intros a Ha [<-|[]]. contradiction.
  - rewrite in_app_iff. simpl. intros [H|[H|[]]]; [tauto | congruence].
Qed.

Lemma replace_paths (l : list (path * node D)) p n :
  map fst (replace l p n) = map fst l.
Proof.
  induction l as [|[q m] l IH]; simpl; [reflexivity|].
  destruct (path_eqb q p); simpl; [reflexivity | rewrite IH; reflexivity].
Qed.

Lemma replace_in (l : list (path * node D)) p n q m :
  List.NoDup (map fst l) -> In p (map fst l) ->
  (In (q, m) (replace l p n) <->
   (q <> p /\ In (q, m) l) \/ (q = p /\ m = n)).
Proof.
  induction l as [|[q0 m0] l IH]; simpl; intros Hnd Hin; [destruct Hin|].
  apply List.NoDup_cons_iff in Hnd as [Hq0 Hnd].
  destruct (path_eqb q0 p) eqn:E.
  - apply path_eqb_true in E as ->. simpl. split.
    + intros [Heq|Hl]; [injection Heq as <- <-; tauto|].
      left. split; [|tauto]. intros ->. apply Hq0.
      apply in_map_iff. exists (p, m). split; [reflexivity | exact Hl].
    + intros [[Hne [Heq|Hl]]|[-> ->]]; [injection Heq as ->; tauto | tauto|].
      left. reflexivity.
  - apply path_eqb_false in E. simpl.
    destruct Hin as [Heq|Hin]; [contradiction|].
    rewrite (IH Hnd Hin). split.
    + intros [Heq|[H|H]]; [injection Heq as <- <-; tauto | tauto | tauto].
    + intros [[Hne [Heq|Hl]]|[-> ->]]; [tauto | tauto | tauto].
Qed.

(** What writing a file changes. *)
Lemma write_spec fs p d fs' :
  wf fs -> write fs p d = Ok fs' ->
  wf fs' /\ order fs' = order fs /\
  forall q m, has fs' q m <-> (q <> p /\ has fs q m) \/ (q = p /\ m = File d).
Proof.
  intros Hwf. unfold write.
  destruct (lookup fs (removelast p)) as [[|d0]|] eqn:Hparent;
    try discriminate.
  destruct (lookup fs p) as [[|d1]|] eqn:Hp; try discriminate;
    intros Heq; injection Heq as <-.
  - assert (Hne : p <> []) by (intros ->; discriminate Hp).
    apply (lookup_has _ _ _ Hwf Hne) in Hp.
    destruct Hwf as [Hnd Hroot]. split; [|split].
    + unfold wf. simpl. rewrite replace_paths. split; assumption.
    + reflexivity.
    + intros q m. unfold has. simpl.
      apply replace_in; [exact Hnd | apply (has_in_paths _ _ _ Hp)].
  - assert (Hne : p <> []) by (intros ->; discriminate Hp).
    split; [apply add_node_wf; assumption|]. split; [reflexivity|].
    intros q m. rewrite add_node_has. split.
    + intros [H|H]; [|tauto]. left. split; [|exact H]. intros ->.
      apply (lookup_None _ _ Hne) in Hp. apply Hp.
      apply (has_in_paths _ _ _ H).
    + tauto.
Qed.

Lemma write_ok fs p d :
  wf fs -> p <> [] -> lookup fs (removelast p) = Some Dir ->
  ~ has fs p Dir -> exists fs', write fs p d = Ok fs'.
Proof.
  intros Hwf Hne Hparent Hnd. unfold write. rewrite Hparent.
  destruct (lookup fs p) as [[|d1]|] eqn:Hp; eauto.
  exfalso. apply Hnd. apply (lookup_has _ _ _ Hwf Hne). exact Hp.
Qed.

(** What [ensure_dirs] changes, when no file is in its way. *)
Lemma ensure_dirs_spec (rest : list string) :
  forall pre fs,
  wf fs ->
  (forall j d, (0 < j <= length rest)%nat ->
               ~ has fs (pre ++ firstn j rest) (File d)) ->
  exists fs', ensure_dirs fs pre rest = Ok fs' /\ wf fs' /\
              order fs' = order fs /\
              forall q m, has fs' q m <->
                has fs q m \/
                (m = Dir /\ exists j, (0 < j <= length rest)%nat /\
                                      q = pre ++ firstn j rest).
Proof.
  induction rest as [|c rest IH]; intros pre fs Hwf Hfree; simpl.
  - exists fs. split; [reflexivity|]. split; [exact Hwf|].
    split; [reflexivity|]. intros q m. split; [tauto|].
    intros [H|(_ & j & Hj & _)]; [exact H | simpl in Hj; lia].
  - assert (Hq0 : pre ++ [c] <> []) by (destruct pre; discriminate).
    assert (Hshift : forall j, (pre ++ [c]) ++ firstn j rest =
                               pre ++ firstn (S j) (c :: rest)).
    { intros j. rewrite <- app_assoc. reflexivity. }
    destruct (lookup fs (pre ++ [c])) as [[|d0]|] eqn:Hlook.
    + apply (lookup_has _ _ _ Hwf Hq0) in Hlook.
      destruct (IH (pre ++ [c]) fs Hwf) as (fs' & Hok & Hwf' & Hord & Hhas).
      { intros j d Hj. rewrite Hshift. apply Hfree. simpl. lia. }
      exists fs'. split; [exact Hok|]. split; [exact Hwf'|].
      split; [exact Hord|]. intros q m. rewrite Hhas. split.
      * intros [H|(-> & j & Hj & ->)]; [tauto|]. right. split; [reflexivity|].
        exists (S j). split; [simpl; lia | apply Hshift].
      * intros [H|(-> & j & Hj & ->)]; [tauto|].
        destruct j as [|j]; [lia|]. destruct j as [|j].
        -- left. simpl. exact Hlook.
        -- right. split; [reflexivity|]. exists (S j).
           split; [simpl in Hj; lia | symmetry; apply Hshift].
    + exfalso. apply (lookup_has _ _ _ Hwf Hq0) in Hlook.
      apply (Hfree 1%nat d0); [simpl; lia | exact Hlook].
    + pose proof (add_node_wf fs (pre ++ [c]) Dir Hwf Hq0 Hlook) as Hwf1.
      destruct (IH (pre ++ [c]) (add_node fs (pre ++ [c]) Dir) Hwf1)
        as (fs' & Hok & Hwf' & Hord & Hhas).
      { intros j d Hj. rewrite add_node_has. intros [H|[_ H]]; [|discriminate H].
        rewrite Hshift in H. apply (Hfree (S j) d); [simpl; lia | exact H]. }
      exists fs'. split; [exact Hok|]. split; [exact Hwf'|].
      split; [exact Hord|]. intros q m. rewrite Hhas, add_node_has. split.
      * intros [[H|[-> ->]]|(-> & j & Hj & ->)]; [tauto | |].
        -- right. split; [reflexivity|]. exists 1%nat.
           split; [simpl; lia | reflexivity].
        -- right. split; [reflexivity|]. exists (S j).
           split; [simpl; lia | apply Hshift].
      * intros [H|(-> & j & Hj & ->)]; [tauto|].
        destruct j as [|j]; [lia|]. destruct j as [|j].
        -- left. right. split; reflexivity.
        -- right. split; [reflexivity|]. exists (S j).
           split; [simpl in Hj; lia | symmetry; apply Hshift].
Qed.

(** The entries of a directory are the last components of the nodes right
    below it. *)
Lemma child_of_Some p q x : child_of p q = Some x <-> q = p ++ [x].
Proof.
  revert q. induction p as [|c p IH]; intros q; simpl.
  - destruct q as [|y [|z q]]; split; intros H; try discriminate H;
      try (injection H as ->; reflexivity).
  - destruct q as [|y q]; [split; intros H; discriminate H|].
    destruct (String.eqb_spec c y) as [->|Hne].
    + rewrite IH. split; intros H; [rewrite H; reflexivity|].
      injection H as H. exact H.
    + split; intros H; [discriminate H | injection H as H _; congruence].
Qed.

Lemma children_in fs p x :
  In x (children fs p) <-> exists n, has fs (p ++ [x]) n.
Proof.
  unfold children, has. rewrite <- list_elem_of_In, list_elem_of_omap.
  split.
  - intros ([q n] & Hin & Hc). simpl in Hc. apply child_of_Some in Hc as ->.
    exists n. apply list_elem_of_In. exact Hin.
  - intros (n & Hin). exists (p ++ [x], n).
    split; [apply list_elem_of_In, Hin | apply child_of_Some; reflexivity].
Qed.

Lemma children_nodup fs p : wf fs -> List.NoDup (children fs p).
Proof.
  intros [Hnd _]. unfold children.
  induction (nodes fs) as [|[q n] l IH]; simpl; [constructor|].
  apply List.NoDup_cons_iff in Hnd as [Hq Hnd]. simpl in Hq.
  destruct (child_of p q) as [x|] eqn:Hc; [|apply IH, Hnd].
  apply child_of_Some in Hc as ->. constructor; [|apply IH, Hnd].
  intros Hin. apply list_elem_of_In, list_elem_of_omap in Hin
    as ([q' n'] & Hin & Hc').
  simpl in Hc'. apply child_of_Some in Hc' as ->. apply Hq.
  apply in_map_iff. exists (p ++ [x], n').
  split; [reflexivity | apply list_elem_of_In, Hin].
Qed.

End WithData.
End FSFacts.

(* ===================================================================== *)
(** * Properties of the result store and loader *)
(* ===================================================================== *)

Ltac plain_literal :=
  repeat split; try discriminate;
  simpl; intros ? Hc;
  repeat (destruct Hc as [<-|Hc]; [discriminate|]); destruct Hc.

Section StoreFacts.
Context `{Payloads} {D : Type} `{!Codec D}.
Import FS FSFacts PyFacts.

Lemma run_dir_name_plain (i : Z) : plain_name (run_dir_name i).
Proof.
  unfold run_dir_name. repeat split; try discriminate.
  simpl. intros c Hc.
  repeat (destruct Hc as [<-|Hc]; [discriminate|]).
  exact (fmt_02d_no_slash i c Hc).
Qed.

Lemma run_dir_name_inj (i j : Z) : run_dir_name i = run_dir_name j -> i = j.
Proof.
  unfold run_dir_name. simpl. intros Heq. injection Heq as Heq.
  apply fmt_02d_inj, Heq.
Qed.

Lemma write_files_spec (dir : path) (files : list (string * D)) :
  forall fs,
  wf fs -> dir <> [] -> has fs dir Dir ->
  List.NoDup (map fst files) ->
  (forall f, In f (map fst files) -> ~ has fs (dir ++ [f]) Dir) ->
  exists fs', write_files fs dir files = Ok fs' /\ wf fs' /\
              order fs' = order fs /\
              forall q m, has fs' q m <->
                ((forall f, In f (map fst files) -> q <> dir ++ [f]) /\
                 has fs q m) \/
                (exists f d, In (f, d) files /\ q = dir ++ [f] /\ m = File d).
Proof.
  induction files as [|[f d] files IH]; intros fs Hwf Hdir Hhas Hnd Hfree.
  - exists fs. split; [reflexivity|]. split; [exact Hwf|].
    split; [reflexivity|]. intros q m. split.
    + intros Hq. left. split; [intros f []|exact Hq].
    + intros [[_ Hq]|(f & d & [] & _)]. exact Hq.
  - simpl in Hnd. apply List.NoDup_cons_iff in Hnd as [Hf Hnd].
    assert (Hne : dir ++ [f] <> []) by (destruct dir; discriminate).
    destruct (write_ok fs (dir ++ [f]) d Hwf Hne) as (fs1 & Hw).
    { rewrite removelast_last. apply (lookup_has _ _ _ Hwf Hdir), Hhas. }
    { apply Hfree. left. reflexivity. }
    destruct (write_spec _ _ _ _ Hwf Hw) as (Hwf1 & Hord1 & Hhas1).
    destruct (IH fs1 Hwf1 Hdir) as (fs' & Hok & Hwf' & Hord' & Hhas').
    { apply Hhas1. left. split; [|exact Hhas].
      intros Heq. apply (f_equal (@length string)) in Heq.
      rewrite length_app in Heq. simpl in Heq. lia. }
    { exact Hnd. }
    { intros f' Hf' Hd. apply Hhas1 in Hd as [[_ Hd]|[_ Hd]];
        [|discriminate Hd].
      apply (Hfree f'); [right; exact Hf' | exact Hd]. }
    exists fs'. split; [unfold write_files; simpl; rewrite Hw; exact Hok|].
    split; [exact Hwf'|]. split; [congruence|].
    intros q m. rewrite Hhas'. simpl. split.
    + intros [[Hq Hin]|(f' & d' & Hin & -> & ->)].
      * apply Hhas1 in Hin as [[Hne1 Hin]|[-> ->]].
        -- left. split; [|exact Hin].
           intros f' [<-|Hf']; [exact Hne1 | apply Hq, Hf'].
        -- right. exists f, d. split; [left; reflexivity|].
           split; reflexivity.
      * right. exists f', d'. split; [right; exact Hin|]. split; reflexivity.
    + intros [[Hq Hin]|(f' & d' & [Heq|Hin] & -> & ->)].
      * left. split; [intros f' Hf'; apply Hq; right; exact Hf'|].
        apply Hhas1. left. split; [apply Hq; left; reflexivity | exact Hin].
      * injection Heq as <- <-. left. split.
        -- intros f' Hf' Heq. apply app_inj_tail in Heq as [_ Heq].
           subst f'. contradiction.
        -- apply Hhas1. right. split; reflexivity.
      * right. exists f', d'. split; [exact Hin|]. split; reflexivity.
Qed.

(** [_store_embrun_result], with its paths spelled out. *)
Lemma store_embrun_unfold (fs : FS.t D) (emb_dir : path) (r : RunResult) :
  plain_name (r_model r) ->
  let odir := emb_dir ++ [r_model r; run_dir_name (r_i r)] in
  _store_embrun_result fs emb_dir r =
  (fs1 <- (if exists_ fs odir then Ok fs else makedirs fs odir) ;;
   write_files fs1 odir (files_of r)).
Proof.
  intros Hm odir. unfold _store_embrun_result.
  rewrite (osp_join_plain _ _ Hm).
  rewrite (osp_join_plain _ _ (run_dir_name_plain (r_i r))).
  rewrite <- app_assoc. simpl app. fold odir.
  destruct (if exists_ fs odir then Ok fs else makedirs fs odir) as [fs1|e];
    [|reflexivity].
  simpl bind. unfold write_files, files_of. simpl for_each.
  repeat match goal with
  | |- context [components ?s] =>
      let v := eval vm_compute in (components s) in
      change (components s) with v
  end.
  do 4 (destruct (write _ _ _) as [?fs|?e]; [simpl bind | reflexivity]).
  destruct (write _ _ _); reflexivity.
Qed.

Lemma prefix_firstn (q p : path) :
  (exists j, (0 < j <= length p)%nat /\ q = firstn j p) <->
  (q <> [] /\ exists t, p = q ++ t).
Proof.
  split.
  - intros (j & Hj & ->). split.
    + intros Heq. apply (f_equal (@length string)) in Heq.
      rewrite length_firstn in Heq. simpl in Heq. lia.
    + exists (skipn j p). symmetry. apply firstn_skipn.
  - intros (Hq & t & ->). exists (length q). split.
    + rewrite length_app. destruct q; [contradiction | simpl; lia].
    + symmetry. apply take_app_length.
Qed.

Lemma path_of_length (rel : path) (sl : slot) :
  length (path_of rel sl) = (length rel + 3)%nat.
Proof. unfold path_of. rewrite length_app. reflexivity. Qed.

Lemma path_of_inj (rel : path) (sl sl' : slot) :
  path_of rel sl = path_of rel sl' -> sl = sl'.
Proof.
  unfold path_of. intros Heq. apply app_inv_head in Heq.
  destruct sl as [[a b] c], sl' as [[a' b'] c']. simpl in Heq.
  injection Heq as -> -> ->. reflexivity.
Qed.

Lemma path_of_nonempty (rel : path) (sl : slot) : path_of rel sl <> [].
Proof.
  intros Heq. apply (f_equal (@length string)) in Heq.
  rewrite path_of_length in Heq. simpl in Heq. lia.
Qed.

Lemma files_of_names (r : RunResult) :
  map fst (files_of r) =
  ["meta.json"; "train.tsv"; "test.tsv"; "pretrain-test.json";
   "randomvec-test.json"].
Proof. reflexivity. Qed.

Lemma files_of_names_nodup (r : RunResult) :
  List.NoDup (map fst (files_of r)).
Proof.
  rewrite files_of_names.
  repeat (constructor; [simpl; intuition discriminate|]). constructor.
Qed.

(** A node the content describes lies at most four levels below [rel]:
    directories down to the run directory, files right under it. *)
Lemma described_dir_length (rel : path) (c : content) (q : path) :
  described rel c q Dir -> (length q <= length rel + 3)%nat.
Proof.
  intros [(_ & _ & sl & r & _ & t & Heq)|(sl & r & f & d & _ & _ & _ & Hm)];
    [|discriminate Hm].
  apply (f_equal (@length string)) in Heq.
  rewrite path_of_length, length_app in Heq. lia.
Qed.

Lemma described_file_length (rel : path) (c : content) (q : path) (d : D) :
  described rel c q (File d) -> length q = (length rel + 4)%nat.
Proof.
  intros [(Hm & _)|(sl & r & f & d' & _ & _ & -> & _)]; [discriminate Hm|].
  rewrite length_app, path_of_length. simpl. lia.
Qed.

(** Making the run directory, when the filesystem holds a stored tree. *)
Lemma mkdir_step (rel : path) (fs : FS.t D) (c : content) (sl : slot) :
  Rep rel fs c ->
  let odir := path_of rel sl in
  exists fs1,
    (if exists_ fs odir then Ok fs else makedirs fs odir) = Ok fs1 /\
    wf fs1 /\ order fs1 = order fs /\
    forall q m, has fs1 q m <->
      has fs q m \/ (m = Dir /\ q <> [] /\ exists t, odir = q ++ t).
Proof.
  intros (Hwf & _ & Hdesc) odir.
  pose proof (path_of_nonempty rel sl : odir <> []) as Hne.
  destruct (exists_ fs odir) eqn:E.
  - unfold exists_ in E. destruct (lookup fs odir) as [n|] eqn:L;
      [clear E | discriminate E].
    apply (lookup_has _ _ _ Hwf Hne) in L. pose proof L as L'.
    apply Hdesc in L' as
      [(-> & _ & sl' & r' & Hc & t & Heq)|(sl' & r' & f & d & _ & _ & Heq & _)].
    + exists fs. split; [reflexivity|]. split; [exact Hwf|].
      split; [reflexivity|]. intros q m. split; [tauto|].
      intros [Hq|(-> & Hq & t' & Heq')]; [exact Hq|].
      apply Hdesc. left. split; [reflexivity|]. split; [exact Hq|].
      exists sl', r'. split; [exact Hc|]. exists (t' ++ t).
      rewrite Heq, Heq', <- app_assoc. reflexivity.
    + exfalso. apply (f_equal (@length string)) in Heq.
      unfold odir in Heq. rewrite length_app, !path_of_length in Heq.
      simpl in Heq. lia.
  - unfold makedirs. rewrite E.
    destruct (ensure_dirs_spec odir [] fs Hwf) as (fs1 & Hok & Hwf1 & Ho & Hh).
    { intros j d Hj Hhas. simpl in Hhas. apply Hdesc in Hhas.
      apply described_file_length in Hhas.
      rewrite length_firstn in Hhas. unfold odir in Hj.
      rewrite path_of_length in Hj. lia. }
    exists fs1. split; [exact Hok|]. split; [exact Hwf1|].
    split; [exact Ho|]. intros q m. rewrite Hh. simpl.
    split; (intros [Hq|[-> Hq]]; [left; exact Hq|right; split; [reflexivity|]]).
    + apply prefix_firstn, Hq.
    + apply prefix_firstn, Hq.
Qed.

Lemma upd_eq (c : content) (sl : slot) (r : RunResult) :
  upd c sl r sl = Some r.
Proof. unfold upd. destruct (decide (sl = sl)); [reflexivity | contradiction]. Qed.

Lemma upd_ne (c : content) (sl sl' : slot) (r : RunResult) :
  sl' <> sl -> upd c sl r sl' = c sl'.
Proof. unfold upd. intros Hne. destruct (decide (sl' = sl)); [contradiction | reflexivity]. Qed.

(** The tree described once one more run is stored. *)
Lemma described_upd (rel : path) (c : content) (sl : slot) (r : RunResult)
    (q : path) (m : node D) :
  described rel (upd c sl r) q m <->
  ((forall f, In f (map fst (files_of r)) -> q <> path_of rel sl ++ [f]) /\
   (described rel c q m \/
    (m = Dir /\ q <> [] /\ exists t, path_of rel sl = q ++ t))) \/
  (exists f d, In (f, d) (files_of r) /\ q = path_of rel sl ++ [f] /\
               m = File d).
Proof.
  split.
  - intros [(-> & Hq & sl' & r' & Hc & t & Heq)
           |(sl' & r' & f & d & Hc & Hin & -> & ->)].
    + left. split.
      * intros f _ ->. apply (f_equal (@length string)) in Heq.
        rewrite !length_app, !path_of_length in Heq. simpl in Heq. lia.
      * destruct (decide (sl' = sl)) as [->|Hne].
        -- right. split; [reflexivity|]. split; [exact Hq|]. exists t. exact Heq.
        -- left. left. rewrite (upd_ne _ _ _ _ Hne) in Hc.
           split; [reflexivity|]. split; [exact Hq|]. exists sl', r'.
           split; [exact Hc|]. exists t. exact Heq.
    + destruct (decide (sl' = sl)) as [->|Hne].
      * rewrite upd_eq in Hc. injection Hc as ->. right. exists f, d.
        split; [exact Hin|]. split; reflexivity.
      * rewrite (upd_ne _ _ _ _ Hne) in Hc. left. split.
        -- intros f' _ Heq. apply app_inj_tail in Heq as [Heq _].
           apply path_of_inj in Heq. contradiction.
        -- left. right. exists sl', r', f, d.
           split; [exact Hc|]. split; [exact Hin|]. split; reflexivity.
  - intros [[Hq [Hd|(-> & Hne & t & Heq)]]|(f & d & Hin & -> & ->)].
    + destruct Hd as [(-> & Hne & sl' & r' & Hc & t & Heq)
                     |(sl' & r' & f & d & Hc & Hin & -> & ->)].
      * left. split; [reflexivity|]. split; [exact Hne|].
        destruct (decide (sl' = sl)) as [->|Hsl].
        -- exists sl, r. split; [apply upd_eq|]. exists t. exact Heq.
        -- exists sl', r'. split; [rewrite upd_ne by exact Hsl; exact Hc|].
           exists t. exact Heq.
      * destruct (decide (sl' = sl)) as [->|Hsl].
        -- exfalso. apply (Hq f); [|reflexivity].
           rewrite files_of_names, <- (files_of_names r').
           apply in_map_iff. exists (f, d). split; [reflexivity | exact Hin].
        -- right. exists sl', r', f, d.
           split; [rewrite upd_ne by exact Hsl; exact Hc|].
           split; [exact Hin|]. split; reflexivity.
    + left. split; [reflexivity|]. split; [exact Hne|].
      exists sl, r. split; [apply upd_eq|]. exists t. exact Heq.
    + right. exists sl, r, f, d. split; [apply upd_eq|].
      split; [exact Hin|]. split; reflexivity.
Qed.

(** Storing one run keeps the filesystem a stored tree, with the run in
    its slot. *)
Lemma store_run_spec (rel : path) (fs : FS.t D) (c : content)
    (emb : string) (r : RunResult) :
  Rep rel fs c -> plain_name emb -> plain_name (r_model r) ->
  exists fs',
    _store_embrun_result fs (rel ++ [emb]) r = Ok fs' /\
    order fs' = order fs /\
    Rep rel fs' (upd c (slot_of emb r) r).
Proof.
  intros HRep Hemb Hmodel.
  rewrite (store_embrun_unfold fs (rel ++ [emb]) r Hmodel). cbv zeta.
  replace ((rel ++ [emb]) ++ [r_model r; run_dir_name (r_i r)])
    with (path_of rel (slot_of emb r))
    by (unfold path_of, slot_of; simpl; rewrite <- app_assoc; reflexivity).
  set (sl := slot_of emb r).
  destruct (mkdir_step rel fs c sl HRep) as (fs1 & Hmk & Hwf1 & Hord1 & Hhas1).
  rewrite Hmk. set (odir := path_of rel sl) in *.
  destruct HRep as (Hwf & Hgood & Hdesc). simpl bind.
  pose proof (path_of_nonempty rel sl : odir <> []) as Hne.
  destruct (write_files_spec odir (files_of r) fs1 Hwf1 Hne)
    as (fs' & Hok & Hwf' & Hord' & Hhas').
  { apply Hhas1. right. split; [reflexivity|]. split; [exact Hne|].
    exists []. symmetry. apply app_nil_r. }
  { apply files_of_names_nodup. }
  { intros f _ Hd. apply Hhas1 in Hd as [Hd|(_ & _ & t & Heq)].
    - apply Hdesc, described_dir_length in Hd. unfold odir in Hd.
      rewrite length_app, path_of_length in Hd. simpl in Hd. lia.
    - apply (f_equal (@length string)) in Heq.
      rewrite !length_app in Heq. simpl in Heq. lia. }
  exists fs'. split; [exact Hok|]. split; [congruence|].
  split; [exact Hwf'|]. split.
  - intros sl' r' Hc. destruct (decide (sl' = sl)) as [->|Hsl].
    + rewrite upd_eq in Hc. injection Hc as <-. exists emb.
      split; [reflexivity|]. split; assumption.
    + rewrite upd_ne in Hc by exact Hsl. apply (Hgood _ _ Hc).
  - intros q m. rewrite Hhas', described_upd. fold odir.
    split; (intros [[Hq Hin]|Hfile]; [left; split; [exact Hq|] | right; exact Hfile]).
    + apply Hhas1 in Hin as [Hin|Hin]; [left; apply Hdesc, Hin | right; exact Hin].
    + apply Hhas1. destruct Hin as [Hin|Hin];
        [left; apply Hdesc, Hin | right; exact Hin].
Qed.

Lemma Rep_empty (rel : path) (ord : list string -> list string) :
  Rep rel (FS.empty ord) no_content.
Proof.
  split; [split; [constructor | intros []]|]. split.
  - intros sl r Hc. discriminate Hc.
  - intros q m. split; [intros []|].
    intros [(_ & _ & sl & r & Hc & _)|(sl & r & f & d & Hc & _)];
      discriminate Hc.
Qed.

Lemma store_runs_spec (rel : path) (emb : string) (runs : list RunResult) :
  forall (fs : FS.t D) (c : content),
  Rep rel fs c -> plain_name emb ->
  (forall r, In r runs -> plain_name (r_model r)) ->
  exists fs',
    for_each (fun fs r => _store_embrun_result fs (osp_join rel emb) r)
      runs fs = Ok fs' /\
    order fs' = order fs /\ Rep rel fs' (store_runs c emb runs).
Proof.
  induction runs as [|r runs IH]; intros fs c HRep Hemb Hmodels.
  - exists fs. split; [reflexivity|]. split; [reflexivity | exact HRep].
  - destruct (store_run_spec rel fs c emb r HRep Hemb)
      as (fs1 & Hstore & Hord1 & HRep1).
    { apply Hmodels. left. reflexivity. }
    destruct (IH fs1 _ HRep1 Hemb) as (fs' & Hok & Hord' & HRep').
    { intros r' Hr'. apply Hmodels. right. exact Hr'. }
    exists fs'. split; [|split; [congruence | exact HRep']].
    simpl. rewrite (osp_join_plain _ _ Hemb) in *. rewrite Hstore. exact Hok.
Qed.

Lemma store_keys_spec (rel : path) (emr : dict (list RunResult))
    (keys : list string) :
  forall (fs : FS.t D) (c : content),
  Rep rel fs c ->
  (forall emb, In emb keys -> plain_name emb) ->
  (forall emb runs r, dict_get emr emb = Some runs -> In r runs ->
                      plain_name (r_model r)) ->
  exists fs',
    for_each
      (fun fs emb =>
         for_each (fun fs r => _store_embrun_result fs (osp_join rel emb) r)
           (default [] (dict_get emr emb)) fs) keys fs = Ok fs' /\
    order fs' = order fs /\
    Rep rel fs'
      (fold_left
         (fun c emb => store_runs c emb (default [] (dict_get emr emb)))
         keys c).
Proof.
  induction keys as [|emb keys IH]; intros fs c HRep Hkeys Hmodels.
  - exists fs. split; [reflexivity|]. split; [reflexivity | exact HRep].
  - destruct (store_runs_spec rel emb (default [] (dict_get emr emb)) fs c HRep)
      as (fs1 & Hstore & Hord1 & HRep1).
    { apply Hkeys. left. reflexivity. }
    { intros r Hr. destruct (dict_get emr emb) as [runs|] eqn:E;
        [|destruct Hr]. apply (Hmodels emb runs r E Hr). }
    destruct (IH fs1 _ HRep1) as (fs' & Hok & Hord' & HRep').
    { intros emb' Hin. apply Hkeys. right. exact Hin. }
    { exact Hmodels. }
    exists fs'. split; [|split; [congruence | exact HRep']].
    simpl. rewrite Hstore. exact Hok.
Qed.

(** Storing a result into an empty filesystem gives the tree of its
    content. *)
Lemma store_learn_result_spec (ord : list string -> list string)
    (dir_path : path) (res : LearnResult) :
  (forall emb, In emb (dict_keys (emb_model_results res)) -> plain_name emb) ->
  (forall emb runs r, dict_get (emb_model_results res) emb = Some runs ->
                      In r runs -> plain_name (r_model r)) ->
  exists fs',
    store_learn_result (FS.empty ord) dir_path res = Ok fs' /\
    order fs' = ord /\
    Rep (osp_join (osp_join dir_path (rel_type res)) (rel_name res)) fs'
      (store_all no_content (emb_model_results res)).
Proof.
  intros Hkeys Hmodels. unfold store_learn_result, store_all.
  apply (store_keys_spec _ _ _ (FS.empty ord) no_content);
    [apply Rep_empty | exact Hkeys | exact Hmodels].
Qed.

(** What ends up in a slot. *)
Lemma store_runs_some (emb : string) (runs : list RunResult) :
  forall (c : content) (sl : slot) (r : RunResult),
  store_runs c emb runs sl = Some r ->
  c sl = Some r \/ (In r runs /\ sl = slot_of emb r).
Proof.
  induction runs as [|r0 runs IH]; intros c sl r Hc; [left; exact Hc|].
  simpl in Hc. apply IH in Hc as [Hc|[Hin Hsl]].
  - unfold upd in Hc. destruct (decide (sl = slot_of emb r0)) as [->|_].
    + injection Hc as ->. right. split; [left; reflexivity | reflexivity].
    + left. exact Hc.
  - right. split; [right; exact Hin | exact Hsl].
Qed.

Lemma store_runs_other (emb : string) (runs : list RunResult) :
  forall (c : content) (sl : slot),
  fst (fst sl) <> emb -> store_runs c emb runs sl = c sl.
Proof.
  induction runs as [|r0 runs IH]; intros c sl Hne; [reflexivity|].
  simpl. rewrite IH by exact Hne. apply upd_ne.
  intros ->. apply Hne. reflexivity.
Qed.

Lemma store_runs_kept (emb : string) (runs : list RunResult) :
  forall (c : content) (sl : slot),
  is_Some (c sl) -> is_Some (store_runs c emb runs sl).
Proof.
  induction runs as [|r0 runs IH]; intros c sl Hc; [exact Hc|].
  simpl. apply IH. unfold upd. destruct (decide _); [eauto | exact Hc].
Qed.

Lemma store_runs_present (emb : string) (runs : list RunResult) :
  forall (c : content) (r : RunResult),
  In r runs -> is_Some (store_runs c emb runs (slot_of emb r)).
Proof.
  induction runs as [|r0 runs IH]; intros c r Hin; [destruct Hin|].
  simpl. destruct Hin as [->|Hin]; [|apply IH, Hin].
  apply store_runs_kept. rewrite upd_eq. eauto.
Qed.

Lemma store_runs_unique (emb : string) (runs : list RunResult) :
  forall (c : content) (r : RunResult),
  List.NoDup (map (slot_of emb) runs) -> In r runs ->
  store_runs c emb runs (slot_of emb r) = Some r.
Proof.
  induction runs as [|r0 runs IH]; intros c r Hnd Hin; [destruct Hin|].
  simpl in Hnd. apply List.NoDup_cons_iff in Hnd as [Hr0 Hnd].
  simpl. destruct Hin as [->|Hin]; [|apply IH; assumption].
  destruct (store_runs (upd c (slot_of emb r) r) emb runs (slot_of emb r))
    as [r'|] eqn:E.
  - apply store_runs_some in E as [E|[Hin' Hsl]].
    + rewrite upd_eq in E. symmetry. exact E.
    + exfalso. apply Hr0. rewrite Hsl. apply in_map. exact Hin'.
  - pose proof (store_runs_kept emb runs (upd c (slot_of emb r) r)
                  (slot_of emb r)) as Hk.
    rewrite upd_eq, E in Hk. destruct (Hk (mk_is_Some _ _ eq_refl)) as [x Hx].
    discriminate Hx.
Qed.

Lemma stored_keys_some (emr : dict (list RunResult)) (keys : list string) :
  forall (c : content) (sl : slot) (r : RunResult),
  stored_keys emr keys c sl = Some r ->
  c sl = Some r \/
  exists emb, In emb keys /\ In r (default [] (dict_get emr emb)) /\
              sl = slot_of emb r.
Proof.
  induction keys as [|k keys IH]; intros c sl r Hc; [left; exact Hc|].
  simpl in Hc. apply IH in Hc as [Hc|(emb & Hin & Hr & Hsl)].
  - apply store_runs_some in Hc as [Hc|[Hr Hsl]]; [left; exact Hc|].
    right. exists k. split; [left; reflexivity|]. split; assumption.
  - right. exists emb. split; [right; exact Hin|]. split; assumption.
Qed.

Lemma stored_keys_kept (emr : dict (list RunResult)) (keys : list string) :
  forall (c : content) (sl : slot),
  is_Some (c sl) -> is_Some (stored_keys emr keys c sl).
Proof.
  induction keys as [|k keys IH]; intros c sl Hc; [exact Hc|].
  simpl. apply IH, store_runs_kept, Hc.
Qed.

Lemma stored_keys_present (emr : dict (list RunResult)) (keys : list string) :
  forall (c : content) (emb : string) (r : RunResult),
  In emb keys -> In r (default [] (dict_get emr emb)) ->
  is_Some (stored_keys emr keys c (slot_of emb r)).
Proof.
  induction keys as [|k keys IH]; intros c emb r Hin Hr; [destruct Hin|].
  simpl. destruct Hin as [->|Hin]; [|apply IH; assumption].
  apply stored_keys_kept, store_runs_present, Hr.
Qed.

Lemma stored_keys_other (emr : dict (list RunResult)) (keys : list string) :
  forall (c : content) (sl : slot),
  ~ In (fst (fst sl)) keys -> stored_keys emr keys c sl = c sl.
Proof.
  induction keys as [|k keys IH]; intros c sl Hout; [reflexivity|].
  simpl. rewrite IH by (intros Hin; apply Hout; right; exact Hin).
  apply store_runs_other. intros Heq. apply Hout. left. symmetry. exact Heq.
Qed.

Lemma stored_keys_unique (emr : dict (list RunResult)) (keys : list string) :
  forall (c : content) (emb : string) (r : RunResult),
  List.NoDup keys -> In emb keys ->
  List.NoDup (map (slot_of emb) (default [] (dict_get emr emb))) ->
  In r (default [] (dict_get emr emb)) ->
  stored_keys emr keys c (slot_of emb r) = Some r.
Proof.
  induction keys as [|k keys IH]; intros c emb r Hnd Hin Hslots Hr;
    [destruct Hin|].
  apply List.NoDup_cons_iff in Hnd as [Hk Hnd]. simpl.
  destruct Hin as [->|Hin]; [|apply IH; assumption].
  rewrite stored_keys_other by exact Hk.
  apply store_runs_unique; assumption.
Qed.

(** Reading a stored run directory gives back the run in its slot. *)
Lemma load_embrun_spec `{!CodecRoundTrip D} (rel : path) (fs : FS.t D)
    (c : content) (sl : slot) (r : RunResult) :
  Rep rel fs c -> c sl = Some r ->
  _load_embrun_result fs (path_of rel sl) = Ok r.
Proof.
  intros (Hwf & _ & Hdesc) Hc.
  assert (Hread : forall f d, In (f, d) (files_of r) ->
                    read fs (path_of rel sl ++ [f]) = Ok d).
  { intros f d Hin. unfold read.
    assert (Hne : path_of rel sl ++ [f] <> [])
      by (destruct (path_of rel sl); discriminate).
    assert (Hhas : has fs (path_of rel sl ++ [f]) (File d)).
    { apply Hdesc. right. exists sl, r, f, d.
      split; [exact Hc|]. split; [exact Hin|]. split; reflexivity. }
    apply (lookup_has _ _ _ Hwf Hne) in Hhas. rewrite Hhas. reflexivity. }
  unfold _load_embrun_result, osp_join.
  repeat match goal with
  | |- context [components ?s] =>
      let v := eval vm_compute in (components s) in
      change (components s) with v
  end.
  cbv iota.
  rewrite (Hread "meta.json" (json_dump_meta (meta_of r)))
    by (simpl; tauto).
  rewrite (Hread "train.tsv" (to_csv (r_trainer_df r))) by (simpl; tauto).
  rewrite (Hread "test.tsv" (to_csv (r_test_df r))) by (simpl; tauto).
  rewrite (Hread "pretrain-test.json" (json_dump (r_pretrain_test_result r)))
    by (simpl; tauto).
  rewrite (Hread "randomvec-test.json" (json_dump (r_test_random_result r)))
    by (simpl; tauto).
  simpl bind.
  rewrite meta_round_trip, !csv_round_trip, !json_round_trip. simpl bind.
  destruct r; reflexivity.
Qed.

(** The sub-directories of a directory all of whose entries have plain
    names. *)
Lemma list_subdirs_spec (fs : FS.t D) (p : path) :
  wf fs -> lists_all fs -> lookup fs p = Some Dir ->
  (forall x n, has fs (p ++ [x]) n -> plain_name x) ->
  exists l, list_subdirs fs p = Ok l /\ List.NoDup l /\
            forall x, In x l <-> has fs (p ++ [x]) Dir.
Proof.
  intros Hwf Hord Hdir Hplain. unfold list_subdirs, listdir. rewrite Hdir.
  simpl bind. eexists. split; [reflexivity|].
  pose proof (Hord (children fs p)) as Hperm. split.
  - apply List.NoDup_filter.
    apply (Permutation_NoDup (Permutation_sym Hperm)).
    apply children_nodup, Hwf.
  - intros x. rewrite filter_In. split.
    + intros [Hin Hd]. apply (Permutation_in _ Hperm) in Hin.
      apply children_in in Hin as (n & Hn).
      rewrite (osp_join_plain _ _ (Hplain x n Hn)) in Hd.
      unfold isdir in Hd.
      destruct (lookup fs (p ++ [x])) as [[|d]|] eqn:L; try discriminate Hd.
      apply (lookup_has _ _ _ Hwf); [destruct p; discriminate | exact L].
    + intros Hhas. split.
      * apply (Permutation_in _ (Permutation_sym Hperm)).
        apply children_in. exists Dir. exact Hhas.
      * rewrite (osp_join_plain _ _ (Hplain x Dir Hhas)). unfold isdir.
        apply (lookup_has _ _ _ Hwf) in Hhas; [|destruct p; discriminate].
        rewrite Hhas. reflexivity.
Qed.

Lemma comps_plain (c : content) (sl : slot) (r : RunResult) (x : string) :
  good_content c -> c sl = Some r -> In x (comps sl) -> plain_name x.
Proof.
  intros Hgood Hc Hin. destruct (Hgood sl r Hc) as (emb & -> & Hemb & Hmodel).
  unfold comps, slot_of in Hin. simpl in Hin.
  destruct Hin as [<-|[<-|[<-|[]]]];
    [exact Hemb | exact Hmodel | apply run_dir_name_plain].
Qed.

(** The sub-directories at a level above the run directories: the next
    components of the slots that pass through it. *)
Lemma subdirs_level (rel : path) (fs : FS.t D) (c : content)
    (pre : list string) :
  Rep rel fs c -> lists_all fs ->
  (exists sl r t, c sl = Some r /\ comps sl = pre ++ t /\ t <> []) ->
  exists l, list_subdirs fs (rel ++ pre) = Ok l /\ List.NoDup l /\
            forall x, In x l <->
                      exists sl r t, c sl = Some r /\ comps sl = pre ++ x :: t.
Proof.
  intros (Hwf & Hgood & Hdesc) Hord (sl & r & t & Hc & Hcomps & Ht).
  assert (Hdir : lookup fs (rel ++ pre) = Some Dir).
  { destruct (rel ++ pre) as [|a l] eqn:E; [reflexivity|]. rewrite <- E.
    apply (lookup_has _ _ _ Hwf); [rewrite E; discriminate|].
    apply Hdesc. left. split; [reflexivity|]. split; [rewrite E; discriminate|].
    exists sl, r. split; [exact Hc|]. exists t.
    unfold path_of. fold (comps sl). rewrite Hcomps, app_assoc. reflexivity. }
  assert (Hnode : forall x n, has fs ((rel ++ pre) ++ [x]) n ->
            n = Dir /\
            exists sl' r' t', c sl' = Some r' /\ comps sl' = pre ++ x :: t').
  { intros x n Hhas. apply Hdesc in Hhas
      as [(-> & _ & sl' & r' & Hc' & t' & Heq)
         |(sl' & r' & f & d & Hc' & _ & Heq & _)].
    - split; [reflexivity|]. exists sl', r', t'. split; [exact Hc'|].
      unfold path_of in Heq. fold (comps sl') in Heq.
      rewrite <- !app_assoc in Heq. apply app_inv_head in Heq. exact Heq.
    - exfalso. apply app_inj_tail in Heq as [Heq _].
      unfold path_of in Heq. fold (comps sl') in Heq.
      apply app_inv_head in Heq.
      apply (f_equal (@length string)) in Heq, Hcomps.
      rewrite length_app in Hcomps. simpl in Heq, Hcomps.
      destruct t; [contradiction | simpl in Hcomps; lia]. }
  destruct (list_subdirs_spec fs (rel ++ pre) Hwf Hord Hdir)
    as (l & Hl & Hnd & Hin).
  { intros x n Hhas. destruct (Hnode x n Hhas) as (_ & sl' & r' & t' & Hc' & Heq).
    apply (comps_plain c sl' r' x Hgood Hc'). rewrite Heq.
    apply in_or_app. right. left. reflexivity. }
  exists l. split; [exact Hl|]. split; [exact Hnd|]. intros x.
  rewrite Hin. split.
  - intros Hhas. apply (Hnode x Dir Hhas).
  - intros (sl' & r' & t' & Hc' & Heq). apply Hdesc. left.
    split; [reflexivity|]. split; [destruct (rel ++ pre); discriminate|].
    exists sl', r'. split; [exact Hc'|]. exists t'.
    unfold path_of. fold (comps sl'). rewrite Heq, <- !app_assoc. reflexivity.
Qed.

Lemma first_pos_app (pos : option Z) (l1 l2 : list Z) :
  first_pos pos (l1 ++ l2) = first_pos (first_pos pos l1) l2.
Proof. unfold first_pos. apply fold_left_app. Qed.

(** The loop over run directories, each of which loads. *)
Lemma load_runs_spec (fs : FS.t D) (dir : path) (runs : list string)
    (rs : list RunResult) :
  Forall2 (fun d r => _load_embrun_result fs (osp_join dir d) = Ok r) runs rs ->
  forall st,
  load_runs fs dir runs st =
  Ok (fst st ++ rs, first_pos (snd st) (map r_pos_exs rs)).
Proof.
  induction 1 as [|d r runs rs Hd _ IH]; intros st; unfold load_runs in *.
  - simpl. rewrite app_nil_r. destruct st; reflexivity.
  - simpl for_each. rewrite Hd. simpl bind. rewrite IH. simpl.
    rewrite <- app_assoc. reflexivity.
Qed.

(** The loop over model directories. *)
Lemma load_models_spec (fs : FS.t D) (emb_dir : path) (models : list string)
    (rss : list (list RunResult)) :
  Forall2
    (fun m rs => exists runs,
       list_subdirs fs (osp_join emb_dir m) = Ok runs /\
       Forall2 (fun d r =>
                  _load_embrun_result fs (osp_join (osp_join emb_dir m) d)
                  = Ok r) runs rs)
    models rss ->
  forall st,
  load_models fs emb_dir models st =
  Ok (fst st ++ concat rss, first_pos (snd st) (map r_pos_exs (concat rss))).
Proof.
  induction 1 as [|m rs models rss (runs & Hruns & Hrs) _ IH]; intros st;
    unfold load_models in *.
  - simpl. rewrite app_nil_r. destruct st; reflexivity.
  - simpl for_each. rewrite Hruns. simpl bind.
    rewrite (load_runs_spec _ _ _ _ Hrs). simpl bind. rewrite IH. simpl.
    rewrite <- app_assoc, map_app, first_pos_app. reflexivity.
Qed.

Lemma dict_set_fresh {V : Type} (d : dict V) (k : string) (v : V) :
  ~ In k (dict_keys d) -> dict_set d k v = d ++ [(k, v)].
Proof.
  induction d as [|[k' v'] d IH]; simpl; intros Hout; [reflexivity|].
  destruct (String.eqb_spec k' k) as [->|_]; [tauto|].
  rewrite IH by tauto. reflexivity.
Qed.

(** The loop over embedding directories. *)
Lemma load_embs_spec (fs : FS.t D) (rel_dir : path) (embs : list string)
    (rsk : list (list RunResult)) :
  Forall2 (emb_loaded fs rel_dir) embs rsk ->
  forall (acc : dict (list RunResult)) (pos : option Z),
  List.NoDup (dict_keys acc ++ embs) ->
  for_each
    (fun st emb =>
       let emb_dir := osp_join rel_dir emb in
       models <- list_subdirs fs emb_dir ;;
       st' <- load_models fs emb_dir models ([], snd st) ;;
       Ok (dict_set (fst st) emb (fst st'), snd st'))
    embs (acc, pos) =
  Ok (acc ++ combine embs rsk,
      first_pos pos (map r_pos_exs (concat rsk))).
Proof.
  induction 1 as [|k rs embs rsk (models & rss & Hm & Hrss & ->) _ IH];
    intros acc pos Hnd.
  - simpl. rewrite app_nil_r. reflexivity.
  - simpl for_each. rewrite Hm. simpl bind.
    rewrite (load_models_spec _ _ _ _ Hrss). simpl bind.
    rewrite dict_set_fresh.
    2:{ intros Hin. apply List.NoDup_app_remove_r in Hnd as Hacc.
        clear -Hnd Hin. induction (dict_keys acc) as [|a l IHl];
          [destruct Hin|].
        simpl in Hnd. apply List.NoDup_cons_iff in Hnd as [Ha Hnd].
        destruct Hin as [->|Hin]; [|apply IHl; assumption].
        apply Ha. apply in_or_app. right. left. reflexivity. }
    rewrite IH.
    + simpl. rewrite <- app_assoc, map_app, first_pos_app. reflexivity.
    + unfold dict_keys in *. rewrite map_app, <- app_assoc. exact Hnd.
Qed.

Lemma forall2_exists {A B : Type} (P : A -> B -> Prop) (l : list A) :
  (forall x, In x l -> exists y, P x y) -> exists ys, Forall2 P l ys.
Proof.
  induction l as [|x l IH]; intros Hall; [exists []; constructor|].
  destruct (Hall x (or_introl eq_refl)) as (y & Hy).
  destruct IH as (ys & Hys); [intros z Hz; apply Hall; right; exact Hz|].
  exists (y :: ys). constructor; assumption.
Qed.

Lemma forall2_in_l {A B : Type} (P : A -> B -> Prop) (l : list A)
    (l' : list B) (x : A) :
  Forall2 P l l' -> In x l -> exists y, In y l' /\ P x y.
Proof.
  induction 1 as [|a b l l' Hab _ IH]; intros Hin; [destruct Hin|].
  destruct Hin as [->|Hin]; [exists b; split; [left; reflexivity | exact Hab]|].
  destruct (IH Hin) as (y & Hy & HP). exists y. split; [right; exact Hy | exact HP].
Qed.

Lemma forall2_in_r {A B : Type} (P : A -> B -> Prop) (l : list A)
    (l' : list B) (y : B) :
  Forall2 P l l' -> In y l' -> exists x, In x l /\ P x y.
Proof.
  induction 1 as [|a b l l' Hab _ IH]; intros Hin; [destruct Hin|].
  destruct Hin as [->|Hin]; [exists a; split; [left; reflexivity | exact Hab]|].
  destruct (IH Hin) as (x & Hx & HP). exists x. split; [right; exact Hx | exact HP].
Qed.

Lemma nodup_map_pair {A B : Type} (a : A) (l : list B) :
  List.NoDup l -> List.NoDup (map (pair a) l).
Proof.
  induction 1 as [|b l Hb _ IH]; simpl; constructor; [|exact IH].
  intros Hin. apply in_map_iff in Hin as (b' & Heq & Hin).
  injection Heq as ->. contradiction.
Qed.

Lemma nodup_concat_folders (models : list string)
    (rss : list (list RunResult)) :
  Forall2 (fun m rs => exists runs, List.NoDup runs /\
                                    map folders rs = map (pair m) runs)
    models rss ->
  List.NoDup models ->
  List.NoDup (map folders (concat rss)) /\
  forall x, In x (map folders (concat rss)) -> In (fst x) models.
Proof.
  induction 1 as [|m rs models rss (runs & Hruns & Hmap) _ IH]; intros Hnd.
  - split; [constructor | intros x []].
  - apply List.NoDup_cons_iff in Hnd as [Hm Hnd].
    destruct (IH Hnd) as (IHnd & IHin). simpl. rewrite map_app, Hmap. split.
    + apply List.NoDup_app; [apply nodup_map_pair, Hruns | exact IHnd|].
      intros x Hx Hx'. apply in_map_iff in Hx as (d & <- & _).
      apply IHin in Hx'. simpl in Hx'. contradiction.
    + intros x Hx. apply in_app_or in Hx as [Hx|Hx].
      * apply in_map_iff in Hx as (d & <- & _). left. reflexivity.
      * right. apply IHin, Hx.
Qed.

Lemma comps_cons3 (sl : slot) (a b d : string) :
  comps sl = [a; b; d] -> sl = (a, b, d).
Proof.
  destruct sl as [[x y] z]. unfold comps. simpl.
  intros Heq. injection Heq as -> -> ->. reflexivity.
Qed.

(** One embedding directory of a stored tree loads, and gives the runs of
    its slots. *)
Lemma emb_loaded_spec `{!CodecRoundTrip D} (rel : path) (fs : FS.t D)
    (c : content) (emb : string) :
  Rep rel fs c -> lists_all fs ->
  (exists m d r, c (emb, m, d) = Some r) ->
  exists rs, emb_loaded fs rel emb rs /\ emb_stored c emb rs.
Proof.
  intros HRep Hord (m0 & d0 & r0 & Hc0).
  pose proof HRep as (Hwf & Hgood & Hdesc).
  assert (Hemb : plain_name emb).
  { apply (comps_plain c _ r0 emb Hgood Hc0). left. reflexivity. }
  destruct (subdirs_level rel fs c [emb] HRep Hord)
    as (models & Hmodels & Hnd_models & Hin_models).
  { exists (emb, m0, d0), r0, [m0; d0]. split; [exact Hc0|].
    split; [reflexivity | discriminate]. }
  assert (Hper_model : forall m, In m models ->
    exists rs, (exists runs,
       list_subdirs fs (osp_join (osp_join rel emb) m) = Ok runs /\
       Forall2 (fun d r =>
                  _load_embrun_result fs
                    (osp_join (osp_join (osp_join rel emb) m) d) = Ok r)
         runs rs) /\
      (exists runs, List.NoDup runs /\
         (forall d, In d runs <-> exists r, c (emb, m, d) = Some r) /\
         Forall2 (fun d r => c (emb, m, d) = Some r) runs rs)).
  { intros m Hm. apply Hin_models in Hm as (sl & r & t & Hc & Hcomps).
    destruct t as [|d1 [|x t]];
      try (apply (f_equal (@length string)) in Hcomps; simpl in Hcomps; lia).
    apply comps_cons3 in Hcomps as ->.
    assert (Hmp : plain_name m).
    { apply (comps_plain c _ r m Hgood Hc). right. left. reflexivity. }
    destruct (subdirs_level rel fs c [emb; m] HRep Hord)
      as (runs & Hruns & Hnd_runs & Hin_runs).
    { exists (emb, m, d1), r, [d1]. split; [exact Hc|].
      split; [reflexivity | discriminate]. }
    assert (Hin_runs' : forall d, In d runs <->
                                  exists r', c (emb, m, d) = Some r').
    { intros d. rewrite Hin_runs. split.
      - intros (sl' & r' & t' & Hc' & Hcomps').
        destruct t' as [|x t'];
          [|apply (f_equal (@length string)) in Hcomps'; simpl in Hcomps'; lia].
        apply comps_cons3 in Hcomps' as ->. exists r'. exact Hc'.
      - intros (r' & Hc'). exists (emb, m, d), r', []. split; [exact Hc'|].
        reflexivity. }
    destruct (forall2_exists (fun d r' => c (emb, m, d) = Some r') runs)
      as (rs & Hrs).
    { intros d Hd. apply Hin_runs', Hd. }
    exists rs. rewrite (osp_join_plain _ _ Hemb), (osp_join_plain _ _ Hmp).
    rewrite <- app_assoc. simpl app. split.
    - exists runs. split; [exact Hruns|].
      eapply Forall2_impl; [exact Hrs|]. intros d r' Hc'.
      assert (Hd : plain_name d).
      { apply (comps_plain c _ r' d Hgood Hc'). right. right. left.
        reflexivity. }
      rewrite (osp_join_plain _ _ Hd), <- app_assoc. simpl app.
      apply (load_embrun_spec rel fs c (emb, m, d) r' HRep Hc').
    - exists runs. split; [exact Hnd_runs|]. split; [exact Hin_runs' | exact Hrs]. }
  destruct (forall2_exists _ models Hper_model) as (rss & Hrss).
  exists (concat rss). split.
  - exists models, rss. rewrite (osp_join_plain _ _ Hemb).
    split; [exact Hmodels|]. split; [|reflexivity].
    eapply Forall2_impl; [exact Hrss|]. intros m rs [Hload _].
    rewrite (osp_join_plain _ _ Hemb) in Hload. exact Hload.
  - split.
    + apply (List.NoDup_map_inv folders).
      apply (nodup_concat_folders models rss); [|exact Hnd_models].
      eapply Forall2_impl; [exact Hrss|].
      intros m rs (_ & runs & Hnd & _ & Hrs). exists runs.
      split; [exact Hnd|]. clear -Hrs Hgood.
      induction Hrs as [|d r runs rs Hc _ IH]; [reflexivity|].
      simpl. rewrite IH. f_equal.
      destruct (Hgood _ _ Hc) as (emb' & Heq & _).
      unfold slot_of in Heq. injection Heq as _ -> ->. reflexivity.
    + intros r. rewrite in_concat. split.
      * intros (rs & Hrs & Hr).
        destruct (forall2_in_r _ _ _ _ Hrss Hrs)
          as (m & _ & _ & runs & _ & _ & Hc).
        destruct (forall2_in_r _ _ _ _ Hc Hr) as (d & _ & Hcd).
        exists m, d. exact Hcd.
      * intros (m & d & Hc).
        assert (Hm : In m models).
        { apply Hin_models. exists (emb, m, d), r, [d].
          split; [exact Hc | reflexivity]. }
        destruct (forall2_in_l _ _ _ _ Hrss Hm)
          as (rs & Hrs & _ & runs & _ & Hin_runs & Hcs).
        assert (Hd : In d runs) by (apply Hin_runs; exists r; exact Hc).
        destruct (forall2_in_l _ _ _ _ Hcs Hd) as (r' & Hr' & Hc').
        rewrite Hc in Hc'. injection Hc' as <-.
        exists rs. split; assumption.
Qed.

Lemma dict_get_combine {V : Type} (P : string -> V -> Prop)
    (keys : list string) (vs : list V) :
  Forall2 P keys vs ->
  forall k, match dict_get (combine keys vs) k with
            | Some v => In k keys /\ P k v
            | None => ~ In k keys
            end.
Proof.
  induction 1 as [|k0 v0 keys vs HP _ IH]; intros k; simpl; [tauto|].
  destruct (String.eqb_spec k0 k) as [->|Hne]; [tauto|].
  specialize (IH k). destruct (dict_get (combine keys vs) k); tauto.
Qed.

Lemma combine_split {A B : Type} (P : A -> B -> Prop) (l : list A)
    (l' : list B) :
  Forall2 P l l' -> map fst (combine l l') = l /\ map snd (combine l l') = l'.
Proof.
  induction 1 as [|a b l l' _ _ [IH1 IH2]]; simpl; [tauto|].
  rewrite IH1, IH2. tauto.
Qed.

(** Loading a stored tree: it succeeds, and each key holds the runs of
    that embedding's slots. *)
Lemma load_learn_result_spec `{!CodecRoundTrip D} (fs : FS.t D)
    (dir_path : path) (type name : string) (c : content) :
  Rep (osp_join (osp_join dir_path type) name) fs c -> lists_all fs ->
  (exists sl r, c sl = Some r) ->
  exists res,
    load_learn_result fs dir_path type name = Ok res /\
    rel_name res = name /\ rel_type res = type /\
    pos_exs res =
      first_pos None
        (map r_pos_exs (concat (map snd (emb_model_results res)))) /\
    List.NoDup (dict_keys (emb_model_results res)) /\
    forall emb,
      match dict_get (emb_model_results res) emb with
      | Some rs => emb_stored c emb rs /\ exists m d r, c (emb, m, d) = Some r
      | None => forall m d, c (emb, m, d) = None
      end.
Proof.
  set (rel := osp_join (osp_join dir_path type) name).
  intros HRep Hord (sl0 & r0 & Hc0).
  destruct (subdirs_level rel fs c [] HRep Hord)
    as (embs & Hembs & Hnd_embs & Hin_embs).
  { exists sl0, r0, (comps sl0). split; [exact Hc0|].
    split; [reflexivity | discriminate]. }
  rewrite app_nil_r in Hembs.
  assert (Hin_embs' : forall k, In k embs <->
                                exists m d r, c (k, m, d) = Some r).
  { intros k. rewrite Hin_embs. split.
    - intros (sl & r & t & Hc & Hcomps).
      destruct t as [|m [|d [|x t]]];
        try (apply (f_equal (@length string)) in Hcomps; simpl in Hcomps; lia).
      apply comps_cons3 in Hcomps as ->. exists m, d, r. exact Hc.
    - intros (m & d & r & Hc). exists (k, m, d), r, [m; d].
      split; [exact Hc | reflexivity]. }
  destruct (forall2_exists
              (fun k rs => emb_loaded fs rel k rs /\ emb_stored c k rs) embs)
    as (rsk & Hrsk).
  { intros k Hk. apply (emb_loaded_spec rel fs c k HRep Hord).
    apply Hin_embs', Hk. }
  assert (Hloaded : Forall2 (emb_loaded fs rel) embs rsk).
  { eapply Forall2_impl; [exact Hrsk|]. intros k rs [Hl _]. exact Hl. }
  pose proof (load_embs_spec fs rel embs rsk Hloaded [] None) as Hloop.
  specialize (Hloop Hnd_embs). cbv zeta in Hloop.
  assert (Hload : load_learn_result fs dir_path type name =
            Ok {| rel_name := name; rel_type := type;
                  pos_exs := first_pos None (map r_pos_exs (concat rsk));
                  emb_model_results := combine embs rsk |}).
  { unfold load_learn_result. cbv zeta. fold rel. rewrite Hembs. simpl bind.
    etransitivity; [apply (f_equal (fun x => bind x _) Hloop) | reflexivity]. }
  destruct (combine_split _ _ _ Hrsk) as [Hfst Hsnd].
  eexists. split; [exact Hload|]. simpl.
  split; [reflexivity|]. split; [reflexivity|].
  split; [rewrite Hsnd; reflexivity|].
  split; [unfold dict_keys; rewrite Hfst; exact Hnd_embs|].
  intros emb. pose proof (dict_get_combine _ _ _ Hrsk emb) as Hget.
  destruct (dict_get (combine embs rsk) emb) as [rs|].
  - destruct Hget as (Hin & _ & Hstored). split; [exact Hstored|].
    apply Hin_embs', Hin.
  - intros m d. destruct (c (emb, m, d)) as [r|] eqn:E; [|reflexivity].
    exfalso. apply Hget, Hin_embs'. exists m, d, r. exact E.
Qed.

End StoreFacts.

(* ===================================================================== *)
(** * Storing and loading the results of [learn_rel] *)
(* ===================================================================== *)

Lemma first_pos_const (c : Z) (l : list Z) :
  l <> [] -> (forall z, In z l -> z = c) -> first_pos None l = Some c.
Proof.
  intros Hne Hall. destruct l as [|z l]; [contradiction|].
  unfold first_pos. simpl.
  rewrite (Hall z (or_introl eq_refl)).
  assert (Hrest : forall z', In z' l -> z' = c)
    by (intros z' Hz'; apply Hall; right; exact Hz').
  clear Hall Hne. induction l as [|z' l IH]; simpl; [reflexivity|].
  rewrite (Hrest z' (or_introl eq_refl)).
  destruct (c =? 0); apply IH; intros z'' Hz''; apply Hrest; right;
    exact Hz''.
Qed.

(** Once a non-zero count is held, later runs do not change it. *)
Lemma first_pos_settled (z : Z) (l : list Z) :
  z <> 0 -> first_pos (Some z) l = Some z.
Proof.
  intros Hz. unfold first_pos. induction l as [|z' l IH]; simpl;
    [reflexivity|].
  destruct (Z.eqb_spec z 0) as [Heq|_]; [contradiction | exact IH].
Qed.

(** A first count that is not zero is the aggregate. *)
Lemma first_pos_head_nonzero (z : Z) (l : list Z) :
  z <> 0 -> first_pos None (z :: l) = Some z.
Proof. intros Hz. apply (first_pos_settled z l Hz). Qed.

(** A first count of zero is replaced by the count of the next run. *)
Lemma first_pos_head_zero (z : Z) (l : list Z) :
  first_pos None (0 :: z :: l) = first_pos (Some z) l.
Proof. reflexivity. Qed.

Lemma dict_get_in {V : Type} (d : dict V) (k : string) (v : V) :
  dict_get d k = Some v -> In (k, v) d.
Proof.
  induction d as [|[k' v'] d IH]; simpl; [discriminate|].
  destruct (String.eqb_spec k' k) as [->|_].
  - intros Heq. injection Heq as ->. left. reflexivity.
  - intros Heq. right. apply IH, Heq.
Qed.

Lemma dict_in_get {V : Type} (d : dict V) (k : string) (v : V) :
  List.NoDup (dict_keys d) -> In (k, v) d -> dict_get d k = Some v.
Proof.
  induction d as [|[k' v'] d IH]; simpl; intros Hnd Hin; [destruct Hin|].
  apply List.NoDup_cons_iff in Hnd as [Hk Hnd].
  destruct (String.eqb_spec k' k) as [->|Hne].
  - destruct Hin as [Heq|Hin]; [injection Heq as ->; reflexivity|].
    exfalso. apply Hk. apply in_map_iff. exists (k, v).
    split; [reflexivity | exact Hin].
  - destruct Hin as [Heq|Hin]; [injection Heq as -> _; contradiction|].
    apply IH; assumption.
Qed.

Lemma dict_key_get {V : Type} (d : dict V) (k : string) :
  In k (dict_keys d) -> exists v, dict_get d k = Some v.
Proof.
  intros Hin. destruct (dict_get d k) as [v|] eqn:E; [exists v; reflexivity|].
  apply dict_get_none in E. contradiction.
Qed.

Lemma dict_get_key {V : Type} (d : dict V) (k : string) (v : V) :
  dict_get d k = Some v -> In k (dict_keys d).
Proof.
  intros Hget. apply dict_get_in in Hget. apply in_map_iff.
  exists (k, v). split; [reflexivity | exact Hget].
Qed.

Section StoreThenLoad.
Context `{Payloads} {D : Type} `{!Codec D} `{!CodecRoundTrip D}.
Import FS.

Lemma store_then_load (ord : list string -> list string) (dir_path : path)
    (res : LearnResult) :
  (forall l, Permutation (ord l) l) ->
  emb_model_results res <> [] ->
  List.NoDup (dict_keys (emb_model_results res)) ->
  (forall emb runs, dict_get (emb_model_results res) emb = Some runs ->
     runs <> [] /\ plain_name emb /\
     forall r, In r runs -> plain_name (r_model r)) ->
  exists res',
    reloads ord dir_path res res' /\
    rel_name res' = rel_name res /\ rel_type res' = rel_type res /\
    pos_exs res' =
      first_pos None
        (map r_pos_exs (concat (map snd (emb_model_results res')))) /\
    List.NoDup (dict_keys (emb_model_results res')) /\
    (forall emb, dict_get (emb_model_results res') emb = None <->
                 dict_get (emb_model_results res) emb = None) /\
    (forall emb rs', dict_get (emb_model_results res') emb = Some rs' ->
       List.NoDup rs' /\
       forall r, In r rs' ->
         exists runs, dict_get (emb_model_results res) emb = Some runs /\
                      In r runs) /\
    (forall emb runs rs',
       dict_get (emb_model_results res) emb = Some runs ->
       dict_get (emb_model_results res') emb = Some rs' ->
       List.NoDup (map (slot_of emb) runs) ->
       forall r, In r runs -> In r rs').
Proof.
  intros Hord Hne Hnd Hshape.
  set (emr := emb_model_results res) in *.
  destruct (store_learn_result_spec ord dir_path res)
    as (fs' & Hstore & Hord' & HRep).
  { intros emb Hin. apply dict_key_get in Hin as (runs & Hget).
    apply (Hshape emb runs Hget). }
  { intros emb runs r Hget Hr. apply (Hshape emb runs Hget), Hr. }
  fold emr in HRep.
  set (c := store_all no_content emr) in *.
  assert (Hc_some : forall sl r, c sl = Some r ->
            exists runs, dict_get emr (fst (fst sl)) = Some runs /\
                         In r runs /\ sl = slot_of (fst (fst sl)) r).
  { intros sl r Hc. apply stored_keys_some in Hc as [Hc|(emb & _ & Hr & ->)];
      [discriminate Hc|].
    simpl. destruct (dict_get emr emb) as [runs|]; [|destruct Hr].
    exists runs. split; [reflexivity|]. split; [exact Hr | reflexivity]. }
  assert (Hc_present : forall emb runs r, dict_get emr emb = Some runs ->
            In r runs -> is_Some (c (slot_of emb r))).
  { intros emb runs r Hget Hr. apply stored_keys_present.
    - apply (dict_get_key _ _ _ Hget).
    - rewrite Hget. exact Hr. }
  destruct (load_learn_result_spec fs' dir_path (rel_type res) (rel_name res)
              c HRep) as (res' & Hload & Hname & Htype & Hpos & Hnd' & Hget').
  { intros l. rewrite Hord'. apply Hord. }
  { destruct emr as [|[k0 runs0] emr0] eqn:E; [contradiction|].
    assert (Hget0 : dict_get emr k0 = Some runs0)
      by (rewrite E; simpl; rewrite String.eqb_refl; reflexivity).
    rewrite <- E in *.
    destruct (Hshape k0 runs0 Hget0) as (Hne0 & _).
    destruct runs0 as [|r0 runs0]; [contradiction|].
    destruct (Hc_present k0 _ r0 Hget0 (or_introl eq_refl)) as (r & Hr).
    exists (slot_of k0 r0), r. exact Hr. }
  exists res'. split; [exists fs'; split; assumption|].
  split; [exact Hname|]. split; [exact Htype|]. split; [exact Hpos|].
  split; [exact Hnd'|]. split; [|split].
  - intros emb. specialize (Hget' emb).
    destruct (dict_get (emb_model_results res') emb) as [rs'|].
    + destruct Hget' as (_ & m & d & r & Hc).
      apply Hc_some in Hc as (runs & Hget & _). simpl in Hget.
      rewrite Hget. split; intros Heq; discriminate Heq.
    + split; [|reflexivity]. intros _.
      destruct (dict_get emr emb) as [runs|] eqn:E; [|reflexivity].
      destruct (Hshape emb runs E) as (Hne0 & _).
      destruct runs as [|r0 runs]; [contradiction|].
      destruct (Hc_present emb _ r0 E (or_introl eq_refl)) as (r & Hr).
      unfold slot_of in Hr. rewrite Hget' in Hr. discriminate Hr.
  - intros emb rs' Hrs'. specialize (Hget' emb). rewrite Hrs' in Hget'.
    destruct Hget' as ((Hnd_rs & Hin_rs) & _). split; [exact Hnd_rs|].
    intros r Hr. apply Hin_rs in Hr as (m & d & Hc).
    apply Hc_some in Hc as (runs & Hget & Hin & _). simpl in Hget.
    exists runs. split; assumption.
  - intros emb runs rs' Hget Hrs' Hslots r Hr. specialize (Hget' emb).
    rewrite Hrs' in Hget'. destruct Hget' as ((_ & Hin_rs) & _).
    apply Hin_rs. exists (r_model r), (run_dir_name (r_i r)).
    apply (stored_keys_unique emr (dict_keys emr) no_content emb r Hnd).
    + apply (dict_get_key _ _ _ Hget).
    + rewrite Hget. exact Hslots.
    + rewrite Hget. exact Hr.
Qed.

End StoreThenLoad.

Section RoundTrip.
Context `{Collaborators} {D : Type} `{!Codec D}.
Import Run.

Variables (relpath : FS.path) (rel_meta : RelMeta).
Variables (data_loaders : dict DataLoader) (single_rel_types : list string).
Variable epochs_fn : Z -> result Z.
Variable train_input_disturber : option Disturber.
Variables debug_test_df cuda : bool.

(** Runs of one embedding source with distinct (model, run index) land in
    distinct run directories. *)
Lemma slots_nodup (emb : string) (runs : list RunResult) :
  (forall r, In r runs -> r_emb r = emb) ->
  List.NoDup (map run_ident runs) ->
  List.NoDup (map (slot_of emb) runs).
Proof.
  induction runs as [|r runs IH]; simpl; intros Hemb Hnd; [constructor|].
  apply List.NoDup_cons_iff in Hnd as [Hr Hnd]. constructor.
  - intros Hin. apply Hr.
    apply in_map_iff in Hin as (r' & Heq & Hin).
    apply in_map_iff. exists r'. split; [|exact Hin].
    assert (Hm : r_model r' = r_model r)
      by exact (f_equal (fun sl : slot => snd (fst sl)) Heq).
    assert (Hi : r_i r' = r_i r)
      by exact (run_dir_name_inj _ _ (f_equal (fun sl : slot => snd sl) Heq)).
    unfold run_ident.
    rewrite Hm, Hi, (Hemb r' (or_intror Hin)), (Hemb r (or_introl eq_refl)).
    reflexivity.
  - apply IH; [|exact Hnd]. intros r' Hr'. apply Hemb. right. exact Hr'.
Qed.

(** The shape of a result of [learn_rel] is what storing requires. *)
Lemma well_shaped_storable (models : list string) (n_runs : Z)
    (res : LearnResult) :
  well_shaped rel_meta data_loaders models n_runs res ->
  (forall emb, In emb (dict_keys data_loaders) -> FS.plain_name emb) ->
  forall emb runs, dict_get (emb_model_results res) emb = Some runs ->
    runs <> [] /\ FS.plain_name emb /\
    forall r, In r runs -> FS.plain_name (r_model r).
Proof.
  intros (_ & _ & _ & _ & Hshape) Hplain emb runs Hget.
  destruct (Hshape emb runs Hget) as (Hne & Hkey & _ & Hruns).
  split; [exact Hne|]. split; [apply Hplain, Hkey|].
  intros r Hr. apply PyFacts.model_names_plain, (Hruns r Hr).
Qed.

(** C8, amended.  In a result returned by [learn_rel] every run listed
    under an embedding-source key carries that key in its [emb] field.
    The store / load cycle keeps this when the result is non-empty, the
    components of [dir_path], the relation type, the relation name and the
    loader names are each one plain path component without NUL, and the
    serialisers read back what they wrote: stored into an empty directory
    and loaded again, whatever the order in which directories are listed,
    the loaded result has the same property.  (A loader name that is not
    one plain component breaks it, as the loader named ["glove/"] shows
    below.) *)
Theorem keyed_established_and_preserved `{!CodecRoundTrip D}
    (rel_filter : option (RelMeta -> bool)) (models : list string)
    (n_runs : Z) (s s' : state) (res : LearnResult)
    (ord : list string -> list string) (dir_path : FS.path) :
  learn_rel relpath rel_meta data_loaders single_rel_types epochs_fn
    rel_filter models n_runs train_input_disturber debug_test_df cuda s =
  (Ok res, s') ->
  keyed (emb_model_results res) /\
  (Forall FS.entry_name
     (dir_path ++ [rm_type rel_meta; rm_name rel_meta] ++
      dict_keys data_loaders) ->
   (forall l, Permutation (ord l) l) ->
   emb_model_results res <> [] ->
   exists res', reloads ord dir_path res res' /\
                keyed (emb_model_results res')).
Proof.
  intros Hrun. apply learn_rel_well_shaped in Hrun as Hshape.
  assert (Hkeyed : keyed (emb_model_results res)).
  { intros emb runs r Hget Hr.
    destruct Hshape as (_ & _ & _ & _ & Hshape).
    destruct (Hshape emb runs Hget) as (_ & _ & _ & Hruns).
    apply (Hruns r Hr). }
  split; [exact Hkeyed|]. intros Hnames Hord Hne.
  assert (Hplain : forall emb, In emb (dict_keys data_loaders) ->
                               FS.plain_name emb).
  { intros emb Hin. rewrite List.Forall_forall in Hnames.
    apply (Hnames emb). apply in_or_app. right. right. right. exact Hin. }
  destruct (store_then_load ord dir_path res Hord Hne)
    as (res' & Hreload & _ & _ & _ & _ & _ & Hback & _).
  { apply Hshape. }
  { apply (well_shaped_storable models n_runs res Hshape Hplain). }
  exists res'. split; [exact Hreload|].
  intros emb rs' r Hget Hr.
  destruct (Hback emb rs' Hget) as (_ & Hfrom).
  destruct (Hfrom r Hr) as (runs & Hget0 & Hr0).
  apply (Hkeyed emb runs r Hget0 Hr0).
Qed.

(** C1, amended.  Let [learn_rel] return a non-empty result for distinct
    model names and distinctly named loaders, where the components of
    [dir_path], the relation type, the relation name and the loader names
    are each one plain path component without NUL, and let the serialisers
    read back what they wrote.  Storing the result into an empty directory
    and loading it again succeeds, whatever the order in which directories
    are listed, and gives a result with the same relation name, type and
    count, the same embedding-source keys and, under each key, the very
    same runs (every scalar field and every payload equal) up to the order
    of the list. *)
Theorem store_load_round_trip `{!CodecRoundTrip D}
    (rel_filter : option (RelMeta -> bool)) (models : list string)
    (n_runs : Z) (s s' : state) (res : LearnResult)
    (ord : list string -> list string) (dir_path : FS.path) :
  learn_rel relpath rel_meta data_loaders single_rel_types epochs_fn
    rel_filter models n_runs train_input_disturber debug_test_df cuda s =
  (Ok res, s') ->
  List.NoDup (dict_keys data_loaders) ->
  List.NoDup models ->
  Forall FS.entry_name
    (dir_path ++ [rm_type rel_meta; rm_name rel_meta] ++
     dict_keys data_loaders) ->
  (forall l, Permutation (ord l) l) ->
  emb_model_results res <> [] ->
  exists res',
    reloads ord dir_path res res' /\
    rel_name res' = rel_name res /\ rel_type res' = rel_type res /\
    pos_exs res' = pos_exs res /\
    same_runs (emb_model_results res) (emb_model_results res').
Proof.
  intros Hrun Hnd_keys Hnd_models Hnames Hord Hne.
  assert (Hplain : forall emb, In emb (dict_keys data_loaders) ->
                               FS.plain_name emb).
  { intros emb Hin. rewrite List.Forall_forall in Hnames.
    apply (Hnames emb). apply in_or_app. right. right. right. exact Hin. }
  apply learn_rel_well_shaped in Hrun as Hshape.
  destruct (store_then_load ord dir_path res Hord Hne)
    as (res' & Hreload & Hname & Htype & Hpos & Hnd' & Hnone & Hback & Hforth).
  { apply Hshape. }
  { apply (well_shaped_storable models n_runs res Hshape Hplain). }
  destruct Hshape as (_ & _ & Hcnt & Hnd & Hshape).
  assert (Hslots : forall emb runs,
            dict_get (emb_model_results res) emb = Some runs ->
            List.NoDup (map (slot_of emb) runs)).
  { intros emb runs Hget.
    destruct (Hshape emb runs Hget) as (_ & _ & Hids & Hruns).
    apply slots_nodup; [intros r Hr; apply (Hruns r Hr)|].
    apply Hids; assumption. }
  exists res'. split; [exact Hreload|]. split; [exact Hname|].
  split; [exact Htype|]. split.
  - rewrite Hpos, Hcnt. apply first_pos_const.
    + destruct (emb_model_results res) as [|[k0 runs0] emr0] eqn:E;
        [contradiction|].
      assert (Hget0 : dict_get (emb_model_results res) k0 = Some runs0)
        by (rewrite E; simpl; rewrite String.eqb_refl; reflexivity).
      rewrite <- E in *.
      destruct (Hshape k0 runs0 Hget0) as (Hne0 & _).
      destruct runs0 as [|r0 runs0]; [contradiction|].
      destruct (dict_get (emb_model_results res') k0) as [rs'|] eqn:E';
        [|apply Hnone in E'; rewrite E' in Hget0; discriminate Hget0].
      assert (Hr0 : In r0 rs').
      { apply (Hforth k0 _ rs' Hget0 E' (Hslots _ _ Hget0)). left.
        reflexivity. }
      intros Hnil.
      assert (Hin : In (r_pos_exs r0)
                (map r_pos_exs
                   (concat (map snd (emb_model_results res'))))).
      { apply in_map, in_concat. exists rs'. split; [|exact Hr0].
        apply in_map_iff. exists (k0, rs'). split; [reflexivity|].
        apply dict_get_in, E'. }
      rewrite Hnil in Hin. destruct Hin.
    + intros z Hz. apply in_map_iff in Hz as (r & <- & Hr).
      apply in_concat in Hr as (rs' & Hrs' & Hr).
      apply in_map_iff in Hrs' as ([emb rs''] & Heq & Hin). simpl in Heq.
      subst rs''. apply (dict_in_get _ _ _ Hnd') in Hin.
      destruct (Hback emb rs' Hin) as (_ & Hfrom).
      destruct (Hfrom r Hr) as (runs & Hget & Hr0).
      destruct (Hshape emb runs Hget) as (_ & _ & _ & Hruns).
      apply (Hruns r Hr0).
  - intros emb.
    destruct (dict_get (emb_model_results res) emb) as [runs|] eqn:E.
    + destruct (dict_get (emb_model_results res') emb) as [rs'|] eqn:E';
        [|apply Hnone in E'; rewrite E' in E; discriminate E].
      destruct (Hback emb rs' E') as (Hnd_rs & Hfrom).
      apply Stdlib.Sorting.Permutation.NoDup_Permutation.
      * apply (List.NoDup_map_inv (slot_of emb)), (Hslots _ _ E).
      * exact Hnd_rs.
      * intros r. split.
        -- apply (Hforth emb runs rs' E E' (Hslots _ _ E)).
        -- intros Hr. destruct (Hfrom r Hr) as (runs' & Hget & Hr0).
           rewrite E in Hget. injection Hget as <-. exact Hr0.
    + apply Hnone in E. rewrite E. exact I.
Qed.

End RoundTrip.

Ltac entry_literal :=
  split; [plain_literal|]; simpl; intros c Hc;
  repeat (destruct Hc as [<-|Hc]; [discriminate|]); destruct Hc.

Ltac entry_names_literal :=
  repeat (apply List.Forall_cons; [entry_literal|]); apply List.Forall_nil.

Lemma keyed_established_and_preserved_witness :
  exists res s',
    Demo.learn (Demo.rel 100) [("glove", Demo.glove)] ["logreg"; "nn2"] 2 =
      (Ok res, s') /\
    keyed (emb_model_results res) /\
    exists res',
      @reloads Demo.payloads Demo.data Demo.codec Demo.listing_order
        ["out"] res res' /\
      keyed (emb_model_results res').
Proof.
  eexists. eexists. split; [vm_compute; reflexivity|].
  lazymatch goal with
  | |- keyed (emb_model_results ?r) /\ _ =>
    enough (Hboth :
      keyed (emb_model_results r) /\
      (Forall FS.entry_name
         (["out"] ++ [rm_type (Demo.rel 100); rm_name (Demo.rel 100)] ++
          dict_keys [("glove", Demo.glove)]) ->
       (forall l, Permutation (Demo.listing_order l) l) ->
       emb_model_results r <> [] ->
       exists res',
         @reloads Demo.payloads Demo.data Demo.codec Demo.listing_order
           ["out"] r res' /\
         keyed (emb_model_results res')))
  end.
  - destruct Hboth as [Hkeyed Hkept]. split; [exact Hkeyed|]. apply Hkept.
    + simpl. entry_names_literal.
    + apply demo_listing_order_lists_all.
    + discriminate.
  - eapply (@keyed_established_and_preserved Demo.payloads
              Demo.collaborators Demo.data Demo.codec ["rels"]
              (Demo.rel 100) [("glove", Demo.glove)] []
              Epochs._epochs_from_trainset_size None false false
              demo_codec_round_trip None ["logreg"; "nn2"] 2 (0%nat, [])).
    vm_compute. reflexivity.
Defined.

(** C8 as stated fails: with a loader named ["glove/"] every run carries
    ["glove/"] as its [emb], the result is stored in the directory
    [glove], and the loaded result lists the run under the key ["glove"]. *)
Lemma loader_name_with_slash_is_not_kept :
  exists res s' fs' res' r,
    Demo.learn (Demo.rel 100) [("glove/", Demo.glove)] ["logreg"] 1 =
      (Ok res, s') /\
    keyed (emb_model_results res) /\
    @store_learn_result Demo.payloads Demo.data Demo.codec
      (FS.empty Demo.listing_order) ["out"] res = Ok fs' /\
    @load_learn_result Demo.payloads Demo.data Demo.codec fs' ["out"]
      (rel_type res) (rel_name res) = Ok res' /\
    dict_get (emb_model_results res') "glove" = Some [r] /\
    r_emb r = "glove/" /\
    ~ keyed (emb_model_results res').
Proof.
  do 5 eexists.
  split; [vm_compute; reflexivity|].
  split.
  { intros emb runs r Hget Hr. apply dict_get_in in Hget.
    destruct Hget as [Heq|[]]. injection Heq as <- <-.
    destruct Hr as [<-|[]]. reflexivity. }
  split; [vm_compute; reflexivity|].
  split; [vm_compute; reflexivity|].
  split; [vm_compute; reflexivity|].
  split; [reflexivity|].
  intros Hkeyed.
  specialize (Hkeyed "glove" _ _ eq_refl (or_introl eq_refl)).
  discriminate Hkeyed.
Qed.

Lemma store_load_round_trip_witness :
  exists res s',
    Demo.learn (Demo.rel 100) [("glove", Demo.glove)] ["logreg"; "nn2"] 2 =
      (Ok res, s') /\
    exists res',
      @reloads Demo.payloads Demo.data Demo.codec Demo.listing_order
        ["out"] res res' /\
      rel_name res' = rel_name res /\ rel_type res' = rel_type res /\
      pos_exs res' = pos_exs res /\
      same_runs (emb_model_results res) (emb_model_results res').
Proof.
  eexists. eexists. split; [vm_compute; reflexivity|].
  eapply (@store_load_round_trip Demo.payloads Demo.collaborators
           Demo.data Demo.codec ["rels"] (Demo.rel 100)
           [("glove", Demo.glove)] [] Epochs._epochs_from_trainset_size
           None false false demo_codec_round_trip None ["logreg"; "nn2"] 2
           (0%nat, [])).
  - vm_compute. reflexivity.
  - repeat constructor. intros [].
  - repeat constructor; simpl; intros Hin;
      repeat (destruct Hin as [Hin|Hin]; [discriminate Hin|]); destruct Hin.
  - simpl. entry_names_literal.
  - apply demo_listing_order_lists_all.
  - discriminate.
Defined.

(** The model name ["logreg"] given twice: both runs have the identity
    (logreg, glove, 0) and are written to the same run directory, so the
    second overwrites the first and only one run is loaded back. *)
Lemma duplicate_model_loses_a_run :
  exists res s' r1 r2 res',
    Demo.learn (Demo.rel 100) [("glove", Demo.glove)] ["logreg"; "logreg"] 1 =
      (Ok res, s') /\
    dict_get (emb_model_results res) "glove" = Some [r1; r2] /\
    r_trainer_df r1 <> r_trainer_df r2 /\
    @reloads Demo.payloads Demo.data Demo.codec Demo.listing_order
      ["out"] res res' /\
    dict_get (emb_model_results res') "glove" = Some [r2] /\
    ~ same_runs (emb_model_results res) (emb_model_results res').
Proof.
  do 5 eexists.
  split; [vm_compute; reflexivity|].
  split; [vm_compute; reflexivity|].
  split; [vm_compute; discriminate|].
  split; [eexists; split; vm_compute; reflexivity|].
  split; [vm_compute; reflexivity|].
  intros Hsame. specialize (Hsame "glove"). vm_compute in Hsame.
  apply Permutation_length in Hsame. discriminate Hsame.
Qed.

(** C7.  A stored relation directory whose first enumerated run directory
    records the count 0 and whose second records 5: the loader enumerates
    [run_00] before [run_01], reads the count 0 from the first, and yet
    returns 5, the count of the second run, as the aggregate. *)
Lemma load_learn_result_skips_zero_count :
  exists fs r0 r1 res,
    @store_learn_result Demo.payloads Demo.data Demo.codec
      (FS.empty Demo.listing_order) ["out"] Demo.zero_then_five = Ok fs /\
    list_subdirs fs ["out"; "noun"; "plural"; "glove"; "logreg"] =
      Ok ["run_00"; "run_01"] /\
    @load_learn_result Demo.payloads Demo.data Demo.codec fs ["out"]
      "noun" "plural" = Ok res /\
    emb_model_results res = [("glove", [r0; r1])] /\
    r_pos_exs r0 = 0 /\ r_pos_exs r1 = 5 /\
    pos_exs res = Some 5.
Proof.
  do 4 eexists.
  split; [vm_compute; reflexivity|].
  split; [vm_compute; reflexivity|].
  split; [vm_compute; reflexivity|].
  split; [vm_compute; reflexivity|].
  split; [reflexivity|]. split; reflexivity.
Qed.

(* ===================================================================== *)
(** * Further properties of the epoch heuristic and the model factory *)
(* ===================================================================== *)

Module EpochsTable.
Import Epochs EpochsFacts.

Lemma round_log10_of_half_decade (n c : Z) :
  0 < n -> in_half_decade n c -> round_log10_half_minus1 n = c - 1.
Proof.
  intros Hn Hc.
  pose proof (in_half_decade_unique n _ _ (round_log10_spec n Hn) Hc). lia.
Qed.

Lemma round_log10_mono (n m : Z) :
  0 < n -> n <= m ->
  round_log10_half_minus1 n <= round_log10_half_minus1 m.
Proof.
  intros Hn Hnm.
  destruct (round_log10_spec n Hn) as (Hc0 & Hup & Hlow).
  destruct (round_log10_spec m ltac:(lia)) as (Hc0' & Hup' & Hlow').
  set (c := round_log10_half_minus1 n + 1) in *.
  set (c' := round_log10_half_minus1 m + 1) in *.
  enough (c <= c') by lia.
  destruct (Z_le_gt_dec c c') as [|Hgt]; [assumption|exfalso].
  assert (Hpow : 100 ^ c' <= 100 ^ (c - 1))
    by (apply Z.pow_le_mono_r; lia).
  specialize (Hlow ltac:(lia)). nia.
Qed.

Lemma round_log10_ge_m1 (n : Z) : 0 < n -> -1 <= round_log10_half_minus1 n.
Proof. intros Hn. destruct (round_log10_spec n Hn) as (Hc0 & _). lia. Qed.

Ltac decade c :=
  rewrite (round_log10_of_half_decade _ c);
  [reflexivity | lia | unfold in_half_decade; simpl; nia].

(** X1.  The heuristic, tabulated for every integer: a size of absolute
    value [2^1025 - 2^971] or more overflows the division; below that, a
    size that is not positive is a domain error of the logarithm; the
    number of epochs halves from 192 each time the size passes
    [2 * 10^(k + 1/2)], and is 0 from 632455533 on. *)
Theorem epochs_table (n : Z) :
  _epochs_from_trainset_size n =
  if float_overflow_bound <=? Z.abs n then Raise overflow_error
  else if n <=? 0 then Raise (PyExc "ValueError" "math domain error")
  else Ok (if n <=? 6 then 192
           else if n <=? 63 then 96
           else if n <=? 632 then 48
           else if n <=? 6324 then 24
           else if n <=? 63245 then 12
           else if n <=? 632455 then 6
           else if n <=? 6324555 then 3
           else if n <=? 63245553 then 2
           else if n <=? 632455532 then 1
           else 0).
Proof.
  destruct (Z.leb_spec float_overflow_bound (Z.abs n)) as [Hb|Hb];
    [apply epochs_overflow, Hb|].
  destruct (Z.leb_spec n 0) as [Hle|Hn].
  - unfold _epochs_from_trainset_size.
    destruct (Z.leb_spec float_overflow_bound (Z.abs n)); [lia|].
    destruct (Z.leb_spec n 0); [reflexivity | lia].
  - rewrite (epochs_unfold n Hn) by (rewrite Z.abs_eq in Hb; lia). f_equal.
    clear Hb.
    repeat match goal with
           | |- context [?a <=? ?b] => destruct (Z.leb_spec a b)
           end.
    + decade 0.
    + decade 1.
    + decade 2.
    + decade 3.
    + decade 4.
    + decade 5.
    + decade 6.
    + decade 7.
    + decade 8.
    + apply epochs_of_order_zero.
      pose proof (round_log10_le_7 n Hn) as Hseven. lia.
Qed.

(** X2.  More data never means more epochs, and the heuristic never asks for
    more than 192. *)
Theorem epochs_antitone (n m : Z) :
  0 < n -> n <= m -> m < 2 ^ 1024 ->
  exists e e',
    _epochs_from_trainset_size n = Ok e /\
    _epochs_from_trainset_size m = Ok e' /\
    0 <= e' /\ e' <= e /\ e <= 192.
Proof.
  intros Hn Hnm Hm.
  assert (Hbm : m < float_overflow_bound)
    by exact (Z.lt_trans _ _ _ Hm pow_1024_below_bound).
  assert (Hbn : n < float_overflow_bound)
    by exact (Z.le_lt_trans _ _ _ Hnm Hbm).
  exists (epochs_of_order (round_log10_half_minus1 n)),
         (epochs_of_order (round_log10_half_minus1 m)).
  split; [apply epochs_unfold; assumption|].
  split; [apply epochs_unfold; [exact (Z.lt_le_trans _ _ _ Hn Hnm) | exact Hbm]|].
  split; [apply epochs_of_order_nonneg|].
  split; [apply epochs_of_order_mono, round_log10_mono; assumption|].
  change 192 with (epochs_of_order (-1)).
  apply epochs_of_order_mono, round_log10_ge_m1, Hn.
Qed.

Lemma epochs_antitone_witness :
  exists e e',
    _epochs_from_trainset_size 200 = Ok e /\
    _epochs_from_trainset_size 5000 = Ok e' /\
    0 <= e' /\ e' <= e /\ e <= 192.
Proof.
  apply (epochs_antitone 200 5000); [lia | lia | vm_compute; reflexivity].
Defined.

End EpochsTable.

Module ModelsShape.

(** X3.  What the factory returns when it returns: the model is built for the
    requested input dimension; a network has one dropout of 1/2 per hidden
    layer, one layer as wide as the input for [nn1], two for [nn2] and
    three for [nn3], of strictly decreasing width; a dummy classifier
    holds two probabilities that sum to 1, the larger one on the class it
    is named after. *)
Theorem build_model_shape (name : string) (indim : Z) (m : Model) :
  _build_model name indim = Ok m ->
  match m with
  | LogisticRegression d => name = "logreg" /\ d = indim
  | NNBiClassifier d layer_dims dropouts =>
      d = indim /\
      length dropouts = length layer_dims /\
      Forall (fun p => p = (1 # 2)%Q) dropouts /\
      ((name = "nn1" /\ layer_dims = [indim]) \/
       (name = "nn2" /\ length layer_dims = 2%nat) \/
       (name = "nn3" /\ length layer_dims = 3%nat)) /\
      StronglySorted Z.gt layer_dims
  | DummyBiClassifier d predef =>
      d = indim /\
      exists p0 p1, predef = [p0; p1] /\ (p0 + p1 == 1)%Q /\
        ((name = "alwaysT" /\ (p0 < p1)%Q) \/
         (name = "alwaysF" /\ (p1 < p0)%Q))
  end.
Proof.
  unfold _build_model.
  repeat match goal with
         | |- context [String.eqb ?a ?b] =>
             destruct (String.eqb_spec a b); subst
         | |- context [?a =? ?b] => destruct (Z.eqb_spec a b); subst
         end;
    intros Hm; try discriminate Hm; injection Hm as <-.
  - split; reflexivity.
  - repeat split; auto. repeat constructor.
  - repeat split; auto 6. repeat constructor; lia.
  - repeat split; auto 6. repeat constructor; lia.
  - repeat split; auto 6. repeat constructor; lia.
  - repeat split; auto 6. repeat constructor; lia.
  - split; [reflexivity|]. eexists _, _. split; [reflexivity|].
    split; [reflexivity|]. left. split; reflexivity.
  - split; [reflexivity|]. eexists _, _. split; [reflexivity|].
    split; [reflexivity|]. right. split; reflexivity.
Qed.

Lemma build_model_shape_witness :
  600 = 600 /\
  length [1 # 2; 1 # 2]%Q = length [750; 400] /\
  Forall (fun p => p = (1 # 2)%Q) [1 # 2; 1 # 2]%Q /\
  (("nn2" = "nn1" /\ [750; 400] = [600]) \/
   ("nn2" = "nn2" /\ length [750; 400] = 2%nat) \/
   ("nn2" = "nn3" /\ length [750; 400] = 3%nat)) /\
  StronglySorted Z.gt [750; 400].
Proof.
  apply (build_model_shape "nn2" 600
           (NNBiClassifier 600 [750; 400] [1 # 2; 1 # 2]%Q)).
  reflexivity.
Defined.

End ModelsShape.

(* ===================================================================== *)
(** * Further properties of the filename scanner *)
(* ===================================================================== *)

Module RelsNamesFacts.
Import RelsNames.

Lemma chars_app (a b : string) (c : ascii) :
  In c (list_ascii_of_string (a +:+ b)) <->
  In c (list_ascii_of_string a) \/ In c (list_ascii_of_string b).
Proof.
  induction a as [|x a IH]; simpl; [tauto|]. rewrite IH. tauto.
Qed.

Lemma length_app_string (a b : string) :
  String.length (a +:+ b) = (String.length a + String.length b)%nat.
Proof. induction a as [|x a IH]; simpl; [reflexivity|]. rewrite IH. reflexivity. Qed.

(** Searching past a prefix that lacks the first character sought. *)
Lemma index_skip (c : ascii) (p pre s : string) :
  (forall x, In x (list_ascii_of_string pre) -> x <> c) ->
  s <> "" ->
  String.index 0 (String c p) (pre +:+ s) =
  option_map (Nat.add (String.length pre)) (String.index 0 (String c p) s).
Proof.
  intros Hpre Hs. induction pre as [|a pre IH].
  - change ("" +:+ s) with s.
    destruct (String.index 0 (String c p) s); reflexivity.
  - change (String a pre +:+ s) with (String a (pre +:+ s)).
    cbn [String.index String.prefix].
    destruct (ascii_dec c a) as [Heq|_].
    + exfalso. apply (Hpre a); [left; reflexivity | symmetry; exact Heq].
    + rewrite IH by (intros x Hx; apply Hpre; right; exact Hx).
      destruct (String.index 0 (String c p) s); reflexivity.
Qed.

Lemma index_here (pat s : string) :
  s <> "" -> String.prefix pat s = true -> String.index 0 pat s = Some 0%nat.
Proof.
  intros Hs Hp. destruct s as [|b s]; [contradiction|].
  simpl. simpl in Hp. rewrite Hp. reflexivity.
Qed.

Lemma py_find_at (c : ascii) (p pre s : string) :
  (forall x, In x (list_ascii_of_string pre) -> x <> c) ->
  String.prefix (String c p) s = true ->
  py_find (String c p) (pre +:+ s) = Z.of_nat (String.length pre).
Proof.
  intros Hpre Hp. unfold py_find.
  assert (Hs : s <> "") by (intros ->; discriminate Hp).
  rewrite (index_skip c p pre s Hpre Hs), (index_here _ s Hs Hp). simpl.
  rewrite Nat.add_0_r. reflexivity.
Qed.

Lemma substring_all (s t : string) :
  String.substring 0 (String.length s) (s +:+ t) = s.
Proof.
  induction s as [|c s IH]; simpl; [destruct t; reflexivity|].
  rewrite IH. reflexivity.
Qed.

Lemma substring_skip (pre s : string) (m : nat) :
  String.substring (String.length pre) m (pre +:+ s) = String.substring 0 m s.
Proof. induction pre as [|c pre IH]; simpl; [reflexivity | exact IH]. Qed.

(** A slice between two bounds inside the string. *)
Lemma py_slice_middle (pre s post : string) :
  py_slice (pre +:+ s +:+ post) (Z.of_nat (String.length pre))
    (Z.of_nat (String.length pre + String.length s)) = s.
Proof.
  unfold py_slice, clamp_index.
  rewrite !length_app_string.
  repeat match goal with
         | |- context [?a <? 0] => destruct (Z.ltb_spec a 0); [lia|]
         end.
  rewrite !Z.max_r, !Z.min_r by lia.
  replace (Z.to_nat (Z.of_nat (String.length pre + String.length s) -
                     Z.of_nat (String.length pre)))
    with (String.length s) by lia.
  rewrite Nat2Z.id, substring_skip. apply substring_all.
Qed.

Lemma string_of_uint_digits (u : Decimal.uint) (c : ascii) :
  In c (list_ascii_of_string (NilEmpty.string_of_uint u)) ->
  In c digit_chars.
Proof.
  unfold digit_chars.
  induction u; simpl; intros Hin; try destruct Hin as [<-|Hin];
    try (apply IHu in Hin; exact Hin); simpl; tauto.
Qed.

Lemma fmt_d_digits (z : Z) (c : ascii) :
  0 <= z -> In c (list_ascii_of_string (fmt_d z)) -> In c digit_chars.
Proof.
  intros Hz. unfold fmt_d. destruct z as [|p|p]; [| |lia].
  - simpl. intros [<-|[]]. left. reflexivity.
  - simpl Z.to_int.
    unfold NilZero.string_of_int, NilZero.string_of_uint.
    destruct (Pos.to_uint p) as [|u|u|u|u|u|u|u|u|u|u];
      [simpl; intros [<-|[]]; left; reflexivity|..];
      apply string_of_uint_digits.
Qed.

Lemma lstrip_id (s : string) :
  (forall c, In c (list_ascii_of_string s) -> is_space c = false) ->
  lstrip s = s.
Proof.
  destruct s as [|c s]; [reflexivity|]. intros Hs. simpl.
  rewrite (Hs c (or_introl eq_refl)). reflexivity.
Qed.

Lemma rstrip_id (s : string) :
  (forall c, In c (list_ascii_of_string s) -> is_space c = false) ->
  rstrip s = s.
Proof.
  induction s as [|c s IH]; [reflexivity|]. intros Hs. simpl.
  rewrite IH by (intros x Hx; apply Hs; right; exact Hx).
  destruct s; [|reflexivity].
  rewrite (Hs c (or_introl eq_refl)). reflexivity.
Qed.

Lemma parse_digits_acc (u : Decimal.uint) (p : positive) :
  parse_digits (NilEmpty.string_of_uint u) (Z.pos p) true =
  Some (Z.pos (Pos.of_uint_acc u p)).
Proof.
  revert p. induction u; intros p; [reflexivity|..];
    cbn [NilEmpty.string_of_uint parse_digits Pos.of_uint_acc];
    match goal with
    | |- context [digit_val ?c] =>
        let v := eval vm_compute in (digit_val c) in
        change (digit_val c) with v
    end; cbv iota; rewrite <- IHu; f_equal; lia.
Qed.

Lemma parse_digits_uint (u : Decimal.uint) (b : bool) :
  u <> Decimal.Nil \/ b = true ->
  parse_digits (NilEmpty.string_of_uint u) 0 b =
  Some (Z.of_N (Pos.of_uint u)).
Proof.
  revert b. induction u; intros b Hb.
  - destruct Hb as [Hb| ->]; [contradiction | reflexivity].
  - cbn [NilEmpty.string_of_uint parse_digits].
    change (digit_val "0") with (Some 0). cbv iota.
    change (10 * 0 + 0) with 0. apply IHu. right. reflexivity.
  - apply (parse_digits_acc u 1).
  - apply (parse_digits_acc u 2).
  - apply (parse_digits_acc u 3).
  - apply (parse_digits_acc u 4).
  - apply (parse_digits_acc u 5).
  - apply (parse_digits_acc u 6).
  - apply (parse_digits_acc u 7).
  - apply (parse_digits_acc u 8).
  - apply (parse_digits_acc u 9).
Qed.

(** [int('%d' % z)] is [z], for a count. *)
Lemma py_int_fmt_d (z : Z) : 0 <= z -> py_int (fmt_d z) = Ok z.
Proof.
  intros Hz. destruct z as [|p|p]; [reflexivity| |lia].
  assert (Hdig : forall c, In c (list_ascii_of_string (fmt_d (Z.pos p))) ->
                           is_space c = false).
  { intros c Hc. apply (fmt_d_digits _ _ Hz) in Hc. unfold digit_chars in Hc.
    simpl in Hc.
    repeat (destruct Hc as [<-|Hc]; [reflexivity|]). destruct Hc. }
  unfold py_int. rewrite (lstrip_id _ Hdig), (rstrip_id _ Hdig).
  unfold fmt_d. simpl Z.to_int. unfold NilZero.string_of_int, NilZero.string_of_uint.
  pose proof (DecimalPos.Unsigned.to_uint_nonnil p) as Hnil.
  pose proof (DecimalPos.Unsigned.of_to p) as Hback.
  destruct (Pos.to_uint p) as [|u|u|u|u|u|u|u|u|u|u] eqn:E;
    [contradiction| | | | | | | | | |];
    match goal with
    | |- match match ?s with _ => _ end with _ => _ end = _ =>
        change (match s with
                | String "+" t' => parse_digits t' 0 false
                | String "-" t' => option_map Z.opp (parse_digits t' 0 false)
                | _ => parse_digits s 0 false
                end) with (parse_digits s 0 false)
    end;
    rewrite parse_digits_uint by (left; discriminate);
    rewrite Hback; reflexivity.
Qed.

Lemma append_assoc_string (a b c : string) :
  (a +:+ b) +:+ c = a +:+ (b +:+ c).
Proof.
  induction a as [|x a IH]; [reflexivity|].
  change (String x ((a +:+ b) +:+ c) = String x (a +:+ (b +:+ c))).
  rewrite IH. reflexivity.
Qed.

Lemma prefix_app (p rest : string) : String.prefix p (p +:+ rest) = true.
Proof.
  induction p as [|x p IH]; [destruct rest; reflexivity|].
  change (String x p +:+ rest) with (String x (p +:+ rest)).
  cbn [String.prefix].
  destruct (ascii_dec x x) as [_|Hbad]; [exact IH | contradiction].
Qed.

Lemma find_first_sep (t rest : string) :
  separator_free t ->
  py_find "_" (t +:+ "_" +:+ rest) = Z.of_nat (String.length t).
Proof.
  intros Ht. apply py_find_at; [|apply (prefix_app "_")].
  intros x Hx. apply (Ht x Hx).
Qed.

Lemma find_second_sep (t n rest : string) :
  separator_free t -> separator_free n -> n <> "" ->
  py_find "__" (t +:+ "_" +:+ n +:+ "__" +:+ rest) =
  Z.of_nat (String.length t + 1 + String.length n).
Proof.
  intros Ht Hn Hne. unfold py_find.
  rewrite index_skip; [|intros x Hx; apply (Ht x Hx) | discriminate].
  destruct n as [|a n]; [contradiction|].
  change ("_" +:+ String a n +:+ "__" +:+ rest)
    with (String "_" (String a (n +:+ "__" +:+ rest))).
  cbn [String.index String.prefix].
  destruct (ascii_dec "_" "_") as [_|Hbad]; [|contradiction].
  destruct (ascii_dec "_" a) as [Heq|_].
  { exfalso. destruct (Hn a (or_introl eq_refl)) as [Hu _].
    apply Hu. symmetry. exact Heq. }
  rewrite index_skip;
    [|intros x Hx; apply (Hn x (or_intror Hx)) | discriminate].
  rewrite (index_here "__" ("__" +:+ rest));
    [|discriminate | apply (prefix_app "__")].
  simpl. f_equal. lia.
Qed.

Lemma find_extension (pre : string) :
  (forall x, In x (list_ascii_of_string pre) -> x <> "."%char) ->
  py_find ".txt" (pre +:+ ".txt") = Z.of_nat (String.length pre).
Proof.
  intros Hpre. apply py_find_at; [exact Hpre | apply (prefix_app ".txt" "")].
Qed.

(** The scanner reads back what the convention writes. *)
Lemma parse_rel_file_name (t n : string) (c : Z) :
  separator_free t -> separator_free n -> n <> "" -> 0 <= c ->
  parse_rel_filename (rel_file_name t n c) =
  Ok {| rm_type := t; rm_name := n; rm_cnt := c;
        rm_file := rel_file_name t n c |}.
Proof.
  intros Ht Hn Hne Hc. unfold parse_rel_filename.
  set (f := rel_file_name t n c).
  assert (Hpe : py_find "_" f = Z.of_nat (String.length t))
    by (apply find_first_sep, Ht).
  assert (Hre : py_find "__" f =
                Z.of_nat (String.length t + 1 + String.length n))
    by (apply find_second_sep; assumption).
  assert (Hf : f = (t +:+ "_" +:+ n +:+ "__" +:+ fmt_d c) +:+ ".txt").
  { unfold f, rel_file_name. rewrite !append_assoc_string. reflexivity. }
  assert (Hex : py_find ".txt" f =
                Z.of_nat (String.length (t +:+ "_" +:+ n +:+ "__") +
                          String.length (fmt_d c))).
  { rewrite Hf, find_extension.
    - rewrite <- length_app_string, !append_assoc_string. reflexivity.
    - intros x Hx. rewrite !chars_app in Hx.
      destruct Hx as [Hx|[Hx|[Hx|[Hx|Hx]]]].
      + apply (Ht x Hx).
      + destruct Hx as [<-|[]]. discriminate.
      + apply (Hn x Hx).
      + destruct Hx as [<-|[<-|[]]]; discriminate.
      + apply (fmt_d_digits _ _ Hc) in Hx. unfold digit_chars in Hx.
        simpl in Hx.
        repeat (destruct Hx as [<-|Hx]; [discriminate|]). destruct Hx. }
  rewrite Hpe, Hre, Hex.
  assert (Htype : py_slice f 0 (Z.of_nat (String.length t)) = t).
  { apply (py_slice_middle "" t). }
  assert (Hname : py_slice f (Z.of_nat (String.length t) + 1)
                    (Z.of_nat (String.length t + 1 + String.length n)) = n).
  { pose proof (py_slice_middle (t +:+ "_") n
                  ("__" +:+ fmt_d c +:+ ".txt")) as Hs.
    rewrite length_app_string, !append_assoc_string in Hs.
    simpl String.length in Hs.
    replace (Z.of_nat (String.length t) + 1)
      with (Z.of_nat (String.length t + 1)) by lia.
    exact Hs. }
  assert (Hcnt : py_slice f
                   (Z.of_nat (String.length t + 1 + String.length n) + 2)
                   (Z.of_nat (String.length (t +:+ "_" +:+ n +:+ "__") +
                              String.length (fmt_d c))) = fmt_d c).
  { pose proof (py_slice_middle (t +:+ "_" +:+ n +:+ "__") (fmt_d c) ".txt")
      as Hs.
    rewrite !append_assoc_string in Hs.
    replace (Z.of_nat (String.length t + 1 + String.length n) + 2)
      with (Z.of_nat (String.length (t +:+ "_" +:+ n +:+ "__"))).
    - exact Hs.
    - rewrite !length_app_string. simpl String.length. lia. }
  rewrite Htype, Hname, Hcnt, (py_int_fmt_d c Hc). reflexivity.
Qed.

(** X4.  A folder whose regular files follow the naming convention is read
    into the table of their types, names and counts, in listing order;
    its sub-directories are left out. *)
Theorem load_rels_meta_conventional {D : Type} (fs : FS.t D)
    (relpath : FS.path) (names : list string) (rows : list RelMeta) :
  FS.listdir fs relpath = Ok names ->
  List.filter (fun f => FS.isfile fs (FS.osp_join relpath f)) names =
    map rm_file rows ->
  Forall conventional_row rows ->
  load_rels_meta fs relpath = Ok rows.
Proof.
  intros Hlist Hfiles Hrows. unfold load_rels_meta.
  rewrite Hlist. cbn [bind]. rewrite Hfiles. clear Hlist Hfiles.
  induction Hrows as [|r rows (Ht & Hn & Hne & Hc & Hfile) _ IH];
    [reflexivity|].
  simpl. rewrite Hfile at 1. rewrite (parse_rel_file_name _ _ _ Ht Hn Hne Hc).
  cbn [bind]. rewrite IH. cbn [bind]. f_equal. f_equal.
  destruct r as [ty nm cn fl]. simpl in *. rewrite Hfile. reflexivity.
Qed.

End RelsNamesFacts.

Ltac separator_free_literal :=
  unfold RelsNames.separator_free; simpl; intros c Hc;
  repeat (destruct Hc as [<-|Hc]; [split; discriminate|]); destruct Hc.

Lemma load_rels_meta_conventional_witness :
  load_rels_meta DemoStore.rels_clean ["rels"] =
  Ok [ {| rm_type := "noun"; rm_name := "plural"; rm_cnt := 120;
          rm_file := "noun_plural__120.txt" |};
       {| rm_type := "verb"; rm_name := "past"; rm_cnt := 80;
          rm_file := "verb_past__80.txt" |} ].
Proof.
  apply (RelsNamesFacts.load_rels_meta_conventional DemoStore.rels_clean
           ["rels"] ["noun_plural__120.txt"; "old"; "verb_past__80.txt"]).
  - reflexivity.
  - reflexivity.
  - constructor; [|constructor; [|constructor]];
      (split; [separator_free_literal|]; split; [separator_free_literal|];
       split; [discriminate|]; split; [simpl; lia | reflexivity]).
Defined.

(* ===================================================================== *)
(** * Further properties of the orchestrator *)
(* ===================================================================== *)

Section LearnRelProtocolFacts.
Context `{Collaborators}.
Import Run.

Variables (relpath : FS.path) (rel_meta : RelMeta).
Variables (data_loaders : dict DataLoader) (single_rel_types : list string).
Variable epochs_fn : Z -> result Z.
Variable train_input_disturber : option Disturber.
Variables debug_test_df cuda : bool.

Lemma load_dataset_call (loader_name : string) (dl : DataLoader)
    (s s' : state) (r : result Dataset) :
  load_dataset relpath rel_meta single_rel_types loader_name dl s = (r, s') ->
  exists ev, load_call_of relpath rel_meta single_rel_types loader_name ev /\
             snd s' = snd s ++ [ev].
Proof.
  unfold load_dataset, call, load_call_of.
  destruct (String.eqb_spec (rm_type rel_meta) "rnd2rnd") as [Hr|Hr];
    [|destruct (existsb _ _) eqn:Hs];
    match goal with
    | |- (let (_, _) := ?op (fst s) in _) = _ -> _ =>
        destruct (op (fst s)) as [r0 w0]
    end; intros Heq; injection Heq as <- <-; eexists;
    (split; [|simpl; reflexivity]).
  - left. split; [exact Hr | reflexivity].
  - right. left. split; [exact Hr|]. split; [|reflexivity].
    apply existsb_exists in Hs as (x & Hin & Hx).
    apply String.eqb_eq in Hx. subst x. exact Hin.
  - right. right. split; [exact Hr|]. split; [|reflexivity].
    intros Hin.
    assert (Ht : existsb (String.eqb (rm_type rel_meta)) single_rel_types
                 = true).
    { apply existsb_exists. exists (rm_type rel_meta).
      split; [exact Hin | apply String.eqb_refl]. }
    rewrite Ht in Hs. discriminate Hs.
Qed.

(** One pass through the loop body that ends normally, in full. *)
Lemma learn_run_detail (emr emr' : dict (list RunResult))
    (combo : string * string * Z) (s s' : state) :
  learn_run relpath rel_meta data_loaders single_rel_types epochs_fn
    train_input_disturber debug_test_df cuda emr combo s = (Ok emr', s') ->
  exists it,
    iteration relpath rel_meta single_rel_types epochs_fn debug_test_df cuda
      combo it /\
    emr' = dict_set emr (combo_loader combo)
             (default [] (dict_get emr (combo_loader combo)) ++ [fst it]) /\
    snd s' = snd s ++ snd it.
Proof.
  destruct combo as [[model loader_name] run].
  unfold learn_run. intros Hrun.
  apply mbind_ok_inv in Hrun as (dl & s1 & Hdl & Hrun).
  apply lift_ok_inv in Hdl as [_ ->].
  apply mbind_ok_inv in Hrun as (ds & s2 & Hload & Hrun).
  destruct (load_dataset_call _ _ _ _ _ Hload) as (ev & Hev & Htr2).
  destruct ds as [[[[X Y] ds_n] ds_tc] ds_tf].
  apply mbind_ok_inv in Hrun as (mx & s3 & Hmx & Hrun).
  apply lift_ok_inv in Hmx as [_ ->].
  apply mbind_ok_inv in Hrun as (mn & s3 & Hmn & Hrun).
  apply lift_ok_inv in Hmn as [_ ->].
  apply mbind_ok_inv in Hrun as (u & s3 & Hassert & Hrun).
  apply lift_ok_inv in Hassert as [_ ->].
  apply mbind_ok_inv in Hrun as (epochs & s3 & Hep & Hrun).
  apply lift_ok_inv in Hep as [Hep ->].
  apply mbind_ok_inv in Hrun as (parts & s3 & Hsplit & Hrun).
  apply call_ok_inv in Hsplit as Htr3.
  destruct parts as [[trainloader validloader] testloader].
  apply mbind_ok_inv in Hrun as (my_model & s4 & Hbuild & Hrun).
  pose proof (call_ok_inv _ _ _ _ _ Hbuild) as Htr4.
  assert (Hbuilt : is_ok (_build_model model (snd (shape X))) = true).
  { unfold call in Hbuild. simpl in Hbuild.
    destruct (_build_model model (snd (shape X))) as [m|e];
      [reflexivity | discriminate Hbuild]. }
  apply mbind_ok_inv in Hrun as (trainer & s5 & Htrainer & Hrun).
  apply call_ok_inv in Htrainer as Htr5.
  apply mbind_ok_inv in Hrun as (pretrain & s6 & Htest & Hrun).
  apply call_ok_inv in Htest as Htr6.
  apply mbind_ok_inv in Hrun as (u' & s7 & Htrain & Hrun).
  apply call_ok_inv in Htrain as Htr7.
  apply mbind_ok_inv in Hrun as (test_df & s8 & Htestdf & Hrun).
  apply call_ok_inv in Htestdf as Htr8.
  apply mbind_ok_inv in Hrun as (test_random & s9 & Hrandom & Hrun).
  apply call_ok_inv in Hrandom as Htr9.
  unfold ret in Hrun. injection Hrun as <- <-.
  eexists (_, _). split; [|split; [reflexivity|]].
  - exists ev, (snd (shape X)), (fst (shape X)), epochs. simpl.
    split; [exact Hev|]. split; [exact Hep|]. split; [exact Hbuilt|].
    split; [reflexivity|]. split; [reflexivity|]. split; reflexivity.
  - simpl. rewrite Htr9, Htr8, Htr7, Htr6, Htr5, Htr4, Htr3, Htr2.
    rewrite <- !app_assoc. reflexivity.
Qed.

(** The runs a sequence of iterations adds to the mapping. *)
Lemma learn_loop_detail (combos : list (string * string * Z)) :
  forall (emr emr' : dict (list RunResult)) (s s' : state),
  for_each_M
    (learn_run relpath rel_meta data_loaders single_rel_types epochs_fn
       train_input_disturber debug_test_df cuda) combos emr s = (Ok emr', s') ->
  exists its,
    Forall2 (iteration relpath rel_meta single_rel_types epochs_fn
               debug_test_df cuda) combos its /\
    snd s' = snd s ++ concat (map snd its) /\
    forall emb runs r, dict_get emr' emb = Some runs -> In r runs ->
      In r (default [] (dict_get emr emb)) \/ In r (map fst its).
Proof.
  induction combos as [|c combos IH]; intros emr emr' s s' Hrun.
  - simpl in Hrun. unfold ret in Hrun. injection Hrun as <- <-.
    exists []. split; [constructor|].
    split; [simpl; rewrite app_nil_r; reflexivity|].
    intros emb runs r Hget Hr. left. rewrite Hget. exact Hr.
  - simpl in Hrun. apply mbind_ok_inv in Hrun as (emr1 & s1 & Hone & Hrest).
    apply learn_run_detail in Hone as (it & Hit & Hemr1 & Htr1).
    apply IH in Hrest as (its & Hits & Htr & Hruns).
    exists (it :: its). split; [constructor; assumption|]. split.
    + rewrite Htr, Htr1. simpl. rewrite <- app_assoc. reflexivity.
    + intros emb runs r Hget Hr.
      destruct (Hruns emb runs r Hget Hr) as [Hold|Hnew];
        [|right; right; exact Hnew].
      rewrite Hemr1 in Hold.
      destruct (String.eqb_spec (combo_loader c) emb) as [Heq|Hne].
      * rewrite <- Heq in *. rewrite dict_get_set_eq in Hold.
        simpl in Hold.
        apply in_app_or in Hold as [Hold|[<-|[]]];
          [left; exact Hold | right; left; reflexivity].
      * rewrite dict_get_set_ne in Hold by exact Hne. left. exact Hold.
Qed.

(** The mapping after a sequence of iterations: under every key, the runs
    it held before, then the runs of the iterations on that loader, in the
    order of the iterations. *)
Lemma learn_loop_runs (combos : list (string * string * Z)) :
  forall (emr emr' : dict (list RunResult)) (s s' : state),
  for_each_M
    (learn_run relpath rel_meta data_loaders single_rel_types epochs_fn
       train_input_disturber debug_test_df cuda) combos emr s = (Ok emr', s') ->
  exists its,
    Forall2 (iteration relpath rel_meta single_rel_types epochs_fn
               debug_test_df cuda) combos its /\
    snd s' = snd s ++ concat (map snd its) /\
    forall ln,
      default [] (dict_get emr' ln) =
      default [] (dict_get emr ln) ++
      List.filter (fun r => String.eqb (r_emb r) ln) (map fst its).
Proof.
  induction combos as [|c combos IH]; intros emr emr' s s' Hrun.
  - simpl in Hrun. unfold ret in Hrun. injection Hrun as <- <-.
    exists []. split; [constructor|].
    split; [|intros ln]; simpl; rewrite app_nil_r; reflexivity.
  - simpl in Hrun. apply mbind_ok_inv in Hrun as (emr1 & s1 & Hone & Hrest).
    apply learn_run_detail in Hone as (it & Hit & Hemr1 & Htr1).
    apply IH in Hrest as (its & Hits & Htr & Hruns).
    exists (it :: its). split; [constructor; assumption|]. split.
    + rewrite Htr, Htr1. simpl. rewrite <- app_assoc. reflexivity.
    + intros ln. rewrite Hruns, Hemr1.
      destruct Hit as (_ & _ & _ & _ & _ & _ & _ & _ & Hid & _).
      unfold run_ident in Hid.
      assert (Hemb : r_emb (fst it) = combo_loader c)
        by (rewrite <- Hid; reflexivity).
      simpl map. simpl List.filter. rewrite Hemb.
      destruct (String.eqb_spec (combo_loader c) ln) as [Heq|Hne].
      * rewrite <- Heq. rewrite dict_get_set_eq. simpl.
        rewrite <- app_assoc. reflexivity.
      * rewrite dict_get_set_ne by exact Hne. reflexivity.
Qed.

Lemma in_product3 {A B C : Type} (xs : list A) (ys : list B) (zs : list C)
    (x : A) (y : B) (z : C) :
  In (x, y, z) (product3 xs ys zs) -> In x xs /\ In y ys /\ In z zs.
Proof.
  unfold product3. intros Hin.
  apply in_flat_map in Hin as (x' & Hx & Hin).
  apply in_flat_map in Hin as (y' & Hy & Hin).
  apply in_map_iff in Hin as (z' & Heq & Hz).
  injection Heq as <- <- <-. repeat split; assumption.
Qed.

Lemma in_py_range (n i : Z) : In i (py_range n) -> 0 <= i < n.
Proof.
  unfold py_range. intros Hin. apply in_map_iff in Hin as (k & <- & Hk).
  apply in_seq in Hk. lia.
Qed.

(** X5.  A call of [learn_rel] that trains and returns has made, for each
    combination in product order, the eight calls of one iteration: the
    loading call the relation type selects, the split with seed 41, the
    factory call, the trainer's construction, the test before training,
    the training for the epochs the heuristic gave, the test table and the
    test on random vectors.  The runs of the result are the runs of these
    iterations and no others: under each key the result holds the runs of
    the iterations on that loader, in the order of the iterations, each
    with the model, loader and index of its combination and with the
    epochs it was trained for; and the run of every iteration is held under
    the name of its loader. *)
Theorem learn_rel_call_protocol
    (rel_filter : option (RelMeta -> bool)) (models : list string)
    (n_runs : Z) (s s' : state) (res : LearnResult) :
  75 <= rm_cnt rel_meta ->
  filtered_out rel_filter rel_meta = false ->
  learn_rel relpath rel_meta data_loaders single_rel_types epochs_fn
    rel_filter models n_runs train_input_disturber debug_test_df cuda s =
  (Ok res, s') ->
  exists its,
    Forall2 (iteration relpath rel_meta single_rel_types epochs_fn
               debug_test_df cuda)
      (product3 models (dict_keys data_loaders) (py_range n_runs)) its /\
    snd s' = snd s ++ concat (map snd its) /\
    (forall emb runs,
       dict_get (emb_model_results res) emb = Some runs ->
       runs = List.filter (fun r => String.eqb (r_emb r) emb) (map fst its)) /\
    (forall it, In it its ->
       exists runs,
         dict_get (emb_model_results res) (r_emb (fst it)) = Some runs /\
         In (fst it) runs).
Proof.
  intros Hcnt Hfilter Hrun.
  destruct (learn_rel_ok_inv _ _ _ _ _ _ _ _ _ _ _ _ _ _ Hcnt Hfilter Hrun)
    as (emr & Hloop & ->).
  apply learn_loop_runs in Hloop as (its & Hits & Htr & Hruns).
  exists its. split; [exact Hits|]. split; [exact Htr|]. simpl. split.
  - intros emb runs Hget. specialize (Hruns emb). rewrite Hget in Hruns.
    exact Hruns.
  - intros it Hit. specialize (Hruns (r_emb (fst it))). simpl in Hruns.
    assert (Hin : In (fst it)
              (List.filter (fun r => String.eqb (r_emb r) (r_emb (fst it)))
                 (map fst its))).
    { apply List.filter_In. split; [apply in_map, Hit|].
      apply String.eqb_refl. }
    rewrite <- Hruns in Hin.
    destruct (dict_get emr (r_emb (fst it))) as [runs|]; [|destruct Hin].
    exists runs. split; [reflexivity | exact Hin].
Qed.

(** X6.  Every run in a result of [learn_rel] carries the relation's count,
    which is at least 75, one of the requested model names, a run index
    below [n_runs], and a number of epochs the heuristic returned. *)
Theorem learn_rel_run_fields
    (rel_filter : option (RelMeta -> bool)) (models : list string)
    (n_runs : Z) (s s' : state) (res : LearnResult) :
  learn_rel relpath rel_meta data_loaders single_rel_types epochs_fn
    rel_filter models n_runs train_input_disturber debug_test_df cuda s =
  (Ok res, s') ->
  forall emb runs r,
    dict_get (emb_model_results res) emb = Some runs -> In r runs ->
    r_pos_exs r = rm_cnt rel_meta /\ 75 <= r_pos_exs r /\
    In (r_model r) models /\ 0 <= r_i r < n_runs /\
    exists rows, epochs_fn rows = Ok (r_epochs r).
Proof.
  intros Hrun emb runs r Hget Hr. unfold learn_rel in Hrun.
  destruct (Z.ltb_spec (rm_cnt rel_meta) 75) as [Hlt|Hcnt].
  { injection Hrun as <- _. discriminate Hget. }
  destruct (filtered_out rel_filter rel_meta).
  { injection Hrun as <- _. discriminate Hget. }
  apply mbind_ok_inv in Hrun as (emr & s1 & Hloop & Hret).
  unfold ret in Hret. injection Hret as <- _. simpl in Hget.
  apply learn_loop_detail in Hloop as (its & Hits & _ & Hruns).
  destruct (Hruns emb runs r Hget Hr) as [[]|Hnew].
  apply in_map_iff in Hnew as (it & <- & Hit).
  destruct (forall2_in_r _ _ _ _ Hits Hit) as ([[model ln] run] & Hc & Hiter).
  destruct Hiter as (load & indim & rows & epochs & _ & Hep & _ & _ &
                     Hid & Hepochs & Hpos).
  unfold run_ident in Hid. injection Hid as Hm Hl Hi.
  apply in_product3 in Hc as (Hmodel & _ & Hrange).
  apply in_py_range in Hrange.
  split; [exact Hpos|]. split; [lia|]. split; [rewrite Hm; exact Hmodel|].
  split; [lia|]. exists rows. rewrite Hepochs. exact Hep.
Qed.

Lemma mbind_inv {A B : Type} (m : M A) (k : A -> M B) (s s' : state)
    (r : result B) :
  mbind m k s = (r, s') ->
  (exists e, m s = (Raise e, s') /\ r = Raise e) \/
  (exists a s1, m s = (Ok a, s1) /\ k a s1 = (r, s')).
Proof.
  unfold mbind. destruct (m s) as [[a|e] s1]; intros Heq.
  - right. exists a, s1. split; [reflexivity | exact Heq].
  - left. injection Heq as <- <-. exists e. split; reflexivity.
Qed.

Lemma call_inv {A : Type} (ev : event) (op : World -> result A * World)
    (s s' : state) (r : result A) :
  call ev op s = (r, s') -> snd s' = snd s ++ [ev].
Proof.
  unfold call. destruct (op (fst s)) as [r0 w]. intros Heq.
  injection Heq as _ <-. reflexivity.
Qed.

Lemma lift_inv {A : Type} (r0 : result A) (s s' : state) (r : result A) :
  lift r0 s = (r, s') -> s' = s.
Proof. unfold lift. intros Heq. injection Heq as _ ->. reflexivity. Qed.

Lemma for_each_M_raise_inv {A S : Type} (body : S -> A -> M S)
    (l : list A) :
  forall (a : S) (s s' : state) (e : exn),
  for_each_M body l a s = (Raise e, s') ->
  exists pre c post a1 s1,
    l = pre ++ c :: post /\
    for_each_M body pre a s = (Ok a1, s1) /\
    body a1 c s1 = (Raise e, s').
Proof.
  induction l as [|x l IH]; intros a s s' e Hrun; [discriminate Hrun|].
  simpl in Hrun. apply mbind_inv in Hrun as [(e' & Hx & He)|(a1 & s1 & Hx & Hrest)].
  - injection He as <-. exists [], x, l, a, s.
    split; [reflexivity|]. split; [reflexivity | exact Hx].
  - apply IH in Hrest as (pre & c & post & a2 & s2 & -> & Hpre & Hc).
    exists (x :: pre), c, post, a2, s2. split; [reflexivity|].
    split; [|exact Hc]. simpl. unfold mbind. rewrite Hx. exact Hpre.
Qed.

Ltac trace_done ev Hev :=
  exists ev; eexists; split; [exact Hev|]; split;
  [repeat match goal with Ht : snd _ = _ |- _ => rewrite Ht; clear Ht end;
   rewrite <- ?app_assoc; simpl; reflexivity
  |repeat constructor].

Ltac lifted H ev Hev :=
  apply mbind_inv in H as [(? & H & _)|(? & ? & ?Hstep & H)];
  [apply lift_inv in H as ->; trace_done ev Hev
  |match goal with Hs : lift _ _ = _ |- _ => apply lift_inv in Hs as -> end].

Ltac called H ev Hev :=
  apply mbind_inv in H as [(? & H & _)|(? & ? & ?Hstep & H)];
  [apply call_inv in H; trace_done ev Hev
  |match goal with Hs : call _ _ _ = _ |- _ => apply call_inv in Hs end].

(** Whatever its outcome, one pass through the loop body makes its
    loading call first, and no other loading call. *)
Lemma learn_run_calls (emr : dict (list RunResult))
    (combo : string * string * Z) (dl : DataLoader) (s s' : state)
    (r : result (dict (list RunResult))) :
  dict_get data_loaders (combo_loader combo) = Some dl ->
  learn_run relpath rel_meta data_loaders single_rel_types epochs_fn
    train_input_disturber debug_test_df cuda emr combo s = (r, s') ->
  exists load rest,
    load_call_of relpath rel_meta single_rel_types (combo_loader combo) load /\
    snd s' = snd s ++ load :: rest /\
    Forall (fun ev => is_load_event ev = false) rest.
Proof.
  destruct combo as [[model loader_name] run]. unfold combo_loader. simpl.
  intros Hdl. unfold learn_run, get_loader. rewrite Hdl. intros Hrun.
  apply mbind_inv in Hrun as [(? & Hrun & _)|(? & s1 & Hs1 & Hrun)];
    [discriminate Hrun|].
  apply lift_inv in Hs1 as ->.
  apply mbind_inv in Hrun as [(? & Hload & _)|(ds & s2 & Hload & Hrun)].
  { destruct (load_dataset_call _ _ _ _ _ Hload) as (ev & Hev & Htr).
    trace_done ev Hev. }
  destruct (load_dataset_call _ _ _ _ _ Hload) as (ev & Hev & Htr2).
  clear Hload. destruct ds as [[[[X Y] ds_n] ds_tc] ds_tf].
  lifted Hrun ev Hev.
  lifted Hrun ev Hev.
  lifted Hrun ev Hev.
  lifted Hrun ev Hev.
  called Hrun ev Hev.
  match goal with
  | p : (Partition * Partition * Partition)%type |- _ =>
      destruct p as [[trainloader validloader] testloader]
  end.
  called Hrun ev Hev.
  called Hrun ev Hev.
  called Hrun ev Hev.
  called Hrun ev Hev.
  called Hrun ev Hev.
  called Hrun ev Hev.
  unfold ret in Hrun. injection Hrun as _ <-.
  trace_done ev Hev.
Qed.

(** X7.  When [learn_rel] raises, it has gone through the combinations before
    the failing one in full, has made the loading call of the failing
    combination and no loading call after it: no later combination is
    touched. *)
Theorem learn_rel_stops_at_first_failure
    (rel_filter : option (RelMeta -> bool)) (models : list string)
    (n_runs : Z) (s s' : state) (e : exn) :
  learn_rel relpath rel_meta data_loaders single_rel_types epochs_fn
    rel_filter models n_runs train_input_disturber debug_test_df cuda s =
  (Raise e, s') ->
  exists pre c post its load rest,
    product3 models (dict_keys data_loaders) (py_range n_runs) =
      pre ++ c :: post /\
    Forall2 (iteration relpath rel_meta single_rel_types epochs_fn
               debug_test_df cuda) pre its /\
    load_call_of relpath rel_meta single_rel_types (combo_loader c) load /\
    snd s' = snd s ++ concat (map snd its) ++ load :: rest /\
    Forall (fun ev => is_load_event ev = false) rest.
Proof.
  unfold learn_rel. intros Hrun.
  destruct (rm_cnt rel_meta <? 75); [discriminate Hrun|].
  destruct (filtered_out rel_filter rel_meta); [discriminate Hrun|].
  apply mbind_inv in Hrun as [(e' & Hloop & _)|(emr & s1 & _ & Hret)];
    [|discriminate Hret].
  apply for_each_M_raise_inv in Hloop
    as (pre & c & post & emr1 & s1 & Hsplit & Hpre & Hc).
  apply learn_loop_detail in Hpre as (its & Hits & Htr & _).
  assert (Hkey : In (combo_loader c) (dict_keys data_loaders)).
  { apply (in_product3_loader models _ (py_range n_runs)).
    rewrite Hsplit. apply in_elt. }
  apply dict_key_get in Hkey as (dl & Hdl).
  destruct (learn_run_calls _ _ _ _ _ _ Hdl Hc) as (load & rest & Hload & Htr' & Hrest).
  exists pre, c, post, its, load, rest.
  split; [exact Hsplit|]. split; [exact Hits|]. split; [exact Hload|].
  split; [|exact Hrest]. rewrite Htr', Htr, <- app_assoc. reflexivity.
Qed.

End LearnRelProtocolFacts.

Lemma learn_rel_call_protocol_witness :
  exists res s',
    Demo.learn (Demo.rel 100) [("glove", Demo.glove)] ["logreg"; "nn2"] 2 =
      (Ok res, s') /\
    exists its,
      Forall2 (@iteration Demo.payloads ["rels"] (Demo.rel 100) []
                 Epochs._epochs_from_trainset_size false false)
        (product3 ["logreg"; "nn2"] ["glove"] (py_range 2)) its /\
      snd s' = [] ++ concat (map snd its) /\
      (forall emb runs,
         dict_get (emb_model_results res) emb = Some runs ->
         runs = List.filter (fun r => String.eqb (r_emb r) emb) (map fst its)) /\
      (forall it, In it its ->
         exists runs,
           dict_get (emb_model_results res) (r_emb (fst it)) = Some runs /\
           In (fst it) runs).
Proof.
  eexists. eexists. split; [vm_compute; reflexivity|].
  eapply (@learn_rel_call_protocol Demo.payloads Demo.collaborators
            ["rels"] (Demo.rel 100) [("glove", Demo.glove)] []
            Epochs._epochs_from_trainset_size None false false
            None ["logreg"; "nn2"] 2 (0%nat, [])).
  - simpl. lia.
  - reflexivity.
  - vm_compute. reflexivity.
Defined.

Lemma learn_rel_run_fields_witness :
  exists res s',
    Demo.learn (Demo.rel 100) [("glove", Demo.glove)] ["logreg"; "nn2"] 2 =
      (Ok res, s') /\
    forall emb runs r,
      dict_get (emb_model_results res) emb = Some runs -> In r runs ->
      r_pos_exs r = 100 /\ 75 <= r_pos_exs r /\
      In (r_model r) ["logreg"; "nn2"] /\ 0 <= r_i r < 2 /\
      exists rows, Epochs._epochs_from_trainset_size rows = Ok (r_epochs r).
Proof.
  eexists. eexists. split; [vm_compute; reflexivity|].
  eapply (@learn_rel_run_fields Demo.payloads Demo.collaborators
            ["rels"] (Demo.rel 100) [("glove", Demo.glove)] []
            Epochs._epochs_from_trainset_size None false false
            None ["logreg"; "nn2"] 2 (0%nat, [])).
  vm_compute. reflexivity.
Defined.

Lemma learn_rel_stops_at_first_failure_witness :
  exists pre c post its load rest,
    product3 ["logreg"] ["glove"] (py_range 2) = pre ++ c :: post /\
    Forall2 (@iteration Demo.payloads ["rels"] (Demo.rel 100) []
               Epochs._epochs_from_trainset_size false false) pre its /\
    @load_call_of ["rels"] (Demo.rel 100) [] (combo_loader c) load /\
    [EvLoadPairData "glove" ["rels"; "noun_plural__100.txt"]] =
      [] ++ concat (map snd its) ++ load :: rest /\
    Forall (fun ev => is_load_event ev = false) rest.
Proof.
  apply (@learn_rel_stops_at_first_failure Demo.payloads Demo.collaborators
           ["rels"] (Demo.rel 100) [("glove", Demo.mislabelled)] []
           Epochs._epochs_from_trainset_size None false false
           None ["logreg"] 2 (0%nat, [])
           (0%nat, [EvLoadPairData "glove" ["rels"; "noun_plural__100.txt"]])
           (PyExc "AssertionError" (binary_msg 2 0))).
  vm_compute. reflexivity.
Defined.

(* ===================================================================== *)
(** * Further properties of the result store and loader *)
(* ===================================================================== *)

Section StoreLayout.
Context `{Payloads} {D : Type} `{!Codec D}.
Import FS FSFacts PyFacts.

Lemma path_of_slot (rel : path) (emb : string) (r : RunResult) :
  path_of rel (slot_of emb r) =
  rel ++ [emb; r_model r; run_dir_name (r_i r)].
Proof. reflexivity. Qed.




End StoreLayout.



Section StoreAgain.
Context `{Payloads} {D : Type} `{!Codec D}.
Import FS FSFacts PyFacts.

(** A slot no run of the mapping is stored in keeps its content. *)
Lemma stored_keys_untouched (emr : dict (list RunResult))
    (keys : list string) (c : content) (sl : slot) :
  (forall emb r, In emb keys -> In r (default [] (dict_get emr emb)) ->
                 slot_of emb r <> sl) ->
  stored_keys emr keys c sl = c sl.
Proof.
  intros Hfree.
  destruct (stored_keys emr keys c sl) as [r|] eqn:E.
  - apply stored_keys_some in E as [E|(emb & Hin & Hr & ->)];
      [symmetry; exact E|].
    exfalso. apply (Hfree emb r Hin Hr). reflexivity.
  - destruct (c sl) as [r|] eqn:Ec; [|reflexivity].
    destruct (stored_keys_kept emr keys c sl) as (r' & Hr').
    + rewrite Ec. eexists. reflexivity.
    + rewrite Hr' in E. discriminate E.
Qed.





(** Storing a second result into the tree of a first. *)
Lemma store_second (ord : list string -> list string) (dir_path : path)
    (a b : LearnResult) :
  rel_type b = rel_type a -> rel_name b = rel_name a ->
  (forall emb, In emb (dict_keys (emb_model_results a)) -> plain_name emb) ->
  (forall emb runs r, dict_get (emb_model_results a) emb = Some runs ->
                      In r runs -> plain_name (r_model r)) ->
  (forall emb, In emb (dict_keys (emb_model_results b)) -> plain_name emb) ->
  (forall emb runs r, dict_get (emb_model_results b) emb = Some runs ->
                      In r runs -> plain_name (r_model r)) ->
  exists fs1 fs2,
    store_learn_result (FS.empty ord) dir_path a = Ok fs1 /\
    store_learn_result fs1 dir_path b = Ok fs2 /\
    order fs1 = ord /\ order fs2 = ord /\
    Rep (osp_join (osp_join dir_path (rel_type a)) (rel_name a)) fs1
      (store_all no_content (emb_model_results a)) /\
    Rep (osp_join (osp_join dir_path (rel_type a)) (rel_name a)) fs2
      (stored_keys (emb_model_results b) (dict_keys (emb_model_results b))
         (store_all no_content (emb_model_results a))).
Proof.
  intros Htype Hname Hka Hma Hkb Hmb.
  destruct (store_learn_result_spec ord dir_path a Hka Hma)
    as (fs1 & Hstore1 & Hord1 & Hrep1).
  destruct (store_keys_spec _ (emb_model_results b)
              (dict_keys (emb_model_results b)) fs1 _ Hrep1 Hkb Hmb)
    as (fs2 & Hstore2 & Hord2 & Hrep2).
  exists fs1, fs2. split; [exact Hstore1|]. split.
  - unfold store_learn_result. rewrite Htype, Hname. exact Hstore2.
  - split; [exact Hord1|]. split; [rewrite Hord2; exact Hord1|].
    split; [exact Hrep1 | exact Hrep2].
Qed.


End StoreAgain.

Section StoreAccumulates.
Context `{Payloads} {D : Type} `{!Codec D} `{!CodecRoundTrip D}.
Import FS FSFacts PyFacts.

(** A run the content holds is a run the loader returns. *)
Lemma loaded_of_content (emr' : dict (list RunResult)) (c : content)
    (emb : string) (r : RunResult) :
  (forall emb,
     match dict_get emr' emb with
     | Some rs => emb_stored c emb rs /\ exists m d r, c (emb, m, d) = Some r
     | None => forall m d, c (emb, m, d) = None
     end) ->
  c (slot_of emb r) = Some r ->
  exists rs', dict_get emr' emb = Some rs' /\ In r rs'.
Proof.
  intros Hspec Hc. specialize (Hspec emb).
  destruct (dict_get emr' emb) as [rs'|].
  - exists rs'. split; [reflexivity|]. destruct Hspec as ((_ & Hin) & _).
    apply Hin. exists (r_model r), (run_dir_name (r_i r)). exact Hc.
  - unfold slot_of in Hc. rewrite Hspec in Hc. discriminate Hc.
Qed.

(** X11.  Storing adds to what a relation directory holds.  Let two results
    name the same relation; let the components of [dir_path], the relation
    type, the relation name, the embedding names and the model names of
    both be entry names; let each mapping have distinct keys, the second
    result hold at least one run, and the serialisers read back what they
    wrote.  Then storing the first and then the second into an empty tree
    succeeds, loading the relation succeeds whatever the listing order,
    and the loaded result holds only runs of the two results, under the
    key they were stored under; it holds every run of the second result
    whose key lists no two runs with the same model and index, and every
    such run of the first result whose run directory the second did not
    write to. *)
Theorem store_learn_result_accumulates (ord : list string -> list string)
    (dir_path : path) (a b : LearnResult) :
  rel_type b = rel_type a -> rel_name b = rel_name a ->
  Forall entry_name (dir_path ++ [rel_type a; rel_name a]) ->
  (forall emb, In emb (dict_keys (emb_model_results a)) -> entry_name emb) ->
  (forall emb runs r, dict_get (emb_model_results a) emb = Some runs ->
                      In r runs -> entry_name (r_model r)) ->
  (forall emb, In emb (dict_keys (emb_model_results b)) -> entry_name emb) ->
  (forall emb runs r, dict_get (emb_model_results b) emb = Some runs ->
                      In r runs -> entry_name (r_model r)) ->
  List.NoDup (dict_keys (emb_model_results a)) ->
  List.NoDup (dict_keys (emb_model_results b)) ->
  (forall l, Permutation (ord l) l) ->
  (exists emb runs r,
     dict_get (emb_model_results b) emb = Some runs /\ In r runs) ->
  exists fs1 fs2 res',
    store_learn_result (FS.empty ord) dir_path a = Ok fs1 /\
    store_learn_result fs1 dir_path b = Ok fs2 /\
    load_learn_result fs2 dir_path (rel_type a) (rel_name a) = Ok res' /\
    (forall emb rs' r,
       dict_get (emb_model_results res') emb = Some rs' -> In r rs' ->
       exists runs, In r runs /\
         (dict_get (emb_model_results a) emb = Some runs \/
          dict_get (emb_model_results b) emb = Some runs)) /\
    (forall emb runs r,
       dict_get (emb_model_results b) emb = Some runs -> In r runs ->
       List.NoDup (map (slot_of emb) runs) ->
       exists rs', dict_get (emb_model_results res') emb = Some rs' /\
                   In r rs') /\
    (forall emb runs r,
       dict_get (emb_model_results a) emb = Some runs -> In r runs ->
       List.NoDup (map (slot_of emb) runs) ->
       (forall runs' r', dict_get (emb_model_results b) emb = Some runs' ->
                         In r' runs' -> slot_of emb r' <> slot_of emb r) ->
       exists rs', dict_get (emb_model_results res') emb = Some rs' /\
                   In r rs').
Proof.
  intros Htype Hname _ Hka Hma Hkb Hmb Hnda Hndb Hord
    (emb0 & runs0 & r0 & Hget0 & Hr0).
  destruct (store_second ord dir_path a b Htype Hname
              (fun emb Hin => proj1 (Hka emb Hin))
              (fun emb runs r Hget Hr => proj1 (Hma emb runs r Hget Hr))
              (fun emb Hin => proj1 (Hkb emb Hin))
              (fun emb runs r Hget Hr => proj1 (Hmb emb runs r Hget Hr)))
    as (fs1 & fs2 & Hs1 & Hs2 & _ & Ho2 & _ & Hrep2).
  set (ca := store_all no_content (emb_model_results a)) in *.
  set (cb := stored_keys (emb_model_results b)
               (dict_keys (emb_model_results b)) ca) in *.
  destruct (load_learn_result_spec fs2 dir_path (rel_type a) (rel_name a)
              cb Hrep2) as (res' & Hload & _ & _ & _ & _ & Hspec).
  { intros l. rewrite Ho2. apply Hord. }
  { destruct (stored_keys_present (emb_model_results b)
                (dict_keys (emb_model_results b)) ca emb0 r0) as (r & Hr).
    - apply (dict_get_key _ _ _ Hget0).
    - rewrite Hget0. exact Hr0.
    - exists (slot_of emb0 r0), r. exact Hr. }
  exists fs1, fs2, res'. split; [exact Hs1|]. split; [exact Hs2|].
  split; [exact Hload|]. split; [|split].
  - intros emb rs' r Hget Hr. specialize (Hspec emb). rewrite Hget in Hspec.
    destruct Hspec as ((_ & Hin) & _). apply Hin in Hr as (m & d & Hc).
    assert (Hfrom : forall (emr : dict (list RunResult)) emb',
              In r (default [] (dict_get emr emb')) ->
              (emb, m, d) = slot_of emb' r ->
              exists runs, In r runs /\ dict_get emr emb = Some runs).
    { intros emr emb' Hr Hsl. injection Hsl as <- _ _.
      destruct (dict_get emr emb) as [runs|]; [|destruct Hr].
      exists runs. split; [exact Hr | reflexivity]. }
    apply stored_keys_some in Hc as [Hc|(emb' & _ & Hr & Hsl)].
    + apply stored_keys_some in Hc as [Hc|(emb' & _ & Hr & Hsl)];
        [discriminate Hc|].
      destruct (Hfrom _ _ Hr Hsl) as (runs & Hin' & Hg).
      exists runs. split; [exact Hin' | left; exact Hg].
    + destruct (Hfrom _ _ Hr Hsl) as (runs & Hin' & Hg).
      exists runs. split; [exact Hin' | right; exact Hg].
  - intros emb runs r Hget Hr Hslots.
    apply (loaded_of_content _ cb _ _ Hspec).
    apply (stored_keys_unique _ _ ca emb r Hndb).
    + apply (dict_get_key _ _ _ Hget).
    + rewrite Hget. exact Hslots.
    + rewrite Hget. exact Hr.
  - intros emb runs r Hget Hr Hslots Hfree.
    apply (loaded_of_content _ cb _ _ Hspec). unfold cb.
    rewrite stored_keys_untouched.
    + apply (stored_keys_unique _ _ no_content emb r Hnda).
      * apply (dict_get_key _ _ _ Hget).
      * rewrite Hget. exact Hslots.
      * rewrite Hget. exact Hr.
    + intros emb' r' Hin' Hr' Heq.
      assert (Hemb : emb' = emb)
        by exact (f_equal (fun sl : slot => fst (fst sl)) Heq).
      subst emb'.
      destruct (dict_get (emb_model_results b) emb) as [runs'|] eqn:E;
        [|destruct Hr'].
      apply (Hfree runs' r' eq_refl Hr' Heq).
Qed.



End StoreAccumulates.

Section LoadAll.
Context `{Payloads} {D : Type} `{!Codec D} `{!CodecRoundTrip D}.
Import FS FSFacts PyFacts.


End LoadAll.

Section LoadRun.
Context `{Payloads} {D : Type} `{!Codec D}.
Import FS.

(** X13.  A run directory is loaded only if each of its five names is a regular
    file: with one of them missing, or a directory, the load raises. *)
Theorem load_embrun_needs_all_files (fs : FS.t D) (emb_dir : path)
    (f : string) :
  In f ["meta.json"; "train.tsv"; "test.tsv"; "pretrain-test.json";
        "randomvec-test.json"] ->
  (forall d, lookup fs (osp_join emb_dir f) <> Some (File d)) ->
  is_ok (_load_embrun_result fs emb_dir) = false.
Proof.
  intros Hin Hno. unfold _load_embrun_result, read.
  repeat (destruct Hin as [<-|Hin]; [|]); try destruct Hin;
    repeat (match goal with
            | |- context [lookup fs ?p] =>
                destruct (lookup fs p) as [[|?]|] eqn:?
            end; cbn [bind is_ok]; try reflexivity;
            try (exfalso; eapply Hno; reflexivity);
            try match goal with
            | |- context [bind (?dec ?c) _] =>
                destruct (dec c); cbn [bind is_ok]; try reflexivity
            end).
Qed.

End LoadRun.



Lemma demo_glove_logreg_entry (res : @LearnResult Demo.payloads)
    (runs : list (@RunResult Demo.payloads)) :
  emb_model_results res = [("glove", runs)] ->
  Forall (fun r => r_model r = "logreg") runs ->
  (forall emb, In emb (dict_keys (emb_model_results res)) ->
               FS.entry_name emb) /\
  (forall emb runs' r, dict_get (emb_model_results res) emb = Some runs' ->
                       In r runs' -> FS.entry_name (r_model r)).
Proof.
  intros -> Hruns. split.
  - simpl. intros emb [<-|[]]. entry_literal.
  - intros emb runs' r Hget Hr. unfold dict_get in Hget.
    destruct (String.eqb "glove" emb); [|discriminate Hget].
    injection Hget as <-. rewrite List.Forall_forall in Hruns.
    rewrite (Hruns r Hr). entry_literal.
Qed.

Lemma store_learn_result_accumulates_witness :
  exists fs1 fs2 res',
    @store_learn_result Demo.payloads Demo.data Demo.codec
      (FS.empty Demo.listing_order) ["out"] Demo.zero_then_five = Ok fs1 /\
    @store_learn_result Demo.payloads Demo.data Demo.codec
      fs1 ["out"] DemoStore.later_run = Ok fs2 /\
    @load_learn_result Demo.payloads Demo.data Demo.codec
      fs2 ["out"] "noun" "plural" = Ok res' /\
    (forall emb rs' r,
       dict_get (emb_model_results res') emb = Some rs' -> In r rs' ->
       exists runs, In r runs /\
         (dict_get (emb_model_results Demo.zero_then_five) emb = Some runs \/
          dict_get (emb_model_results DemoStore.later_run) emb = Some runs)) /\
    (forall emb runs r,
       dict_get (emb_model_results DemoStore.later_run) emb = Some runs ->
       In r runs ->
       List.NoDup (map (slot_of emb) runs) ->
       exists rs', dict_get (emb_model_results res') emb = Some rs' /\
                   In r rs') /\
    (forall emb runs r,
       dict_get (emb_model_results Demo.zero_then_five) emb = Some runs ->
       In r runs ->
       List.NoDup (map (slot_of emb) runs) ->
       (forall runs' r',
          dict_get (emb_model_results DemoStore.later_run) emb = Some runs' ->
          In r' runs' -> slot_of emb r' <> slot_of emb r) ->
       exists rs', dict_get (emb_model_results res') emb = Some rs' /\
                   In r rs').
Proof.
  destruct (demo_glove_logreg_entry Demo.zero_then_five _ eq_refl)
    as [Hka Hma]; [repeat constructor|].
  destruct (demo_glove_logreg_entry DemoStore.later_run _ eq_refl)
    as [Hkb Hmb]; [repeat constructor|].
  assert (Hrel : Forall FS.entry_name
                   (["out"] ++ [rel_type Demo.zero_then_five;
                                rel_name Demo.zero_then_five])).
  { simpl. entry_names_literal. }
  apply (@store_learn_result_accumulates Demo.payloads Demo.data Demo.codec
           demo_codec_round_trip Demo.listing_order ["out"]
           Demo.zero_then_five DemoStore.later_run eq_refl eq_refl
           Hrel Hka Hma Hkb Hmb).
  - repeat constructor. intros [].
  - repeat constructor. intros [].
  - apply demo_listing_order_lists_all.
  - exists "glove", [Demo.run_with 2 5], (Demo.run_with 2 5).
    split; [reflexivity | left; reflexivity].
Defined.


Lemma load_embrun_needs_all_files_witness :
  is_ok (@_load_embrun_result Demo.payloads Demo.data Demo.codec
           (FS.empty Demo.listing_order) ["out"]) = false.
Proof.
  apply (@load_embrun_needs_all_files Demo.payloads Demo.data Demo.codec
           (FS.empty Demo.listing_order) ["out"] "meta.json").
  - left. reflexivity.
  - intros d. discriminate.
Defined.

Section StoreFrame.
Context `{Payloads} {D : Type} `{!Codec D}.
Import FS FSFacts PyFacts.

(** Creating directories adds directories and nothing else. *)
Lemma ensure_dirs_inv (rest : list string) :
  forall (pre : path) (fs fs' : FS.t D),
  wf fs -> ensure_dirs fs pre rest = Ok fs' ->
  wf fs' /\ order fs' = order fs /\
  (forall q m, has fs q m -> has fs' q m) /\
  (forall q m, has fs' q m -> has fs q m \/ m = Dir).
Proof.
  induction rest as [|c rest IH]; intros pre fs fs' Hwf Hrun.
  - injection Hrun as <-. split; [exact Hwf|]. split; [reflexivity|].
    split; [intros q m Hq; exact Hq | intros q m Hq; left; exact Hq].
  - simpl in Hrun.
    assert (Hne : pre ++ [c] <> []) by (destruct pre; discriminate).
    destruct (lookup fs (pre ++ [c])) as [[|d]|] eqn:E;
      [apply (IH _ _ _ Hwf Hrun) | discriminate Hrun |].
    destruct (IH _ _ _ (add_node_wf fs _ Dir Hwf Hne E) Hrun)
      as (Hwf' & Hord & Hkeep & Hnew).
    split; [exact Hwf'|]. split; [exact Hord|]. split.
    + intros q m Hq. apply Hkeep, add_node_has. left. exact Hq.
    + intros q m Hq. apply Hnew in Hq as [Hq|Hq]; [|right; exact Hq].
      apply add_node_has in Hq as [Hq|[_ ->]];
        [left; exact Hq | right; reflexivity].
Qed.

(** Writing files changes the files written and nothing else. *)
Lemma write_files_inv (dir : path) (files : list (string * D)) :
  forall (fs fs' : FS.t D),
  wf fs -> write_files fs dir files = Ok fs' ->
  wf fs' /\ order fs' = order fs /\
  (forall q m, has fs q m ->
     (forall f, In f (map fst files) -> q <> dir ++ [f]) -> has fs' q m) /\
  (forall q m, has fs' q m ->
     has fs q m \/
     exists f d, In (f, d) files /\ q = dir ++ [f] /\ m = File d) /\
  (List.NoDup (map fst files) ->
   forall f d, In (f, d) files -> has fs' (dir ++ [f]) (File d)).
Proof.
  induction files as [|[f d] files IH]; intros fs fs' Hwf Hrun.
  - injection Hrun as <-. split; [exact Hwf|]. split; [reflexivity|].
    split; [intros q m Hq _; exact Hq|].
    split; [intros q m Hq; left; exact Hq | intros _ f d []].
  - unfold write_files in Hrun. simpl in Hrun.
    destruct (write fs (dir ++ [f]) d) as [fs1|e] eqn:Hw;
      [|discriminate Hrun].
    simpl in Hrun.
    destruct (write_spec _ _ _ _ Hwf Hw) as (Hwf1 & Hord1 & Hhas1).
    destruct (IH fs1 fs' Hwf1 Hrun) as (Hwf' & Hord' & Hkeep & Hnew & Hput).
    split; [exact Hwf'|]. split; [congruence|]. split; [|split].
    + intros q m Hq Hfree. apply Hkeep.
      * apply Hhas1. left. split; [apply Hfree; left; reflexivity | exact Hq].
      * intros f' Hf'. apply Hfree. right. exact Hf'.
    + intros q m Hq. apply Hnew in Hq as [Hq|(f' & d' & Hin & -> & ->)].
      * apply Hhas1 in Hq as [[_ Hq]|[-> ->]]; [left; exact Hq|].
        right. exists f, d. split; [left; reflexivity|]. split; reflexivity.
      * right. exists f', d'. split; [right; exact Hin|]. split; reflexivity.
    + intros Hnd f' d' Hin. simpl in Hnd.
      apply List.NoDup_cons_iff in Hnd as [Hf Hnd].
      destruct Hin as [Heq|Hin].
      * injection Heq as <- <-. apply Hkeep.
        -- apply Hhas1. right. split; reflexivity.
        -- intros f' Hf' Heq. apply app_inj_tail in Heq as [_ Heq].
           subst f'. contradiction.
      * apply (Hput Hnd _ _ Hin).
Qed.

(** One run stored into any tree: what was there stays, but for the five
    files of the run directory. *)
Lemma store_embrun_frame (fs fs' : FS.t D) (emb_dir : path) (r : RunResult) :
  wf fs -> plain_name (r_model r) ->
  _store_embrun_result fs emb_dir r = Ok fs' ->
  let odir := emb_dir ++ [r_model r; run_dir_name (r_i r)] in
  wf fs' /\ order fs' = order fs /\
  (forall q m, has fs q m ->
     (forall f, In f (map fst (files_of r)) -> q <> odir ++ [f]) ->
     has fs' q m) /\
  (forall q m, has fs' q m ->
     has fs q m \/ m = Dir \/
     exists f d, In (f, d) (files_of r) /\ q = odir ++ [f] /\ m = File d) /\
  (forall f d, In (f, d) (files_of r) -> has fs' (odir ++ [f]) (File d)).
Proof.
  intros Hwf Hm Hrun odir. rewrite (store_embrun_unfold fs emb_dir r Hm) in Hrun.
  fold odir in Hrun.
  assert (Hmk : exists fs1,
            (if exists_ fs odir then Ok fs else makedirs fs odir) = Ok fs1 /\
            wf fs1 /\ order fs1 = order fs /\
            (forall q m, has fs q m -> has fs1 q m) /\
            (forall q m, has fs1 q m -> has fs q m \/ m = Dir)).
  { destruct (exists_ fs odir) eqn:Eex.
    - exists fs. split; [reflexivity|]. split; [exact Hwf|].
      split; [reflexivity|].
      split; [intros q m Hq; exact Hq | intros q m Hq; left; exact Hq].
    - unfold makedirs in *. rewrite Eex in *.
      destruct (ensure_dirs fs [] odir) as [fs1|e] eqn:Emk;
        [|discriminate Hrun].
      exists fs1. split; [reflexivity|].
      apply (ensure_dirs_inv _ _ _ _ Hwf Emk). }
  destruct Hmk as (fs1 & Hmk & Hwf1 & Hord1 & Hkeep1 & Hnew1).
  rewrite Hmk in Hrun. simpl in Hrun.
  destruct (write_files_inv _ _ _ _ Hwf1 Hrun)
    as (Hwf' & Hord' & Hkeep & Hnew & Hput).
  split; [exact Hwf'|]. split; [congruence|]. split; [|split].
  - intros q m Hq Hfree. apply (Hkeep q m (Hkeep1 q m Hq) Hfree).
  - intros q m Hq. apply Hnew in Hq as [Hq|Hq]; [|right; right; exact Hq].
    apply Hnew1 in Hq as [Hq|Hq]; [left; exact Hq | right; left; exact Hq].
  - apply Hput, files_of_names_nodup.
Qed.


End StoreFrame.


Section StoreRun.
Context `{Payloads} {D : Type} `{!Codec D} `{!CodecRoundTrip D}.
Import FS FSFacts PyFacts.

(** X15.  One run stored into any well-formed tree is read back from its
    run directory as it was: every scalar field and every payload. *)
Theorem store_then_load_run (fs fs' : FS.t D) (emb_dir : path)
    (r : RunResult) :
  wf fs -> plain_name (r_model r) ->
  _store_embrun_result fs emb_dir r = Ok fs' ->
  _load_embrun_result fs'
    (osp_join (osp_join emb_dir (r_model r)) (run_dir_name (r_i r))) = Ok r.
Proof.
  intros Hwf Hm Hstore.
  destruct (store_embrun_frame fs fs' emb_dir r Hwf Hm Hstore)
    as (Hwf' & _ & _ & _ & Hput).
  rewrite (osp_join_plain _ _ Hm).
  rewrite (osp_join_plain _ _ (run_dir_name_plain (r_i r))).
  rewrite <- app_assoc. simpl app.
  set (odir := emb_dir ++ [r_model r; run_dir_name (r_i r)]) in *.
  assert (Hread : forall f d, In (f, d) (files_of r) ->
                    read fs' (odir ++ [f]) = Ok d).
  { intros f d Hin. unfold read.
    assert (Hne : odir ++ [f] <> []) by (destruct odir; discriminate).
    apply Hput in Hin. apply (lookup_has _ _ _ Hwf' Hne) in Hin.
    rewrite Hin. reflexivity. }
  unfold _load_embrun_result, osp_join.
  repeat match goal with
  | |- context [components ?s] =>
      let v := eval vm_compute in (components s) in
      change (components s) with v
  end.
  cbv iota.
  rewrite (Hread "meta.json" (json_dump_meta (meta_of r)))
    by (simpl; tauto).
  rewrite (Hread "train.tsv" (to_csv (r_trainer_df r))) by (simpl; tauto).
  rewrite (Hread "test.tsv" (to_csv (r_test_df r))) by (simpl; tauto).
  rewrite (Hread "pretrain-test.json" (json_dump (r_pretrain_test_result r)))
    by (simpl; tauto).
  rewrite (Hread "randomvec-test.json" (json_dump (r_test_random_result r)))
    by (simpl; tauto).
  simpl bind.
  rewrite meta_round_trip, !csv_round_trip, !json_round_trip. simpl bind.
  destruct r; reflexivity.
Qed.

End StoreRun.

Lemma store_then_load_run_witness :
  exists fs',
    @_store_embrun_result Demo.payloads Demo.data Demo.codec
      DemoTree.other_relation ["out"; "noun"; "plural"; "glove"]
      (Demo.run_with 0 0) = Ok fs' /\
    @_load_embrun_result Demo.payloads Demo.data Demo.codec fs'
      (FS.osp_join (FS.osp_join ["out"; "noun"; "plural"; "glove"] "logreg")
         (run_dir_name 0)) = Ok (Demo.run_with 0 0).
Proof.
  eexists. split; [vm_compute; reflexivity|].
  eapply (@store_then_load_run Demo.payloads Demo.data Demo.codec
            demo_codec_round_trip DemoTree.other_relation _
            ["out"; "noun"; "plural"; "glove"] (Demo.run_with 0 0)).
  - split; [|simpl; intros [Hc|[Hc|[Hc|[]]]]; discriminate Hc].
    simpl. repeat constructor; simpl; intros Hin;
      repeat (destruct Hin as [Hin|Hin]; [discriminate Hin|]); destruct Hin.
  - plain_literal.
  - vm_compute. reflexivity.
Defined.
